(** * byvalver verification harness: bad-character analysis, verification
      engine, batch verifier, process runner and mode comparison

    Shallow embedding of [verify_denulled.py] and [test_all_bins.py].

    Conventions of the embedding:
    - a Python [bytes] object is a [list Z] of byte values, a Python [int]
      is a [Z], offsets and lengths (never negative in the source) are [nat];
    - a Python [set] of ints is a [gset Z], a [dict] is a [gmap];
    - the two [while] loops of the analyzer are index based, as in the
      source; they run on a fuel argument, and the fuel given by the
      analyzer (the length of the data) is shown to be enough;
    - the file system is a function from paths to nodes; [open] raises on
      anything that is not a readable regular file;
    - the orchestrator is given, for each run of the transformer, how the
      process ends and the disk it leaves; the wording of [str(e)] for an
      exception of [open] is the platform's and comes with the run;
    - printing to stdout is not modelled, apart from the warnings of
      [parse_bad_chars]; wall-clock times and percentages (floats) are
      left out of the records. *)

From stdpp Require Import gmap strings list fin_maps sorting pretty.
From Stdlib Require Import ZArith Ascii HexString.

Local Open Scope Z_scope.
Local Open Scope nat_scope.

(** ** Bad-character analyzer ([verify_denulled.py]) *)

Module Analyzer.

(** One entry of [bad_char_sequences]: [(seq_start, seq_length, bytes(seq_bytes))]. *)
Record Sequence := mkSequence {
  seq_start : nat;
  seq_length : nat;
  seq_bytes : list Z
}.

(** The dict returned by [analyze_shellcode_for_bad_chars]
    ([bad_char_percentage], a float, is left out). *)
Record ByteAnalysis := mkByteAnalysis {
  total_bytes : nat;
  bad_char_count : nat;
  bad_char_positions : gmap Z (list nat);
  bad_char_sequences : list Sequence;
  max_consecutive_bad_chars : nat;
  bad_chars_used : gset Z
}.

(** [if bad_chars is None: bad_chars = {0x00}] *)
Definition default_bad_chars : gset Z := {[ 0%Z ]}.

Definition bad_chars_or_default (bad_chars : option (gset Z)) : gset Z :=
  match bad_chars with
  | None => default_bad_chars
  | Some s => s
  end.

(** [for bad_byte in bad_chars: bad_char_positions[bad_byte] = []] *)
Definition init_positions (bad_chars : gset Z) : gmap Z (list nat) :=
  set_fold (fun bad_byte m => <[bad_byte := []]> m) ∅ bad_chars.

(** The inner loop
    [while i < len(shellcode_data) and shellcode_data[i] in bad_chars:
       seq_bytes.append(shellcode_data[i]); i += 1]
    returning the final [i] and [seq_bytes]. *)
Fixpoint inner_loop (fuel : nat) (shellcode_data : list Z) (bad_chars : gset Z)
    (i : nat) (seq_bytes : list Z) : nat * list Z :=
  match fuel with
  | O => (i, seq_bytes)
  | S fuel' =>
      match shellcode_data !! i with
      | Some b =>
          if decide (b ∈ bad_chars)
          then inner_loop fuel' shellcode_data bad_chars (S i) (seq_bytes ++ [b])
          else (i, seq_bytes)
      | None => (i, seq_bytes)
      end
  end.

(** The mutable locals of the outer loop. *)
Record LoopState := mkLoopState {
  ls_i : nat;
  ls_count : nat;
  ls_positions : gmap Z (list nat);
  ls_sequences : list Sequence
}.

(** [bad_char_positions[b].append(i)].  The key is always present when the
    source executes this line (see [positions_key_present]); on a missing
    key Python would raise KeyError, [alter] would leave the map as is. *)
Definition append_position (b : Z) (i : nat) (m : gmap Z (list nat)) :
    gmap Z (list nat) :=
  alter (fun ps => ps ++ [i]) b m.

(** The outer loop [while i < len(shellcode_data): ...]. *)
Fixpoint outer_loop (fuel : nat) (shellcode_data : list Z) (bad_chars : gset Z)
    (st : LoopState) : LoopState :=
  match fuel with
  | O => st
  | S fuel' =>
      let i := ls_i st in
      match shellcode_data !! i with
      | None => st
      | Some b =>
          if decide (b ∈ bad_chars) then
            let count := S (ls_count st) in
            let positions := append_position b i (ls_positions st) in
            let seq_start := i in
            let '(i', seq_bytes) :=
              inner_loop (length shellcode_data) shellcode_data bad_chars i [] in
            let seq_length := i' - seq_start in
            outer_loop fuel' shellcode_data bad_chars
              (mkLoopState i' count positions
                 (ls_sequences st ++ [mkSequence seq_start seq_length seq_bytes]))
          else
            outer_loop fuel' shellcode_data bad_chars
              (mkLoopState (S i) (ls_count st) (ls_positions st) (ls_sequences st))
      end
  end.

(** [max([seq[1] for seq in bad_char_sequences], default=0)] *)
Definition max_default0 (l : list nat) : nat := foldr Nat.max 0 l.

Definition analyze_shellcode_for_bad_chars (shellcode_data : list Z)
    (bad_chars : option (gset Z)) : ByteAnalysis :=
  let bad_chars := bad_chars_or_default bad_chars in
  let st := outer_loop (length shellcode_data) shellcode_data bad_chars
              (mkLoopState 0 0 (init_positions bad_chars) []) in
  mkByteAnalysis (length shellcode_data) (ls_count st) (ls_positions st)
    (ls_sequences st)
    (max_default0 (seq_length <$> ls_sequences st))
    bad_chars.

End Analyzer.

(** ** Parsing the bad-character option ([verify_denulled.py]) *)

Module Parse.

(** A Python [str] is modelled as a [string] whose characters are the code
    points below 256.  [str.isspace] on these code points. *)
Definition is_space (c : ascii) : bool :=
  let n := nat_of_ascii c in
  ((9 <=? n) && (n <=? 13)) || ((28 <=? n) && (n <=? 32))
  || (n =? 133) || (n =? 160).

(** [s.split(',')] *)
Fixpoint split_comma (s : string) : list string :=
  match s with
  | EmptyString => [EmptyString]
  | String c rest =>
      if Ascii.eqb c ","%char then EmptyString :: split_comma rest
      else match split_comma rest with
           | [] => [String c EmptyString]
           | p :: ps => String c p :: ps
           end
  end.

Fixpoint lstrip (s : string) : string :=
  match s with
  | EmptyString => EmptyString
  | String c rest => if is_space c then lstrip rest else s
  end.

Fixpoint rstrip (s : string) : string :=
  match s with
  | EmptyString => EmptyString
  | String c rest =>
      match rstrip rest with
      | EmptyString => if is_space c then EmptyString else String c EmptyString
      | r => String c r
      end
  end.

(** [part.strip()] *)
Definition strip (s : string) : string := rstrip (lstrip s).

Definition hex_digit (c : ascii) : option Z :=
  let n := nat_of_ascii c in
  if (48 <=? n) && (n <=? 57) then Some (Z.of_nat (n - 48))
  else if (97 <=? n) && (n <=? 102) then Some (Z.of_nat (n - 87))
  else if (65 <=? n) && (n <=? 70) then Some (Z.of_nat (n - 55))
  else None.

(** The digit scan of [int(s, 16)]: single underscores are allowed between
    digits, never two in a row and never at the end. *)
Fixpoint hex_digits (cs : list ascii) (acc : Z) (prev_underscore : bool) :
    option Z :=
  match cs with
  | [] => if prev_underscore then None else Some acc
  | c :: rest =>
      if Ascii.eqb c "_"%char then
        if prev_underscore then None else hex_digits rest acc true
      else
        match hex_digit c with
        | Some d => hex_digits rest (16 * acc + d)%Z false
        | None => None
        end
  end.

(** [int(s, 16)] on a stripped string; [None] stands for [ValueError].
    An optional sign, an optional [0x] or [0X] prefix (which may be followed
    by one underscore), then at least one hexadecimal digit. *)
Definition int16 (s : string) : option Z :=
  let cs := String.list_ascii_of_string s in
  let '(negative, cs) :=
    match cs with
    | "-"%char :: r => (true, r)
    | "+"%char :: r => (false, r)
    | _ => (false, cs)
    end in
  let cs :=
    match cs with
    | "0"%char :: x :: r =>
        if Ascii.eqb x "x"%char || Ascii.eqb x "X"%char then
          match r with
          | "_"%char :: r' => r'
          | _ => r
          end
        else cs
    | _ => cs
    end in
  match cs with
  | [] => None
  | c :: _ =>
      if Ascii.eqb c "_"%char then None
      else (fun v => if negative then (- v)%Z else v) <$> hex_digits cs 0%Z false
  end.

Definition warn_out_of_range (part : string) : string :=
  "[WARNING] Byte value out of range (0-255): " +:+ part.

Definition warn_invalid (part : string) : string :=
  "[WARNING] Invalid hex value: " +:+ part.

(** One iteration of [for part in bad_chars_str.split(','):] on the set
    built so far and the warnings printed so far. *)
Definition parse_part (acc : gset Z * list string) (part : string) :
    gset Z * list string :=
  let '(bad_chars, printed) := acc in
  let part := strip part in
  match part with
  | EmptyString => acc
  | _ =>
      match int16 part with
      | Some byte_val =>
          if ((0 <=? byte_val)%Z && (byte_val <=? 255)%Z)%bool
          then (bad_chars ∪ {[ byte_val ]}, printed)
          else (bad_chars, printed ++ [warn_out_of_range part])
      | None => (bad_chars, printed ++ [warn_invalid part])
      end
  end.

(** [parse_bad_chars]: the returned set, and the warnings it prints. *)
Definition parse_bad_chars (bad_chars_str : string) : gset Z * list string :=
  match bad_chars_str with
  | EmptyString => ({[ 0%Z ]}, [])
  | _ =>
      let '(bad_chars, printed) :=
        foldl parse_part (∅, []) (split_comma bad_chars_str) in
      (if decide (bad_chars = ∅) then {[ 0%Z ]} else bad_chars, printed)
  end.

End Parse.

(** ** File system and exceptions *)

Module FS.

(** What a path denotes on disk. *)
Inductive Node :=
  | Absent
  | Directory
  | RegularFile (readable : bool) (content : list Z).

Definition FileSystem := string -> Node.

(** The exceptions [open(path, 'rb')] raises in this model. *)
Inductive OSError :=
  | FileNotFoundError (path : string)
  | IsADirectoryError (path : string)
  | PermissionError (path : string).

(** A call that either returns or raises. *)
Inductive Result (A : Type) :=
  | Returned (a : A)
  | Raised (e : OSError).
Arguments Returned {A} a.
Arguments Raised {A} e.

(** [os.path.exists(path)] *)
Definition path_exists (fs : FileSystem) (path : string) : bool :=
  match fs path with
  | Absent => false
  | _ => true
  end.

(** [Path.is_file()] *)
Definition is_file (fs : FileSystem) (path : string) : bool :=
  match fs path with
  | RegularFile _ _ => true
  | _ => false
  end.

(** [with open(path, 'rb') as f: f.read()] *)
Definition read_file (fs : FileSystem) (path : string) : Result (list Z) :=
  match fs path with
  | Absent => Raised (FileNotFoundError path)
  | Directory => Raised (IsADirectoryError path)
  | RegularFile false _ => Raised (PermissionError path)
  | RegularFile true content => Returned content
  end.

End FS.

Import Analyzer Parse FS.

(** ** Verification engine and batch verifier ([verify_denulled.py]) *)

Module Verify.

(** [verify_bad_char_elimination]; only the returned value and the raised
    exception are modelled, not what is printed. *)
Definition verify_bad_char_elimination (fs : FileSystem) (input_file : string)
    (output_file : option string) (bad_chars : option (gset Z)) : Result bool :=
  let bad_chars := bad_chars_or_default bad_chars in
  if negb (path_exists fs input_file) then Returned false
  else
    match read_file fs input_file with
    | Raised e => Raised e
    | Returned input_data =>
        let input_analysis :=
          analyze_shellcode_for_bad_chars input_data (Some bad_chars) in
        match output_file with
        | None =>
            let success := bad_char_count input_analysis =? 0 in
            Returned success
        | Some output_file =>
            if negb (path_exists fs output_file) then Returned false
            else
              match read_file fs output_file with
              | Raised e => Raised e
              | Returned output_data =>
                  let output_analysis :=
                    analyze_shellcode_for_bad_chars output_data (Some bad_chars) in
                  let remaining_bad_char_count := bad_char_count output_analysis in
                  if remaining_bad_char_count =? 0 then Returned true
                  else Returned false
              end
        end
    end.

(** [verify_null_elimination] *)
Definition verify_null_elimination (fs : FileSystem) (input_file : string)
    (output_file : option string) : Result bool :=
  verify_bad_char_elimination fs input_file output_file (Some {[ 0%Z ]}).

(** The [stats] dict of the batch verifier. *)
Record BatchStats := mkBatchStats {
  total : nat;
  successful : nat;
  failed : nat;
  errors : nat
}.

(** One entry of the [results] list. *)
Record FileResult := mkFileResult {
  fr_file : string;
  fr_output_file : option string;
  fr_success : bool;
  fr_status : string;
  fr_error : option OSError
}.

(** [output_mapping]: filled only when [output_dir] is truthy.  [mirror]
    stands for [str(output_path / input_file.relative_to(input_path))]. *)
Definition build_output_mapping (output_dir : option string)
    (mirror : string -> string) (input_files : list string) : gmap string string :=
  match output_dir with
  | None | Some EmptyString => ∅
  | Some _ =>
      foldl (fun m input_file => <[input_file := mirror input_file]> m)
        ∅ input_files
  end.

(** The loop [for i, input_file in enumerate(input_files, 1):] on the pair
    of [stats] and [results]. *)
Fixpoint batch_loop (fs : FileSystem) (output_mapping : gmap string string)
    (continue_on_error : bool) (bad_chars : gset Z)
    (input_files : list string) (st : BatchStats * list FileResult) :
    BatchStats * list FileResult :=
  match input_files with
  | [] => st
  | input_file :: rest =>
      let '(stats, results) := st in
      let output_file := output_mapping !! input_file in
      match verify_bad_char_elimination fs input_file output_file (Some bad_chars) with
      | Returned result =>
          let '(stats, status) :=
            if result
            then (mkBatchStats (total stats) (S (successful stats))
                    (failed stats) (errors stats), "SUCCESS")
            else (mkBatchStats (total stats) (successful stats)
                    (S (failed stats)) (errors stats), "FAILED") in
          batch_loop fs output_mapping continue_on_error bad_chars rest
            (stats, results ++ [mkFileResult input_file output_file result status None])
      | Raised e =>
          let stats := mkBatchStats (total stats) (successful stats)
                         (failed stats) (S (errors stats)) in
          let results :=
            results ++ [mkFileResult input_file output_file false "ERROR" (Some e)] in
          if negb continue_on_error then (stats, results)
          else batch_loop fs output_mapping continue_on_error bad_chars rest
                 (stats, results)
      end
  end.

(** [batch_verify_bad_char_elimination], with the local [results] list next
    to the returned [stats].  [matched] is what [glob] or [rglob] yields for
    the pattern, in that order. *)
Definition batch_run (fs : FileSystem) (matched : list string)
    (output_dir : option string) (mirror : string -> string)
    (continue_on_error : bool) (bad_chars : option (gset Z)) :
    BatchStats * list FileResult :=
  let bad_chars := bad_chars_or_default bad_chars in
  let input_files := filter (fun p => is_file fs p = true) matched in
  match input_files with
  | [] => (mkBatchStats 0 0 0 0, [])
  | _ =>
      let output_mapping := build_output_mapping output_dir mirror input_files in
      batch_loop fs output_mapping continue_on_error bad_chars input_files
        (mkBatchStats (length input_files) 0 0 0, [])
  end.

Definition batch_verify_bad_char_elimination (fs : FileSystem)
    (matched : list string) (output_dir : option string)
    (mirror : string -> string) (continue_on_error : bool)
    (bad_chars : option (gset Z)) : BatchStats :=
  fst (batch_run fs matched output_dir mirror continue_on_error bad_chars).

End Verify.

(** ** Parsing the transformer's output ([test_all_bins.py]) *)

Module OutputParser.

(** What a step of the parser can raise. *)
Inductive Exn :=
  | ValueError
  | IndexError.

Inductive Outcome (A : Type) :=
  | Ok (a : A)
  | Raise (e : Exn).
Arguments Ok {A} a.
Arguments Raise {A} e.

Definition bind {A B : Type} (m : Outcome A) (k : A -> Outcome B) : Outcome B :=
  match m with
  | Ok a => k a
  | Raise e => Raise e
  end.

(** [needle in s] *)
Fixpoint contains (needle s : string) : bool :=
  if String.prefix needle s then true
  else match s with
       | EmptyString => false
       | String _ rest => contains needle rest
       end.

(** [s.split(sep)] for a one-character separator. *)
Fixpoint split_char (sep : ascii) (s : string) : list string :=
  match s with
  | EmptyString => [EmptyString]
  | String c rest =>
      if Ascii.eqb c sep then EmptyString :: split_char sep rest
      else match split_char sep rest with
           | [] => [String c EmptyString]
           | p :: ps => String c p :: ps
           end
  end.

(** [s.split(sep)] for a non-empty separator string: [skip] counts the
    characters of a separator found earlier that are still to be passed. *)
Fixpoint split_str_from (sep s : string) (skip : nat) : list string :=
  match s with
  | EmptyString => [EmptyString]
  | String c rest =>
      match skip with
      | S k => split_str_from sep rest k
      | O =>
          if String.prefix sep s
          then EmptyString :: split_str_from sep rest (String.length sep - 1)
          else match split_str_from sep rest 0 with
               | [] => [String c EmptyString]
               | p :: ps => String c p :: ps
               end
      end
  end.

Definition split_str (sep s : string) : list string := split_str_from sep s 0.

(** [s.split()]: the maximal runs of characters that are not whitespace. *)
Fixpoint split_whitespace (s : string) : list string :=
  match s with
  | EmptyString => []
  | String c rest =>
      if is_space c then split_whitespace rest
      else
        match rest with
        | EmptyString => [String c EmptyString]
        | String c' _ =>
            if is_space c' then String c EmptyString :: split_whitespace rest
            else match split_whitespace rest with
                 | [] => [String c EmptyString]
                 | w :: ws => String c w :: ws
                 end
        end
  end.

(** [l[i]], raising IndexError out of range. *)
Definition item {A : Type} (l : list A) (i : nat) : Outcome A :=
  match l !! i with
  | Some a => Ok a
  | None => Raise IndexError
  end.

Definition dec_digit (c : ascii) : option Z :=
  let n := nat_of_ascii c in
  if (48 <=? n) && (n <=? 57) then Some (Z.of_nat (n - 48)) else None.

Fixpoint dec_digits (cs : list ascii) (acc : Z) (prev_underscore : bool) :
    option Z :=
  match cs with
  | [] => if prev_underscore then None else Some acc
  | c :: rest =>
      if Ascii.eqb c "_"%char then
        if prev_underscore then None else dec_digits rest acc true
      else
        match dec_digit c with
        | Some d => dec_digits rest (10 * acc + d)%Z false
        | None => None
        end
  end.

(** [int(s)]: surrounding whitespace is ignored, then an optional sign and
    at least one decimal digit, single underscores allowed between digits. *)
Definition int10 (s : string) : Outcome Z :=
  let cs := String.list_ascii_of_string (strip s) in
  let '(negative, cs) :=
    match cs with
    | "-"%char :: r => (true, r)
    | "+"%char :: r => (false, r)
    | _ => (false, cs)
    end in
  match cs with
  | [] => Raise ValueError
  | c :: _ =>
      if Ascii.eqb c "_"%char then Raise ValueError
      else match dec_digits cs 0%Z false with
           | Some v => Ok (if negative then (- v)%Z else v)
           | None => Raise ValueError
           end
  end.

(** [c.lower()] on a code point below 256. *)
Definition lower_char (c : ascii) : ascii :=
  let n := nat_of_ascii c in
  if ((65 <=? n) && (n <=? 90))
     || ((192 <=? n) && (n <=? 222) && negb (n =? 215))
  then ascii_of_nat (n + 32) else c.

(** [s.lower()] *)
Fixpoint lower (s : string) : string :=
  match s with
  | EmptyString => EmptyString
  | String c rest => String (lower_char c) (lower rest)
  end.

(** [s[:n]] *)
Fixpoint truncate (n : nat) (s : string) : string :=
  match n, s with
  | S k, String c rest => String c (truncate k rest)
  | _, _ => EmptyString
  end.
Arguments truncate : simpl never.

(** The [stats] dict of [parse_byvalver_output]. *)
Record OutputStats := mkOutputStats {
  original_size : Z;
  modified_size : Z;
  instructions_disassembled : Z;
  null_bytes_found : Z;
  strategies_applied : list string;
  warnings : list string;
  has_nulls_eliminated : bool
}.

Definition initial_output_stats : OutputStats :=
  mkOutputStats 0 0 0 0 [] [] false.

(** The body of [for line in output.split('\n'):]. *)
Definition parse_output_line (stats : OutputStats) (line : string) :
    Outcome OutputStats :=
  if contains "Original shellcode size:" line then
    bind (item (split_char ":"%char line) 1) (fun field =>
    bind (int10 (strip field)) (fun n =>
    Ok (mkOutputStats n (modified_size stats) (instructions_disassembled stats)
          (null_bytes_found stats) (strategies_applied stats) (warnings stats)
          (has_nulls_eliminated stats))))
  else if contains "Modified shellcode size:" line then
    bind (item (split_char ":"%char line) 1) (fun field =>
    bind (int10 (strip field)) (fun n =>
    Ok (mkOutputStats (original_size stats) n (instructions_disassembled stats)
          (null_bytes_found stats) (strategies_applied stats) (warnings stats)
          (has_nulls_eliminated stats))))
  else Ok stats.

(** The five [if] statements of [for line in error.split('\n'):], one
    definition each. *)
Definition step_disasm (line : string) (stats : OutputStats) :
    Outcome OutputStats :=
  if contains "[DISASM] Disassembled" line then
    let parts := split_whitespace line in
    if 3 <=? length parts then
      bind (item parts 2) (fun part =>
      bind (int10 part) (fun n =>
      Ok (mkOutputStats (original_size stats) (modified_size stats) n
            (null_bytes_found stats) (strategies_applied stats)
            (warnings stats) (has_nulls_eliminated stats))))
    else Ok stats
  else Ok stats.

Definition step_strategy (line : string) (stats : OutputStats) :
    Outcome OutputStats :=
  if contains "[TRACE] Using strategy" line then
    if contains "'" line then
      bind (item (split_char "'"%char line) 1) (fun strategy_name =>
      if bool_decide (strategy_name ∈ strategies_applied stats) then Ok stats
      else
        Ok (mkOutputStats (original_size stats) (modified_size stats)
              (instructions_disassembled stats) (null_bytes_found stats)
              (strategies_applied stats ++ [strategy_name]) (warnings stats)
              (has_nulls_eliminated stats)))
    else Ok stats
  else Ok stats.

Definition step_warning (line : string) (stats : OutputStats) :
    Outcome OutputStats :=
  if contains "[WARNING]" line then
    bind (item (split_str "[WARNING]" line) 1) (fun text =>
    let warning := truncate 100 (strip text) in
    if bool_decide (warning ∈ warnings stats) then Ok stats
    else
      Ok (mkOutputStats (original_size stats) (modified_size stats)
            (instructions_disassembled stats) (null_bytes_found stats)
            (strategies_applied stats) (warnings stats ++ [warning])
            (has_nulls_eliminated stats)))
  else Ok stats.

Definition step_has_null (line : string) (stats : OutputStats) : OutputStats :=
  if contains "has_null=1" line then
    mkOutputStats (original_size stats) (modified_size stats)
      (instructions_disassembled stats) (null_bytes_found stats + 1)
      (strategies_applied stats) (warnings stats) (has_nulls_eliminated stats)
  else stats.

Definition step_eliminated (line : string) (stats : OutputStats) : OutputStats :=
  if contains "eliminated" (lower line) || contains "transformed" (lower line)
  then
    mkOutputStats (original_size stats) (modified_size stats)
      (instructions_disassembled stats) (null_bytes_found stats)
      (strategies_applied stats) (warnings stats) true
  else stats.

(** The body of [for line in error.split('\n'):]. *)
Definition parse_error_line (stats : OutputStats) (line : string) :
    Outcome OutputStats :=
  bind (step_disasm line stats) (fun stats =>
  bind (step_strategy line stats) (fun stats =>
  bind (step_warning line stats) (fun stats =>
  Ok (step_eliminated line (step_has_null line stats))))).

(** A [for] loop whose body may raise. *)
Fixpoint for_each {A B : Type} (body : A -> B -> Outcome A) (l : list B)
    (a : A) : Outcome A :=
  match l with
  | [] => Ok a
  | x :: rest => bind (body a x) (for_each body rest)
  end.

Definition newline : ascii := ascii_of_nat 10.

(** [parse_byvalver_output] *)
Definition parse_byvalver_output (output error : string) : Outcome OutputStats :=
  bind (for_each parse_output_line (split_char newline output)
          initial_output_stats) (fun stats =>
  for_each parse_error_line (split_char newline error) stats).

End OutputParser.

(** ** Process runner and orchestrator ([test_all_bins.py]) *)

Module Runner.

Import OutputParser.

(** [analyze_shellcode_for_nulls] *)
Definition analyze_shellcode_for_nulls (shellcode_data : list Z) : Z :=
  foldl (fun null_count byte =>
           if (byte =? 0)%Z then (null_count + 1)%Z else null_count)
        0%Z shellcode_data.

(** How the call [subprocess.run(cmd, capture_output=True, text=True,
    timeout=timeout)] ends. *)
Inductive Subprocess :=
  | Completed (returncode : Z) (stdout stderr : string)
  | TimeoutExpired
  | RunFailed (message : string).

(** The text stored under ['error']. *)
Inductive ErrorText :=
  | Text (s : string)
  | TimedOutAfter (timeout : Z)
  | StrOfOSError (e : OSError).

(** The [result] dict of [run_byvalver] (['execution_time'] is left out). *)
Record RunResult := mkRunResult {
  success : bool;
  output : string;
  error : ErrorText;
  exit_code : option Z;
  timed_out : bool;
  output_data : option (list Z);
  nulls_remaining : Z;
  nulls_in_original : Z
}.

(** [run_byvalver]: [proc] is how the transformer run ended and [fs] the
    file system it left behind. *)
Definition run_byvalver (fs : FileSystem) (proc : Subprocess)
    (input_path output_path : string) (timeout : Z) : RunResult :=
  match proc with
  | TimeoutExpired =>
      mkRunResult false "" (TimedOutAfter timeout) None true None (-1) (-1)
  | RunFailed message =>
      mkRunResult false "" (Text message) None false None (-1) (-1)
  | Completed returncode stdout stderr =>
      if (returncode =? 0)%Z then
        if path_exists fs output_path then
          match read_file fs output_path with
          | Raised e =>
              mkRunResult false stdout (StrOfOSError e) (Some returncode) false
                None (-1) (-1)
          | Returned data =>
              let remaining := analyze_shellcode_for_nulls data in
              match read_file fs input_path with
              | Raised e =>
                  mkRunResult false stdout (StrOfOSError e) (Some returncode)
                    false (Some data) remaining (-1)
              | Returned original_data =>
                  mkRunResult ((returncode =? 0)%Z && (remaining =? 0)%Z)
                    stdout (Text stderr) (Some returncode) false (Some data)
                    remaining (analyze_shellcode_for_nulls original_data)
              end
          end
        else
          mkRunResult false stdout (Text stderr) (Some returncode) false None
            (-1) (-1)
      else
        mkRunResult false stdout (Text stderr) (Some returncode) false None
          (-1) (-1)
  end.

(** The string stored under ['error']: [str_of] is [str(e)] for an
    exception of [open], whose wording is the platform's. *)
Definition error_string (str_of : OSError -> string) (e : ErrorText) : string :=
  match e with
  | Text s => s
  | TimedOutAfter timeout =>
      "Process timed out after " +:+ pretty timeout +:+ " seconds"
  | StrOfOSError e => str_of e
  end.

(** The counters of one mode; the source keeps them in one dict, under keys
    ending in [_biphasic] and [_non_biphasic]. *)
Record ModeStats := mkModeStats {
  successful : Z;
  failed : Z;
  timed_out_count : Z;
  errors : Z;
  total_instructions : Z;
  total_null_bytes_found : Z;
  files_with_nulls : Z;
  strategies_used : gmap string Z
}.

Definition empty_mode_stats : ModeStats := mkModeStats 0 0 0 0 0 0 0 ∅.

(** [exit_code == 0], where [exit_code] may be [None]. *)
Definition exit_code_is_zero (code : option Z) : bool :=
  match code with
  | Some c => (c =? 0)%Z
  | None => false
  end.

(** The [if]/[elif] chain "Determine status", which [main] writes out once
    per mode: the status string and the counter it increments. *)
Definition determine_status (r : RunResult) (st : ModeStats) : string * ModeStats :=
  if timed_out r then
    ("TIMEOUT",
     mkModeStats (successful st) (failed st) (timed_out_count st + 1) (errors st)
       (total_instructions st) (total_null_bytes_found st) (files_with_nulls st)
       (strategies_used st))
  else if success r then
    ("SUCCESS",
     mkModeStats (successful st + 1) (failed st) (timed_out_count st) (errors st)
       (total_instructions st) (total_null_bytes_found st) (files_with_nulls st)
       (strategies_used st))
  else if exit_code_is_zero (exit_code r) && (0 <? nulls_remaining r)%Z then
    ("NULLS_REMAINING",
     mkModeStats (successful st) (failed st + 1) (timed_out_count st) (errors st)
       (total_instructions st) (total_null_bytes_found st) (files_with_nulls st)
       (strategies_used st))
  else if negb (exit_code_is_zero (exit_code r)) then
    ("ERROR",
     mkModeStats (successful st) (failed st) (timed_out_count st) (errors st + 1)
       (total_instructions st) (total_null_bytes_found st) (files_with_nulls st)
       (strategies_used st))
  else
    ("FAILED",
     mkModeStats (successful st) (failed st + 1) (timed_out_count st) (errors st)
       (total_instructions st) (total_null_bytes_found st) (files_with_nulls st)
       (strategies_used st)).

Definition status_of (r : RunResult) : string :=
  fst (determine_status r empty_mode_stats).

(** "Update stats": instructions, null bytes, files with nulls, strategies. *)
Definition update_stats (r : RunResult) (parsed : OutputStats) (st : ModeStats) :
    ModeStats :=
  let nulls := nulls_remaining r in
  mkModeStats (successful st) (failed st) (timed_out_count st) (errors st)
    (total_instructions st + instructions_disassembled parsed)
    (total_null_bytes_found st + nulls)
    (if (0 <? nulls)%Z then files_with_nulls st + 1 else files_with_nulls st)
    (foldl (fun m strategy => <[strategy := (default 0 (m !! strategy) + 1)%Z]> m)
       (strategies_used st) (strategies_applied parsed)).

(** What the loop body does for one mode of one file. *)
Definition mode_step (r : RunResult) (parsed : OutputStats) (st : ModeStats) :
    string * ModeStats :=
  let '(status, st) := determine_status r st in
  (status, update_stats r parsed st).

(** One run of the transformer as the orchestrator sees it: how the process
    ends, the disk it leaves, the name of the temporary output file, and the
    platform's wording of an exception of [open]. *)
Record Trial := mkTrial {
  trial_fs : FileSystem;
  trial_proc : Subprocess;
  trial_output_path : string;
  trial_strerror : OSError -> string
}.

(** The entries of [file_result] used later on. *)
Record ModeTest := mkModeTest {
  status : string;
  test_exit_code : option Z;
  test_timed_out : bool;
  test_nulls_remaining : Z;
  test_nulls_in_original : Z
}.

Record FileTest := mkFileTest {
  filename : string;
  biphasic_test : ModeTest;
  non_biphasic_test : ModeTest
}.

Record Stats := mkStats {
  stats_total : nat;
  stats_biphasic : ModeStats;
  stats_non_biphasic : ModeStats
}.

(** One mode of one file: [run_byvalver], then [parse_byvalver_output] on
    the captured text, whose [ValueError] nothing catches, then the status
    and the statistics. *)
Definition run_mode (path : string) (t : Trial) (st : ModeStats) :
    Outcome (ModeTest * ModeStats) :=
  let r := run_byvalver (trial_fs t) (trial_proc t) path (trial_output_path t) 120 in
  bind (parse_byvalver_output (output r)
          (error_string (trial_strerror t) (error r))) (fun parsed_stats =>
  let '(status, st) := mode_step r parsed_stats st in
  Ok (mkModeTest status (exit_code r) (timed_out r) (nulls_remaining r)
        (nulls_in_original r), st)).

(** An entry of [get_bin_files()]. *)
Record BinFile := mkBinFile {
  bf_name : string;
  bf_path : string;
  bf_size : Z
}.

(** The body of the loop [for idx, bin_file in enumerate(bin_files, 1):] of
    [main]: the biphasic run of the file, then its non-biphasic run, then
    the file's record is appended. *)
Definition test_file (acc : Stats * list FileTest)
    (entry : BinFile * Trial * Trial) : Outcome (Stats * list FileTest) :=
  let '(stats, tests) := acc in
  let '(bin_file, biphasic, non_biphasic) := entry in
  bind (run_mode (bf_path bin_file) biphasic (stats_biphasic stats))
    (fun '(b_test, b_stats) =>
  bind (run_mode (bf_path bin_file) non_biphasic (stats_non_biphasic stats))
    (fun '(n_test, n_stats) =>
  Ok (mkStats (stats_total stats) b_stats n_stats,
      tests ++ [mkFileTest (bf_name bin_file) b_test n_test]))).

(** The loop itself: each corpus entry is a file with its biphasic and its
    non-biphasic run; an exception ends it. *)
Definition main_loop (bin_files : list (BinFile * Trial * Trial))
    (acc : Stats * list FileTest) : Outcome (Stats * list FileTest) :=
  for_each test_file bin_files acc.

(** The statistics [main] starts from. *)
Definition initial_stats (total_count : nat) : Stats :=
  mkStats total_count empty_mode_stats empty_mode_stats.

(** [test['...']['status'] in ['SUCCESS']] *)
Definition is_success (status : string) : bool := bool_decide (status = "SUCCESS").

(** The "Compare modes" loop: [(better_biphasic, better_non_biphasic,
    same_result)]. *)
Definition mode_comparison (tests : list FileTest) : nat * nat * nat :=
  foldl (fun '(better_biphasic, better_non_biphasic, same_result) test =>
           let biphasic_success := is_success (status (biphasic_test test)) in
           let non_biphasic_success := is_success (status (non_biphasic_test test)) in
           if biphasic_success && negb non_biphasic_success
           then (S better_biphasic, better_non_biphasic, same_result)
           else if non_biphasic_success && negb biphasic_success
           then (better_biphasic, S better_non_biphasic, same_result)
           else (better_biphasic, better_non_biphasic, S same_result))
        (0, 0, 0) tests.

End Runner.

Import Analyzer Parse FS.

(** ** Reference notions for the analyzer's results *)

Module AnalyzerSpec.

(** The longest prefix of [l] made of bad bytes, and what follows it. *)
Fixpoint bad_prefix (bad : gset Z) (l : list Z) : list Z :=
  match l with
  | [] => []
  | x :: t => if decide (x ∈ bad) then x :: bad_prefix bad t else []
  end.

Fixpoint after_bad_prefix (bad : gset Z) (l : list Z) : list Z :=
  match l with
  | [] => []
  | x :: t => if decide (x ∈ bad) then after_bad_prefix bad t else l
  end.

(** The number of bad bytes of [l]: [sum(1 for byte in l if byte in bad)]. *)
Definition count_bad (bad : gset Z) (l : list Z) : nat :=
  length (filter (fun x => x ∈ bad) l).

(** [RunsOf bad off l seqs]: [l], which starts at offset [off] of the data,
    splits into gaps free of bad bytes and non-empty runs of bad bytes, each
    run followed by a byte that is not bad or by the end of the data, and
    [seqs] lists the runs in order with their offsets. *)
Inductive RunsOf (bad : gset Z) : nat -> list Z -> list Sequence -> Prop :=
  | runs_done off gap :
      Forall (fun x => x ∉ bad) gap ->
      RunsOf bad off gap []
  | runs_more off gap run rest seqs :
      Forall (fun x => x ∉ bad) gap ->
      run ≠ [] ->
      Forall (fun x => x ∈ bad) run ->
      (forall x, head rest = Some x -> x ∉ bad) ->
      RunsOf bad (off + length gap + length run) rest seqs ->
      RunsOf bad off (gap ++ run ++ rest)
        (mkSequence (off + length gap) (length run) run :: seqs).

(** What the outer loop does to [bad_char_positions] over a list of runs:
    the start of each run goes under the run's first byte. *)
Definition record_starts (seqs : list Sequence) (m : gmap Z (list nat)) :
    gmap Z (list nat) :=
  foldl (fun m q =>
           match seq_bytes q with
           | b :: _ => append_position b (seq_start q) m
           | [] => m
           end) m seqs.

(** Two runs in a row are never adjacent: a byte lies between them. *)
Definition separated (seqs : list Sequence) : Prop :=
  forall k q1 q2, seqs !! k = Some q1 -> seqs !! S k = Some q2 ->
    seq_start q1 + seq_length q1 < seq_start q2.

End AnalyzerSpec.

Import AnalyzerSpec.

(** ** Reference notions for the parser, the runner and the batch verifier *)

Module ParseSpec.

(** The byte value a comma-separated part contributes, if any. *)
Definition part_value (part : string) : option Z :=
  match strip part with
  | EmptyString => None
  | p =>
      match int16 p with
      | Some v => if ((0 <=? v)%Z && (v <=? 255)%Z)%bool then Some v else None
      | None => None
      end
  end.

(** The warning a comma-separated part causes, if any: blank parts are
    skipped silently. *)
Definition part_warning (part : string) : option string :=
  match strip part with
  | EmptyString => None
  | p =>
      match int16 p with
      | Some v =>
          if ((0 <=? v)%Z && (v <=? 255)%Z)%bool then None
          else Some (warn_out_of_range p)
      | None => Some (warn_invalid p)
      end
  end.

(** The byte values of the valid parts of [s], and the warnings of its
    invalid parts, in order. *)
Definition valid_values (s : string) : gset Z :=
  list_to_set (omap part_value (split_comma s)).

Definition warnings_of (s : string) : list string :=
  omap part_warning (split_comma s).

End ParseSpec.

Module RunnerSpec.

Import Runner.

(** The classification as the specification words it, on the timed-out
    flag, the exit code, the presence of the output file and the residual
    count: TIMEOUT, then SUCCESS (exit 0, output present, no bad byte left),
    then NULLS_REMAINING (exit 0, output present, bad bytes left), then
    ERROR (exit code other than 0), then FAILED. *)
Definition classification_by_spec (timed_out : bool) (exit_code : option Z)
    (output_present : bool) (residual : Z) : string :=
  if timed_out then "TIMEOUT"
  else if exit_code_is_zero exit_code && output_present && (residual =? 0)%Z
  then "SUCCESS"
  else if exit_code_is_zero exit_code && output_present && (0 <? residual)%Z
  then "NULLS_REMAINING"
  else if negb (exit_code_is_zero exit_code) then "ERROR"
  else "FAILED".

(** The classification claim as the specification states it: for every
    invocation the status is that function of the four observations. *)
Definition classification_claim_as_stated : Prop :=
  forall (fs : FileSystem) (proc : Subprocess) (input_path output_path : string)
         (timeout : Z),
    let r := run_byvalver fs proc input_path output_path timeout in
    status_of r
    = classification_by_spec (timed_out r) (exit_code r)
        (path_exists fs output_path) (nulls_remaining r).

(** The four observations, taken from how the process ends and from the
    disk it leaves rather than from the runner's result: whether it timed
    out, its exit code if it has one, and the number of null bytes of the
    output file (-1 when that file cannot be read). *)
Definition observed_timed_out (proc : Subprocess) : bool :=
  match proc with
  | TimeoutExpired => true
  | _ => false
  end.

Definition observed_exit_code (proc : Subprocess) : option Z :=
  match proc with
  | Completed returncode _ _ => Some returncode
  | _ => None
  end.

Definition observed_residual (fs : FileSystem) (output_path : string) : Z :=
  match read_file fs output_path with
  | Returned data => Z.of_nat (count_bad {[ 0%Z ]} data)
  | Raised _ => (-1)%Z
  end.

(** [open(input_path, 'rb')] followed by [read()] raises nothing. *)
Definition original_readable (fs : FileSystem) (input_path : string) : bool :=
  match read_file fs input_path with
  | Returned _ => true
  | Raised _ => false
  end.

(** The one case in which the status depends on the original: exit code 0
    and an output file without a null byte. *)
Definition clean_output (fs : FileSystem) (proc : Subprocess)
    (output_path : string) : bool :=
  exit_code_is_zero (observed_exit_code proc) && path_exists fs output_path
  && (observed_residual fs output_path =? 0)%Z.

(** The number of tests on which [f] holds. *)
Definition count_where (f : FileTest -> bool) (tests : list FileTest) : nat :=
  length (filter (fun t => f t = true) tests).

Definition biphasic_success (t : FileTest) : bool :=
  is_success (status (biphasic_test t)).

Definition non_biphasic_success (t : FileTest) : bool :=
  is_success (status (non_biphasic_test t)).

(** The transformer ended by a timeout or by a non-zero exit code. *)
Definition timed_out_or_failed (proc : Subprocess) : Prop :=
  match proc with
  | TimeoutExpired => True
  | Completed returncode _ _ => returncode ≠ 0%Z
  | RunFailed _ => False
  end.

(** The claim on the sentinel as the specification states it: for every
    run that timed out or exited with a non-zero code, the orchestrator
    records the two -1 and takes one off the mode's total. *)
Definition sentinel_claim_as_stated : Prop :=
  forall (path : string) (t : Trial) (st : ModeStats),
    timed_out_or_failed (trial_proc t) ->
    exists (test : ModeTest) (st' : ModeStats),
      run_mode path t st = OutputParser.Ok (test, st') /\
      test_nulls_remaining test = (-1)%Z /\
      test_nulls_in_original test = (-1)%Z /\
      total_null_bytes_found st' = (total_null_bytes_found st - 1)%Z.

End RunnerSpec.

Module VerifySpec.

Import Verify.

(** The claim on missing files as the specification states it: the outcome
    of a call with a missing file is never the value of a fail verdict. *)
Definition missing_file_claim_as_stated : Prop :=
  forall (fs : FileSystem) (input_file : string) (output_file : option string)
         (bad_chars : option (gset Z)),
    (path_exists fs input_file = false \/
     exists o, output_file = Some o /\ path_exists fs o = false) ->
    verify_bad_char_elimination fs input_file output_file bad_chars
    ≠ Returned false.

(** The batch claim as the specification states it: with
    [continue_on_error=false], three discovered readable files, the output
    counterparts of the first and third readable and that of the second one
    missing, the second file is recorded as an error, [errors] is 1 and the
    third file is never verified. *)
Definition batch_stop_claim_as_stated : Prop :=
  forall (fs : FileSystem) (f1 f2 f3 output_dir : string)
         (mirror : string -> string) (bad_chars : option (gset Z)),
    output_dir ≠ EmptyString ->
    Forall (fun f => exists d, fs f = RegularFile true d)
      [f1; f2; f3; mirror f1; mirror f3] ->
    path_exists fs (mirror f2) = false ->
    let '(stats, results) :=
      batch_run fs [f1; f2; f3] (Some output_dir) mirror false bad_chars in
    errors stats = 1 /\
    fr_file <$> results = [f1; f2] /\
    fr_status <$> drop 1 results = ["ERROR"].

End VerifySpec.

(** ** Example inputs *)

Module Examples.

(** A disk holding the listed nodes and nothing else. *)
Fixpoint disk (nodes : list (string * Node)) : FileSystem :=
  fun path =>
    match nodes with
    | [] => Absent
    | (p, node) :: rest => if String.eqb path p then node else disk rest path
    end.

(** An input directory with three readable files; the output directory has a
    counterpart for the first and the third only. *)
Definition batch_disk : FileSystem :=
  disk [("in/a.bin", RegularFile true [0; 144; 0]%Z);
        ("in/b.bin", RegularFile true [0; 1]%Z);
        ("in/c.bin", RegularFile true [49; 192]%Z);
        ("out/a.bin", RegularFile true [49; 144]%Z);
        ("out/c.bin", RegularFile true [49; 192]%Z)].

(** [output_path / input_file.relative_to(input_path)] for the directories
    [in] and [out]. *)
Definition batch_mirror (input_file : string) : string :=
  "out/" +:+ String.substring 3 (String.length input_file - 3) input_file.

(** As [batch_disk], where the counterpart of the second file is a
    directory, so that reading it raises. *)
Definition batch_disk_unreadable : FileSystem :=
  disk [("out/b.bin", Directory);
        ("in/a.bin", RegularFile true [0; 144; 0]%Z);
        ("in/b.bin", RegularFile true [0; 1]%Z);
        ("in/c.bin", RegularFile true [49; 192]%Z);
        ("out/a.bin", RegularFile true [49; 144]%Z);
        ("out/c.bin", RegularFile true [49; 192]%Z)].

(** An original [b"\x00\x01"] with a clean and with a dirty processed file. *)
Definition verify_disk : FileSystem :=
  disk [("orig.bin", RegularFile true [0; 1]%Z);
        ("clean.bin", RegularFile true [1; 2]%Z);
        ("dirty.bin", RegularFile true [0; 2]%Z)].

(** The transformer wrote a clean output; the original is still there. *)
Definition runner_disk : FileSystem :=
  disk [("payload.bin", RegularFile true [0; 144]%Z);
        ("tmp_out.bin", RegularFile true [49; 144]%Z)].

(** The same output, but the original can no longer be found. *)
Definition runner_disk_no_original : FileSystem :=
  disk [("tmp_out.bin", RegularFile true [49; 144]%Z)].

(** The transformer left one null byte in its output. *)
Definition runner_disk_nulls_left : FileSystem :=
  disk [("payload.bin", RegularFile true [0; 144]%Z);
        ("tmp_out.bin", RegularFile true [49; 0; 144]%Z)].

(** [str(e)] as Linux words it, for a path that [repr] leaves as it is. *)
Definition linux_strerror (e : OSError) : string :=
  match e with
  | FileNotFoundError path =>
      "[Errno 2] No such file or directory: '" +:+ path +:+ "'"
  | IsADirectoryError path => "[Errno 21] Is a directory: '" +:+ path +:+ "'"
  | PermissionError path => "[Errno 13] Permission denied: '" +:+ path +:+ "'"
  end.

(** A corpus of two files: on the first the biphasic run succeeds and the
    other run leaves a null byte, on the second both runs succeed. *)
Definition corpus_two_files :
    list (Runner.BinFile * Runner.Trial * Runner.Trial) :=
  let clean :=
    Runner.mkTrial runner_disk (Runner.Completed 0 "" "") "tmp_out.bin"
      linux_strerror in
  let nulls_left :=
    Runner.mkTrial runner_disk_nulls_left (Runner.Completed 0 "" "")
      "tmp_out.bin" linux_strerror in
  [(Runner.mkBinFile "first.bin" "payload.bin" 2, clean, nulls_left);
   (Runner.mkBinFile "second.bin" "payload.bin" 2, clean, clean)].

(** A run that timed out and a run that exited with code 2. *)
Definition trial_timeout : Runner.Trial :=
  Runner.mkTrial runner_disk Runner.TimeoutExpired "tmp_out.bin"
    linux_strerror.

Definition trial_exit_2 : Runner.Trial :=
  Runner.mkTrial runner_disk (Runner.Completed 2 "" "bad input") "tmp_out.bin"
    linux_strerror.

(** A run that exited with code 2 after printing a size line that [int]
    does not accept. *)
Definition trial_exit_2_with_units : Runner.Trial :=
  Runner.mkTrial runner_disk
    (Runner.Completed 2 "Original shellcode size: 10 bytes" "bad input")
    "tmp_out.bin" linux_strerror.

End Examples.

(** ** Display of the bad-character set and command line ([verify_denulled.py]) *)

Module Cli.

Import Verify.

(** [f"{b:02x}"]: lowercase hexadecimal, a minus sign for a negative number,
    zero-padded to two characters (the sign counts). *)
Definition format_02x (b : Z) : string :=
  match b with
  | Z0 => "00"
  | Zpos p =>
      let digits := HexString.Raw.of_pos p "" in
      if String.length digits <? 2 then "0" +:+ digits else digits
  | Zneg p => "-" +:+ HexString.Raw.of_pos p ""
  end.

(** [','.join([f"0x{b:02x}" for b in sorted(bad_chars)])] *)
Definition bad_chars_str (bad_chars : gset Z) : string :=
  String.concat ","
    ((fun b => "0x" +:+ format_02x b) <$> merge_sort Z.le (elements bad_chars)).

(** [batch_verify_null_elimination] *)
Definition batch_verify_null_elimination (fs : FileSystem)
    (matched : list string) (output_dir : option string)
    (mirror : string -> string) (continue_on_error : bool) : BatchStats :=
  batch_verify_bad_char_elimination fs matched output_dir mirror
    continue_on_error (Some {[ 0%Z ]}).

(** The namespace returned by [parser.parse_args()]. *)
Record Args := mkArgs {
  arg_input_path : string;
  arg_output_path : option string;
  arg_output_path_alt : option string;
  arg_recursive : bool;
  arg_pattern : string;
  arg_continue_on_error : bool;
  arg_verbose : bool;
  arg_bad_chars : string
}.

(** [a or b] on optional strings: [a] when it is truthy, else [b]. *)
Definition or_else (a b : option string) : option string :=
  match a with
  | None | Some EmptyString => b
  | Some _ => a
  end.

(** [main] after argument parsing: the exit status passed to [sys.exit], or
    the exception that escapes.  [glob recursive pattern] is what
    [rglob(pattern)] or [glob(pattern)] yields under the input directory. *)
Definition main (fs : FileSystem) (glob : bool -> string -> list string)
    (mirror : string -> string) (args : Args) : Result Z :=
  let output_path := or_else (arg_output_path args) (arg_output_path_alt args) in
  let bad_chars := fst (parse_bad_chars (arg_bad_chars args)) in
  match fs (arg_input_path args) with
  | Directory =>
      let success :=
        batch_verify_bad_char_elimination fs
          (glob (arg_recursive args) (arg_pattern args)) output_path mirror
          (arg_continue_on_error args) (Some bad_chars) in
      let total_errors := errors success in
      Returned (if total_errors =? 0 then 0%Z else 1%Z)
  | _ =>
      match verify_bad_char_elimination fs (arg_input_path args) output_path
              (Some bad_chars) with
      | Returned success => Returned (if success then 0%Z else 1%Z)
      | Raised e => Raised e
      end
  end.

End Cli.

Module OutputSpec.

Import OutputParser.

(** [a], a line break, [b]. *)
Definition lines2 (a b : string) : string := a +:+ String newline b.

(** What the transformer typically writes on stdout and on stderr. *)
Definition sample_output : string :=
  lines2 "Original shellcode size: 10" "Modified shellcode size: 14".

Definition sample_error : string :=
  lines2 "[DISASM] Disassembled 5 instructions"
    (lines2 "[TRACE] Using strategy 'mov_xor' for insn 1 has_null=1"
       (lines2 "[TRACE] Using strategy 'mov_xor' for insn 3 has_null=1"
          (lines2 "[WARNING] odd opcode  " "All nulls Eliminated"))).

Definition sample_stats : OutputStats :=
  mkOutputStats 10 14 5 2 ["mov_xor"] ["odd opcode"] true.

(** Output and stderr without any of the markers the parser converts to a
    number. *)
Definition plain_output : string := lines2 "byvalver 3.0" "done".

Definition plain_error : string :=
  lines2 "[TRACE] Using strategy 'push_pop'" "[WARNING] nothing to do".

(** No name twice in either list, no warning longer than 100 characters. *)
Definition lists_well_formed (stats : OutputStats) : Prop :=
  NoDup (strategies_applied stats) /\ NoDup (warnings stats) /\
  Forall (fun w => String.length w <= 100) (warnings stats).

(** The test of the last [if] of the stderr loop. *)
Definition mentions_elimination (line : string) : bool :=
  contains "eliminated" (lower line) || contains "transformed" (lower line).

(** A line that makes the parser call [int]. *)
Definition has_size_marker (line : string) : bool :=
  contains "Original shellcode size:" line
  || contains "Modified shellcode size:" line.

Definition has_disasm_marker (line : string) : bool :=
  contains "[DISASM] Disassembled" line.

(** The number of lines of [text] that contain [needle]. *)
Definition count_lines (needle text : string) : nat :=
  length (filter (fun line => contains needle line = true)
            (split_char newline text)).

End OutputSpec.

Module CliSpec.

Import Cli ParseSpec.

(** No comma among the characters of [s]. *)
Fixpoint comma_free (s : string) : bool :=
  match s with
  | EmptyString => true
  | String c rest => negb (Ascii.eqb c ","%char) && comma_free rest
  end.

(** The text printed for one byte value parses back to that value, without
    a warning, and holds no comma. *)
Definition prints_and_parses_back (v : Z) : bool :=
  comma_free ("0x" +:+ format_02x v)
  && bool_decide (part_value ("0x" +:+ format_02x v) = Some v)
  && bool_decide (part_warning ("0x" +:+ format_02x v) = None).

End CliSpec.

Module BatchSpec.

Import Verify.

(** The number of results recorded with the given status. *)
Definition count_status (status : string) (results : list FileResult) : nat :=
  length (filter (fun r => fr_status r = status) results).

(** The counters agree with the list of results. *)
Definition counters_match (stats : BatchStats) (results : list FileResult) :
    Prop :=
  successful stats = count_status "SUCCESS" results /\
  failed stats = count_status "FAILED" results /\
  errors stats = count_status "ERROR" results.


(** The output file the batch verifier pairs with an input file. *)
Definition counterpart (output_dir : option string) (mirror : string -> string)
    (input_file : string) : option string :=
  match output_dir with
  | None | Some EmptyString => None
  | Some _ => Some (mirror input_file)
  end.

(** What the loop body records for one file. *)
Definition record_of (fs : FileSystem) (output_mapping : gmap string string)
    (bad_chars : gset Z) (input_file : string) : FileResult :=
  let output_file := output_mapping !! input_file in
  match verify_bad_char_elimination fs input_file output_file (Some bad_chars) with
  | Returned true => mkFileResult input_file output_file true "SUCCESS" None
  | Returned false => mkFileResult input_file output_file false "FAILED" None
  | Raised e => mkFileResult input_file output_file false "ERROR" (Some e)
  end.

(** The files the loop gets to: all of them, or those up to the first one
    whose verification raises when [continue_on_error] is off. *)
Fixpoint processed (fs : FileSystem) (output_mapping : gmap string string)
    (continue_on_error : bool) (bad_chars : gset Z)
    (input_files : list string) : list string :=
  match input_files with
  | [] => []
  | input_file :: rest =>
      match verify_bad_char_elimination fs input_file
              (output_mapping !! input_file) (Some bad_chars) with
      | Raised _ =>
          if continue_on_error
          then input_file ::
                 processed fs output_mapping continue_on_error bad_chars rest
          else [input_file]
      | Returned _ =>
          input_file ::
            processed fs output_mapping continue_on_error bad_chars rest
      end
  end.

(** The counters after recording [new] more results. *)
Definition add_counts (stats : BatchStats) (new : list FileResult) : BatchStats :=
  mkBatchStats (total stats)
    (successful stats + count_status "SUCCESS" new)
    (failed stats + count_status "FAILED" new)
    (errors stats + count_status "ERROR" new).

(** The files the batch verifier works on. *)
Definition discovered (fs : FileSystem) (matched : list string) : list string :=
  filter (fun p => is_file fs p = true) matched.

End BatchSpec.

Module CliExamples.

Import Cli Examples.


Definition cli_glob (recursive : bool) (pattern : string) : list string :=
  ["in/a.bin"; "in/b.bin"; "in/c.bin"].


(** [verify_denulled.py orig.bin dirty.bin --bad-chars 00,0a] *)
Definition cli_file_args : Args :=
  mkArgs "orig.bin" (Some "dirty.bin") None false "*.bin" false false "00,0a".

End CliExamples.

Module OrchestratorSpec.

Import OutputParser OutputSpec Runner.

(** The number of tests whose run in the given mode ended with [s]. *)
Definition count_mode_status (mode : FileTest -> ModeTest) (s : string)
    (tests : list FileTest) : Z :=
  Z.of_nat (length (filter (fun t => status (mode t) = s) tests)).

(** The sum of the [nulls_remaining] entries of the given mode. *)
Definition sum_nulls_remaining (mode : FileTest -> ModeTest)
    (tests : list FileTest) : Z :=
  foldr Z.add 0%Z ((fun t => test_nulls_remaining (mode t)) <$> tests).

(** 1 when the status [x] is [s], else 0. *)
Definition hit (s x : string) : Z := if bool_decide (x = s) then 1%Z else 0%Z.

(** [stats[key][strategy] = stats[key].get(strategy, 0) + 1] for each
    strategy of the list. *)
Definition count_strategies (strategies : list string) (m : gmap string Z) :
    gmap string Z :=
  foldl (fun m strategy => <[strategy := (default 0 (m !! strategy) + 1)%Z]> m)
    m strategies.

(** The five status strings. *)
Definition known_status (s : string) : Prop :=
  s = "TIMEOUT" \/ s = "SUCCESS" \/ s = "NULLS_REMAINING" \/ s = "ERROR"
  \/ s = "FAILED".

(** The counters of a mode agree with the recorded tests of that mode. *)
Definition mode_counters_match (mode : FileTest -> ModeTest) (ms : ModeStats)
    (tests : list FileTest) : Prop :=
  successful ms = count_mode_status mode "SUCCESS" tests /\
  failed ms
  = (count_mode_status mode "NULLS_REMAINING" tests
     + count_mode_status mode "FAILED" tests)%Z /\
  timed_out_count ms = count_mode_status mode "TIMEOUT" tests /\
  errors ms = count_mode_status mode "ERROR" tests /\
  files_with_nulls ms = count_mode_status mode "NULLS_REMAINING" tests /\
  total_null_bytes_found ms = sum_nulls_remaining mode tests /\
  Forall (fun t => known_status (status (mode t))) tests.

Definition entry_path (entry : BinFile * Trial * Trial) : string :=
  bf_path (fst (fst entry)).

Definition biphasic_trial (entry : BinFile * Trial * Trial) : Trial :=
  snd (fst entry).

Definition non_biphasic_trial (entry : BinFile * Trial * Trial) : Trial :=
  snd entry.

(** What the runner returns for a run, and what the parser makes of the
    text captured from it. *)
Definition trial_result (path : string) (t : Trial) : RunResult :=
  run_byvalver (trial_fs t) (trial_proc t) path (trial_output_path t) 120.

Definition trial_parse (path : string) (t : Trial) : Outcome OutputStats :=
  parse_byvalver_output (output (trial_result path t))
    (error_string (trial_strerror t) (error (trial_result path t))).

(** The parser raises nothing on the text captured from the run. *)
Definition trial_parses (path : string) (t : Trial) : bool :=
  match trial_parse path t with
  | Ok _ => true
  | Raise _ => false
  end.

(** The parser raises nothing on any text captured from the corpus. *)
Definition corpus_parses (bin_files : list (BinFile * Trial * Trial)) : bool :=
  forallb (fun entry =>
             trial_parses (entry_path entry) (biphasic_trial entry)
             && trial_parses (entry_path entry) (non_biphasic_trial entry))
    bin_files.

(** The record of a run, read off the runner's result. *)
Definition mode_test_of (path : string) (t : Trial) : ModeTest :=
  let r := trial_result path t in
  mkModeTest (status_of r) (exit_code r) (timed_out r) (nulls_remaining r)
    (nulls_in_original r).

Definition file_test_of (entry : BinFile * Trial * Trial) : FileTest :=
  mkFileTest (bf_name (fst (fst entry)))
    (mode_test_of (entry_path entry) (biphasic_trial entry))
    (mode_test_of (entry_path entry) (non_biphasic_trial entry)).

(** The run's captured text names the strategy. *)
Definition applies (strategy path : string) (t : Trial) : bool :=
  match trial_parse path t with
  | Ok parsed => bool_decide (strategy ∈ strategies_applied parsed)
  | Raise _ => false
  end.

(** The number of corpus entries whose run in the chosen mode applied the
    strategy. *)
Definition files_applying (pick : BinFile * Trial * Trial -> Trial)
    (strategy : string) (bin_files : list (BinFile * Trial * Trial)) : Z :=
  Z.of_nat
    (length
       (filter (fun entry =>
                  applies strategy (entry_path entry) (pick entry) = true)
          bin_files)).

(** A corpus of two files whose runs report strategies on stderr, one of
    them twice in the same run. *)
Definition corpus_with_strategies : list (BinFile * Trial * Trial) :=
  let run stderr :=
    mkTrial Examples.runner_disk (Completed 0 "" stderr) "tmp_out.bin"
      Examples.linux_strerror in
  let mov_xor := "[TRACE] Using strategy 'mov_xor'" in
  let push_pop := "[TRACE] Using strategy 'push_pop'" in
  [(mkBinFile "first.bin" "payload.bin" 2,
    run (lines2 mov_xor (lines2 push_pop mov_xor)), run mov_xor);
   (mkBinFile "second.bin" "payload.bin" 2, run mov_xor, run "")].

End OrchestratorSpec.

(** ** The analyzer's loops *)

Section AnalyzerLoops.

Variable bad : gset Z.

Lemma bad_prefix_split (l : list Z) :
  l = bad_prefix bad l ++ after_bad_prefix bad l.
Proof.
  induction l as [|x t IH]; simpl; [done|].
  case_decide; simpl; [by f_equal|done].
Qed.

Lemma bad_prefix_all_bad (l : list Z) :
  Forall (fun x => x ∈ bad) (bad_prefix bad l).
Proof.
  induction l as [|x t IH]; simpl; [constructor|].
  case_decide; [by constructor|constructor].
Qed.

Lemma after_bad_prefix_head (l : list Z) x :
  head (after_bad_prefix bad l) = Some x -> x ∉ bad.
Proof.
  induction l as [|y t IH]; simpl; [done|].
  case_decide; [done|]. simpl. by intros [= ->].
Qed.

(** The inner loop, started at the beginning of [suf], consumes exactly the
    bad prefix of [suf]; the fuel it is given in the source is enough. *)
Lemma inner_loop_spec (fuel : nat) :
  forall (pre suf acc : list Z),
    length suf <= fuel ->
    inner_loop fuel (pre ++ suf) bad (length pre) acc
    = (length pre + length (bad_prefix bad suf), acc ++ bad_prefix bad suf).
Proof.
  induction fuel as [|fuel IH]; intros pre suf acc Hfuel.
  - destruct suf; [|simpl in Hfuel; lia].
    simpl. by rewrite Nat.add_0_r, app_nil_r.
  - destruct suf as [|x t]; simpl.
    + rewrite lookup_ge_None_2 by (rewrite app_nil_r; lia).
      by rewrite Nat.add_0_r, app_nil_r.
    + rewrite list_lookup_middle by done.
      case_decide.
      * replace (pre ++ x :: t) with ((pre ++ [x]) ++ t) by by rewrite <- app_assoc.
        replace (S (length pre)) with (length (pre ++ [x]))
          by (rewrite length_app; simpl; lia).
        rewrite IH by (simpl in Hfuel; lia).
        rewrite length_app, <- app_assoc. simpl. f_equal. lia.
      * by rewrite Nat.add_0_r, app_nil_r.
Qed.

(** A gap byte in front of a decomposition extends its first gap. *)
Lemma RunsOf_gap_cons off x l seqs :
  x ∉ bad -> RunsOf bad (S off) l seqs -> RunsOf bad off (x :: l) seqs.
Proof.
  intros Hx H.
  inversion H as [off' gap Hgap
                 |off' gap run rest seqs' Hgap Hne Hrun Hhd Hrest]; subst.
  - constructor. by constructor.
  - change (x :: gap ++ run ++ rest) with ((x :: gap) ++ run ++ rest).
    replace (S off + length gap) with (off + length (x :: gap)) in *
      by (simpl; lia).
    constructor; [by constructor|done..].
Qed.

(** The outer loop from offset [length pre] on: it ends at the end of the
    data, appends the runs of the remaining bytes, adds one to the count per
    run and records one position per run. *)
Lemma outer_loop_spec (fuel : nat) :
  forall (pre suf : list Z) (st : LoopState),
    length suf <= fuel ->
    ls_i st = length pre ->
    exists seqs,
      RunsOf bad (length pre) suf seqs /\
      outer_loop fuel (pre ++ suf) bad st
      = mkLoopState (length (pre ++ suf)) (ls_count st + length seqs)
          (record_starts seqs (ls_positions st)) (ls_sequences st ++ seqs).
Proof.
  induction fuel as [|fuel IH]; intros pre suf st Hfuel Hi.
  - destruct suf; [|simpl in Hfuel; lia].
    exists []. split; [by constructor|].
    simpl. rewrite !app_nil_r, Nat.add_0_r, <- Hi. by destruct st.
  - destruct suf as [|x t].
    + exists []. split; [by constructor|].
      simpl. rewrite Hi, lookup_ge_None_2 by (rewrite app_nil_r; lia).
      rewrite !app_nil_r, Nat.add_0_r, <- Hi. by destruct st.
    + cbn [outer_loop]. rewrite Hi, list_lookup_middle by done.
      case_decide as Hx.
      * rewrite inner_loop_spec by (rewrite length_app; lia).
        rewrite app_nil_l.
        set (run := bad_prefix bad (x :: t)).
        set (rest := after_bad_prefix bad (x :: t)).
        assert (Hsplit : x :: t = run ++ rest) by apply bad_prefix_split.
        assert (Hrun : run = x :: bad_prefix bad t).
        { unfold run. simpl. by rewrite decide_True. }
        assert (Hlen : length (x :: t) = length run + length rest)
          by (by rewrite Hsplit at 1; rewrite length_app).
        destruct (IH (pre ++ run) rest
                    (mkLoopState (length pre + length run) (S (ls_count st))
                       (append_position x (length pre) (ls_positions st))
                       (ls_sequences st ++
                          [mkSequence (length pre)
                             (length pre + length run - length pre) run])))
          as (seqs & Hruns & Heq).
        { rewrite Hrun in Hlen. simpl in *. lia. }
        { simpl. by rewrite length_app. }
        exists (mkSequence (length pre) (length run) run :: seqs). split.
        -- rewrite Hsplit.
           replace (length pre) with (length pre + length (@nil Z)) at 2
             by (simpl; lia).
           change (run ++ rest) with ([] ++ run ++ rest).
           constructor; [constructor| by rewrite Hrun | apply bad_prefix_all_bad
                        | apply after_bad_prefix_head |].
           simpl. rewrite Nat.add_0_r. by rewrite length_app in Hruns.
        -- rewrite Hsplit, app_assoc, Heq. simpl.
           replace (length pre + length run - length pre) with (length run) by lia.
           f_equal; [lia| |by rewrite <- app_assoc].
           unfold record_starts at 2. simpl. by rewrite Hrun.
      * destruct (IH (pre ++ [x]) t
                    (mkLoopState (S (length pre)) (ls_count st)
                       (ls_positions st) (ls_sequences st)))
          as (seqs & Hruns & Heq).
        { simpl in Hfuel. lia. }
        { simpl. rewrite length_app. simpl. lia. }
        exists seqs. split.
        -- apply RunsOf_gap_cons; [done|].
           rewrite length_app in Hruns. simpl in Hruns.
           by replace (S (length pre)) with (length pre + 1) by lia.
        -- replace (pre ++ x :: t) with ((pre ++ [x]) ++ t)
             by by rewrite <- app_assoc.
           by rewrite Heq.
Qed.

(** Once [i] has reached the end of the data the loop is over: fuel that is
    left is not used. *)
Lemma outer_loop_exit (fuel : nat) (data : list Z) (st : LoopState) :
  length data <= ls_i st -> outer_loop fuel data bad st = st.
Proof.
  intros Hi. destruct fuel as [|fuel]; [done|].
  simpl. by rewrite lookup_ge_None_2.
Qed.

(** With the fuel the analyzer gives it, the loop runs to its exit. *)
Lemma outer_loop_finishes (data : list Z) (st : LoopState) :
  ls_i st = 0 ->
  ls_i (outer_loop (length data) data bad st) = length data.
Proof.
  intros Hi.
  destruct (outer_loop_spec (length data) [] data st) as (seqs & _ & Heq);
    [done..|].
  simpl in Heq. by rewrite Heq.
Qed.

End AnalyzerLoops.

(** ** Consequences of a run decomposition *)

Section RunFacts.

Variable bad : gset Z.

Lemma count_bad_app (l1 l2 : list Z) :
  count_bad bad (l1 ++ l2) = count_bad bad l1 + count_bad bad l2.
Proof. unfold count_bad. by rewrite filter_app, length_app. Qed.

Lemma count_bad_gap (gap : list Z) :
  Forall (fun x => x ∉ bad) gap -> count_bad bad gap = 0.
Proof.
  unfold count_bad. induction 1 as [|x l Hx _ IH]; [done|].
  by rewrite filter_cons_False.
Qed.

Lemma count_bad_run (run : list Z) :
  Forall (fun x => x ∈ bad) run -> count_bad bad run = length run.
Proof.
  unfold count_bad. induction 1 as [|x l Hx _ IH]; [done|].
  rewrite filter_cons_True by done. simpl. by rewrite IH.
Qed.

Lemma count_bad_zero (l : list Z) :
  count_bad bad l = 0 <-> Forall (fun x => x ∉ bad) l.
Proof.
  split; [|apply count_bad_gap].
  unfold count_bad. induction l as [|x l IH]; [constructor|].
  destruct (decide (x ∈ bad)).
  - rewrite filter_cons_True by done. simpl. lia.
  - rewrite filter_cons_False by done. intros. constructor; auto.
Qed.

(** The run lengths add up to the number of bad bytes. *)
Lemma RunsOf_sum_lengths off l seqs :
  RunsOf bad off l seqs ->
  sum_list (seq_length <$> seqs) = count_bad bad l.
Proof.
  induction 1 as [off gap Hgap|off gap run rest seqs Hgap Hne Hrun Hhd _ IH].
  - by rewrite count_bad_gap.
  - rewrite !count_bad_app, count_bad_gap, count_bad_run by done.
    by rewrite <- IH.
Qed.

(** There are no more runs than bad bytes. *)
Lemma RunsOf_length_le off l seqs :
  RunsOf bad off l seqs -> length seqs <= count_bad bad l.
Proof.
  induction 1 as [off gap Hgap|off gap run rest seqs Hgap Hne Hrun Hhd _ IH].
  - simpl. lia.
  - rewrite !count_bad_app, count_bad_gap, count_bad_run by done.
    destruct run; [done|]. simpl in *. lia.
Qed.

(** No run at all exactly when no byte is bad. *)
Lemma RunsOf_nil_iff off l seqs :
  RunsOf bad off l seqs -> seqs = [] <-> Forall (fun x => x ∉ bad) l.
Proof.
  intros H. split.
  - intros ->. by inversion H.
  - intros Hall. destruct H as [|off gap run rest seqs Hgap Hne Hrun]; [done|].
    exfalso. destruct run as [|x run]; [done|].
    apply Forall_app in Hall as [_ Hall].
    apply Forall_app in Hall as [Hall _].
    inversion Hall; subst. inversion Hrun; subst. done.
Qed.

Lemma RunsOf_start_ge off l seqs :
  RunsOf bad off l seqs -> forall q, q ∈ seqs -> off <= seq_start q.
Proof.
  induction 1 as [off gap Hgap|off gap run rest seqs Hgap Hne Hrun Hhd _ IH];
    intros q Hq.
  - by apply elem_of_nil in Hq.
  - apply elem_of_cons in Hq as [->|Hq]; simpl; [lia|].
    specialize (IH q Hq). lia.
Qed.

(** After a byte that is not bad, every run starts strictly later. *)
Lemma RunsOf_start_gt off l seqs :
  RunsOf bad off l seqs ->
  (forall x, head l = Some x -> x ∉ bad) ->
  forall q, q ∈ seqs -> off < seq_start q.
Proof.
  intros H Hhead q Hq.
  destruct H as [off gap Hgap|off gap run rest seqs Hgap Hne Hrun Hhd Hrest].
  - by apply elem_of_nil in Hq.
  - assert (Hgap_ne : 0 < length gap).
    { destruct gap as [|g gap]; [|simpl; lia].
      destruct run as [|x run]; [done|].
      exfalso. apply (Hhead x); [done|]. by inversion Hrun. }
    apply elem_of_cons in Hq as [->|Hq]; simpl; [lia|].
    pose proof (RunsOf_start_ge _ _ _ Hrest q Hq). lia.
Qed.

(** Two runs in a row are separated by at least one byte. *)
Lemma RunsOf_separated off l seqs :
  RunsOf bad off l seqs -> separated seqs.
Proof.
  induction 1 as [off gap Hgap|off gap run rest seqs Hgap Hne Hrun Hhd Hrest IH];
    intros k q1 q2 H1 H2.
  - done.
  - destruct k as [|k]; simpl in H1, H2.
    + injection H1 as <-. simpl.
      apply (RunsOf_start_gt _ _ _ Hrest Hhd).
      eapply list_elem_of_lookup_2; eauto.
    + by apply (IH k).
Qed.

(** Every reported run is a span of the data, made of bad bytes only, that
    cannot be extended to the left or to the right. *)
Lemma RunsOf_maximal off l seqs :
  RunsOf bad off l seqs ->
  forall q, q ∈ seqs ->
    off <= seq_start q /\
    0 < seq_length q /\
    seq_length q = length (seq_bytes q) /\
    Forall (fun x => x ∈ bad) (seq_bytes q) /\
    take (seq_length q) (drop (seq_start q - off) l) = seq_bytes q /\
    (forall x, l !! (seq_start q - off + seq_length q) = Some x -> x ∉ bad) /\
    (forall p x, seq_start q - off = S p -> l !! p = Some x -> x ∉ bad).
Proof.
  induction 1 as [off gap Hgap|off gap run rest seqs Hgap Hne Hrun Hhd Hrest IH];
    intros q Hq.
  - by apply elem_of_nil in Hq.
  - apply elem_of_cons in Hq as [->|Hq]; simpl.
    + replace (off + length gap - off) with (length gap) by lia.
      split; [lia|]. split; [destruct run; [done|simpl; lia]|].
      split; [done|]. split; [done|].
      split; [by rewrite drop_app_length, take_app_length|].
      split.
      * intros x. rewrite lookup_app_r by lia.
        rewrite lookup_app_r by lia.
        replace (length gap + length run - length gap - length run) with 0 by lia.
        rewrite <- head_lookup. apply Hhd.
      * intros p x Hp. rewrite lookup_app_l by lia. intros Hx.
        eapply Forall_lookup_1 in Hgap; eauto.
    + destruct (IH q Hq) as (Hge & Hpos & Hlen & Hall & Htake & Hright & Hleft).
      pose proof (RunsOf_start_gt _ _ _ Hrest Hhd q Hq) as Hgt.
      split; [lia|]. split; [done|]. split; [done|]. split; [done|].
      replace (seq_start q - off)
        with (length gap + (length run + (seq_start q - (off + length gap + length run))))
        by lia.
      split; [|split].
      * by rewrite <- drop_drop, drop_app_length, <- drop_drop, drop_app_length.
      * intros x. rewrite <- !Nat.add_assoc.
        rewrite lookup_app_r by lia.
        replace (length gap + _ - length gap)
          with (length run + (seq_start q - (off + length gap + length run)
                              + seq_length q)) by lia.
        rewrite lookup_app_r by lia.
        replace (length run + _ - length run)
          with (seq_start q - (off + length gap + length run) + seq_length q) by lia.
        apply Hright.
      * intros p x Hp.
        destruct (seq_start q - (off + length gap + length run)) as [|p'] eqn:Hd;
          [lia|].
        assert (p = length gap + (length run + p')) as -> by lia.
        rewrite lookup_app_r by lia.
        replace (length gap + _ - length gap) with (length run + p') by lia.
        rewrite lookup_app_r by lia.
        replace (length run + p' - length run) with p' by lia.
        by apply Hleft.
Qed.

(** Every bad byte of the data lies inside one of the reported runs. *)
Lemma RunsOf_covers off l seqs :
  RunsOf bad off l seqs ->
  forall i x, l !! i = Some x -> x ∈ bad ->
    exists q, q ∈ seqs /\
      seq_start q <= off + i < seq_start q + seq_length q.
Proof.
  induction 1 as [off gap Hgap|off gap run rest seqs Hgap Hne Hrun Hhd Hrest IH];
    intros i x Hi Hx.
  - exfalso. eapply Forall_lookup_1 in Hgap; eauto.
  - destruct (decide (i < length gap)) as [Hlt|Hge].
    { exfalso. rewrite lookup_app_l in Hi by done.
      eapply Forall_lookup_1 in Hgap; eauto. }
    rewrite lookup_app_r in Hi by lia.
    destruct (decide (i - length gap < length run)) as [Hlt|Hge'].
    + eexists. split; [apply elem_of_cons; by left|]. simpl. lia.
    + rewrite lookup_app_r in Hi by lia.
      destruct (IH _ _ Hi Hx) as (q & Hq & Hrange).
      exists q. split; [apply elem_of_cons; by right|]. lia.
Qed.

End RunFacts.

(** ** What the analyzer returns *)

Section AnalyzerResults.

Implicit Types (data : list Z) (bad_chars : option (gset Z)).

(** The analyzer's result, field by field, in terms of the runs of the data:
    [bad_char_count] is the number of runs. *)
Lemma analyze_spec data bad_chars :
  exists seqs,
    RunsOf (bad_chars_or_default bad_chars) 0 data seqs /\
    analyze_shellcode_for_bad_chars data bad_chars
    = mkByteAnalysis (length data) (length seqs)
        (record_starts seqs (init_positions (bad_chars_or_default bad_chars)))
        seqs (max_default0 (seq_length <$> seqs))
        (bad_chars_or_default bad_chars).
Proof.
  unfold analyze_shellcode_for_bad_chars.
  destruct (outer_loop_spec (bad_chars_or_default bad_chars) (length data) [] data
              (mkLoopState 0 0 (init_positions (bad_chars_or_default bad_chars)) []))
    as (seqs & Hruns & Heq); [done..|].
  exists seqs. split; [done|].
  simpl in Heq. by rewrite Heq.
Qed.

Lemma analyze_runs data bad_chars :
  RunsOf (bad_chars_or_default bad_chars) 0 data
    (bad_char_sequences (analyze_shellcode_for_bad_chars data bad_chars)).
Proof. destruct (analyze_spec data bad_chars) as (seqs & H & ->). done. Qed.

(** [bad_char_count] goes up once per run, not once per bad byte. *)
Lemma analyze_count_is_number_of_runs data bad_chars :
  bad_char_count (analyze_shellcode_for_bad_chars data bad_chars)
  = length (bad_char_sequences (analyze_shellcode_for_bad_chars data bad_chars)).
Proof. destruct (analyze_spec data bad_chars) as (seqs & H & ->). done. Qed.

Lemma analyze_count_le data bad_chars :
  bad_char_count (analyze_shellcode_for_bad_chars data bad_chars)
  <= count_bad (bad_chars_or_default bad_chars) data.
Proof.
  destruct (analyze_spec data bad_chars) as (seqs & H & ->). simpl.
  by eapply RunsOf_length_le.
Qed.

(** [bad_char_count] is zero exactly when the data has no bad byte. *)
Lemma analyze_count_zero_iff data bad_chars :
  bad_char_count (analyze_shellcode_for_bad_chars data bad_chars) = 0
  <-> count_bad (bad_chars_or_default bad_chars) data = 0.
Proof.
  destruct (analyze_spec data bad_chars) as (seqs & H & ->). simpl.
  rewrite count_bad_zero, <- (RunsOf_nil_iff _ _ _ _ H).
  by destruct seqs.
Qed.

(** The run lengths add up to the number of bad bytes of the data. *)
Lemma analyze_sum_of_run_lengths data bad_chars :
  sum_list (seq_length <$>
              bad_char_sequences (analyze_shellcode_for_bad_chars data bad_chars))
  = count_bad (bad_chars_or_default bad_chars) data.
Proof. eapply RunsOf_sum_lengths, analyze_runs. Qed.

(** No two reported runs are adjacent. *)
Lemma analyze_runs_separated data bad_chars :
  separated (bad_char_sequences (analyze_shellcode_for_bad_chars data bad_chars)).
Proof. eapply RunsOf_separated, analyze_runs. Qed.

(** Each reported run is a maximal span of bad bytes of the data. *)
Lemma analyze_runs_maximal data bad_chars q :
  q ∈ bad_char_sequences (analyze_shellcode_for_bad_chars data bad_chars) ->
  0 < seq_length q /\
  seq_bytes q = take (seq_length q) (drop (seq_start q) data) /\
  Forall (fun x => x ∈ bad_chars_or_default bad_chars) (seq_bytes q) /\
  (forall x, data !! (seq_start q + seq_length q) = Some x ->
     x ∉ bad_chars_or_default bad_chars) /\
  (forall p x, seq_start q = S p -> data !! p = Some x ->
     x ∉ bad_chars_or_default bad_chars).
Proof.
  intros Hq.
  destruct (RunsOf_maximal _ _ _ _ (analyze_runs data bad_chars) q Hq)
    as (_ & Hpos & _ & Hall & Htake & Hright & Hleft).
  rewrite Nat.sub_0_r in *. done.
Qed.

(** Each bad byte of the data lies in a reported run. *)
Lemma analyze_runs_cover data bad_chars i x :
  data !! i = Some x -> x ∈ bad_chars_or_default bad_chars ->
  exists q, q ∈ bad_char_sequences (analyze_shellcode_for_bad_chars data bad_chars)
    /\ seq_start q <= i < seq_start q + seq_length q.
Proof.
  intros Hi Hx.
  destruct (RunsOf_covers _ _ _ _ (analyze_runs data bad_chars) i x Hi Hx)
    as (q & Hq & Hr).
  by exists q.
Qed.

(** [max(..., default=0)] is an upper bound, is attained on a non-empty list
    and is 0 on the empty one. *)
Lemma max_default0_ge (l : list nat) n : n ∈ l -> n <= max_default0 l.
Proof.
  induction l as [|m l IH]; intros H; [by apply elem_of_nil in H|].
  apply elem_of_cons in H as [->|H]; simpl; [lia|].
  specialize (IH H). lia.
Qed.

Lemma max_default0_attained (l : list nat) : l ≠ [] -> max_default0 l ∈ l.
Proof.
  induction l as [|m l IH]; [done|]. intros _. simpl.
  destruct l as [|m' l'].
  - simpl. rewrite Nat.max_0_r. apply elem_of_cons. by left.
  - destruct (Nat.max_spec m (max_default0 (m' :: l'))) as [[_ ->]|[_ ->]].
    + apply elem_of_cons. right. by apply IH.
    + apply elem_of_cons. by left.
Qed.

Lemma analyze_max_consecutive data bad_chars :
  let a := analyze_shellcode_for_bad_chars data bad_chars in
  (forall q, q ∈ bad_char_sequences a ->
     seq_length q <= max_consecutive_bad_chars a) /\
  (bad_char_sequences a = [] -> max_consecutive_bad_chars a = 0) /\
  (bad_char_sequences a ≠ [] ->
     exists q, q ∈ bad_char_sequences a /\
       seq_length q = max_consecutive_bad_chars a).
Proof.
  cbv zeta. destruct (analyze_spec data bad_chars) as (seqs & H & ->). simpl.
  split; [|split].
  - intros q Hq. apply max_default0_ge. apply list_elem_of_fmap. eauto.
  - by intros ->.
  - intros Hne.
    assert (Hin : max_default0 (seq_length <$> seqs) ∈ seq_length <$> seqs).
    { apply max_default0_attained. by destruct seqs. }
    apply list_elem_of_fmap in Hin as (q & Heq & Hq). eauto.
Qed.

(** The position dict has a list for each bad byte value and no other key. *)
Lemma init_positions_lookup (bad : gset Z) (b : Z) :
  init_positions bad !! b = if decide (b ∈ bad) then Some [] else None.
Proof.
  assert (H : (b ∈ bad -> init_positions bad !! b = Some []) /\
              (b ∉ bad -> init_positions bad !! b = None)).
  { unfold init_positions.
    apply (set_fold_ind_L
             (fun (m : gmap Z (list nat)) (X : gset Z) =>
                (b ∈ X -> m !! b = Some []) /\ (b ∉ X -> m !! b = None))).
    - split; [set_solver|]. intros _. apply lookup_empty.
    - intros x X m Hx [IH1 IH2].
      destruct (decide (x = b)) as [->|Hne].
      + split; [|set_solver]. intros _. apply lookup_insert_eq.
      + rewrite lookup_insert_ne by done.
        split; intros Hin.
        * apply IH1. apply elem_of_union in Hin as [Hin|Hin]; [|done].
          apply elem_of_singleton in Hin. congruence.
        * apply IH2. intros HX. apply Hin, elem_of_union. by right. }
  destruct H as [H1 H2]. case_decide; auto.
Qed.

Lemma record_starts_cons q (seqs : list Sequence) (m : gmap Z (list nat)) :
  record_starts (q :: seqs) m
  = record_starts seqs
      match seq_bytes q with
      | b :: _ => append_position b (seq_start q) m
      | [] => m
      end.
Proof. done. Qed.

(** Under a bad byte value [b], the dict holds the start offsets of the runs
    that begin with [b], in order. *)
Lemma record_starts_lookup (seqs : list Sequence) (m : gmap Z (list nat)) b ps :
  m !! b = Some ps ->
  record_starts seqs m !! b
  = Some (ps ++ (seq_start <$>
                   filter (fun q => head (seq_bytes q) = Some b) seqs)).
Proof.
  revert m ps. induction seqs as [|q seqs IH]; intros m ps Hm.
  - simpl. by rewrite app_nil_r.
  - rewrite record_starts_cons.
    destruct (seq_bytes q) as [|x bs] eqn:Hb.
    + rewrite filter_cons_False by (by rewrite Hb). by apply IH.
    + destruct (decide (x = b)) as [->|Hne].
      * rewrite filter_cons_True by (by rewrite Hb).
        erewrite IH.
        2:{ unfold append_position. rewrite lookup_alter_eq, Hm. done. }
        by rewrite <- app_assoc.
      * rewrite filter_cons_False by (rewrite Hb; simpl; congruence).
        apply IH. unfold append_position. by rewrite lookup_alter_ne.
Qed.

(** [bad_char_positions[b].append(i)] never meets a missing key. *)
Lemma positions_key_present (bad : gset Z) (seqs : list Sequence) b :
  b ∈ bad -> is_Some (record_starts seqs (init_positions bad) !! b).
Proof.
  intros Hb. erewrite record_starts_lookup; [done|].
  by rewrite init_positions_lookup, decide_True.
Qed.

(** The offsets recorded for [b] are the starts of the runs beginning with
    [b]: one offset per run, whatever the length of the run. *)
Lemma analyze_positions data bad_chars b :
  b ∈ bad_chars_or_default bad_chars ->
  let a := analyze_shellcode_for_bad_chars data bad_chars in
  bad_char_positions a !! b
  = Some (seq_start <$>
            filter (fun q => head (seq_bytes q) = Some b) (bad_char_sequences a)).
Proof.
  intros Hb. cbv zeta.
  destruct (analyze_spec data bad_chars) as (seqs & H & ->). simpl.
  rewrite (record_starts_lookup _ _ _ []); [done|].
  by rewrite init_positions_lookup, decide_True.
Qed.

End AnalyzerResults.

(** ** Claims on the analyzer *)

Section AnalyzerClaims.

(** C1 (defect of the code).  On the 3-byte input [b"\x00\x00\x01"] with the
    default set [{0x00}] the data holds 2 bad bytes, at offsets 0 and 1, but
    the analyzer returns [bad_char_count = 1] and records offset 0 only: the
    count and the position list are updated once per run of bad bytes, the
    inner loop skips the rest of the run. *)
Theorem C1_bad_char_count_misses_bytes_inside_a_run :
  let a := analyze_shellcode_for_bad_chars [0; 0; 1]%Z None in
  count_bad {[ 0%Z ]} [0; 0; 1]%Z = 2 /\
  bad_char_count a = 1 /\
  bad_char_positions a !! 0%Z = Some [0].
Proof. by vm_compute. Qed.

(** C2 (defect of the code).  On [b"\x00\x00\x01"] with [{0x00}] the analyzer
    reports the single run at offset 0 of length 2 and
    [max_consecutive_bad_chars = 2], as claimed, but the run lengths add up
    to 2 while [bad_char_count] is 1. *)
Theorem C2_run_lengths_do_not_add_up_to_bad_char_count :
  let a := analyze_shellcode_for_bad_chars [0; 0; 1]%Z (Some {[ 0%Z ]}) in
  bad_char_sequences a = [mkSequence 0 2 [0; 0]%Z] /\
  max_consecutive_bad_chars a = 2 /\
  sum_list (seq_length <$> bad_char_sequences a) = 2 /\
  bad_char_count a = 1.
Proof. by vm_compute. Qed.

End AnalyzerClaims.

(** ** The runner's own count of null bytes *)

Section NullCount.

Import Runner.

Lemma analyze_shellcode_for_nulls_acc (data : list Z) (acc : Z) :
  foldl (fun null_count byte =>
           if (byte =? 0)%Z then (null_count + 1)%Z else null_count) acc data
  = (acc + Z.of_nat (count_bad {[ 0%Z ]} data))%Z.
Proof.
  revert acc. induction data as [|x data IH]; intros acc; simpl.
  - unfold count_bad. simpl. lia.
  - rewrite IH. unfold count_bad.
    destruct (Z.eqb_spec x 0) as [->|Hne].
    + rewrite filter_cons_True by set_solver. simpl length. lia.
    + rewrite filter_cons_False by set_solver. done.
Qed.

(** [analyze_shellcode_for_nulls] counts every null byte. *)
Lemma analyze_shellcode_for_nulls_spec (data : list Z) :
  analyze_shellcode_for_nulls data = Z.of_nat (count_bad {[ 0%Z ]} data).
Proof.
  unfold analyze_shellcode_for_nulls.
  by rewrite analyze_shellcode_for_nulls_acc.
Qed.

(** The analyzer's count never exceeds the runner's, and the two are zero
    together. *)
Lemma bad_char_count_le_nulls (data : list Z) :
  (Z.of_nat (bad_char_count
               (analyze_shellcode_for_bad_chars data (Some {[ 0%Z ]})))
   <= analyze_shellcode_for_nulls data)%Z.
Proof.
  rewrite analyze_shellcode_for_nulls_spec.
  pose proof (analyze_count_le data (Some {[ 0%Z ]})) as H.
  unfold bad_chars_or_default in H. lia.
Qed.

Lemma nulls_zero_iff_bad_char_count_zero (data : list Z) :
  analyze_shellcode_for_nulls data = 0%Z
  <-> bad_char_count (analyze_shellcode_for_bad_chars data (Some {[ 0%Z ]})) = 0.
Proof.
  rewrite analyze_shellcode_for_nulls_spec, analyze_count_zero_iff.
  unfold bad_chars_or_default. lia.
Qed.

(** C7 (defect of the code).  On [b"\x00\x00\x01"] the runner's recount
    [analyze_shellcode_for_nulls] gives 2, the number of null bytes, while
    the [bad_char_count] of [analyze_shellcode_for_bad_chars] with [{0x00}]
    is 1: the two differ as soon as two bad bytes are adjacent. *)
Theorem C7_null_recount_differs_from_bad_char_count :
  analyze_shellcode_for_nulls [0; 0; 1]%Z = 2%Z /\
  bad_char_count
    (analyze_shellcode_for_bad_chars [0; 0; 1]%Z (Some {[ 0%Z ]})) = 1.
Proof. by vm_compute. Qed.

End NullCount.

(** ** Claims on the verification engine and the batch verifier *)

Section VerifyClaims.

Import Verify VerifySpec Examples.

(** Passing a set explicitly or through the default makes no difference. *)
Lemma analyze_with_resolved_set (data : list Z) (bad_chars : option (gset Z)) :
  analyze_shellcode_for_bad_chars data (Some (bad_chars_or_default bad_chars))
  = analyze_shellcode_for_bad_chars data bad_chars.
Proof. done. Qed.

(** C3.  When the original and the processed file can both be read, the
    engine returns, and its verdict is pass exactly when the analysis of the
    processed bytes has [bad_char_count = 0], whatever the original bytes
    and the two sizes are; that count is 0 exactly when the processed bytes
    hold no bad byte. *)
Theorem C3_verdict_passes_iff_processed_count_is_zero
    (fs : FileSystem) (input_file output_file : string)
    (bad_chars : option (gset Z)) (original processed : list Z) :
  fs input_file = RegularFile true original ->
  fs output_file = RegularFile true processed ->
  verify_bad_char_elimination fs input_file (Some output_file) bad_chars
  = Returned
      (bool_decide
         (bad_char_count
            (analyze_shellcode_for_bad_chars processed bad_chars) = 0))
  /\ (bad_char_count (analyze_shellcode_for_bad_chars processed bad_chars) = 0
      <-> count_bad (bad_chars_or_default bad_chars) processed = 0).
Proof.
  intros Hin Hout. split; [|apply analyze_count_zero_iff].
  unfold verify_bad_char_elimination, path_exists, read_file.
  rewrite Hin, Hout. cbn [negb]. rewrite !analyze_with_resolved_set.
  destruct (Nat.eqb_spec
              (bad_char_count
                 (analyze_shellcode_for_bad_chars processed bad_chars)) 0)
    as [Heq|Hne].
  - by rewrite bool_decide_eq_true_2.
  - by rewrite bool_decide_eq_false_2.
Qed.

Lemma C3_witness :
  verify_bad_char_elimination verify_disk "orig.bin" (Some "clean.bin") None
  = Returned
      (bool_decide
         (bad_char_count
            (analyze_shellcode_for_bad_chars [1; 2]%Z None) = 0))
  /\ (bad_char_count (analyze_shellcode_for_bad_chars [1; 2]%Z None) = 0
      <-> count_bad (bad_chars_or_default None) [1; 2]%Z = 0).
Proof.
  apply (C3_verdict_passes_iff_processed_count_is_zero
           verify_disk "orig.bin" "clean.bin" None [0; 1]%Z [1; 2]%Z);
    reflexivity.
Defined.

(** The two verdicts of the specification's example: original
    [b"\x00\x01"], processed [b"\x01\x02"] passes, processed [b"\x00\x02"]
    fails. *)
Example verdict_pass :
  verify_bad_char_elimination verify_disk "orig.bin" (Some "clean.bin") None
  = Returned true.
Proof. by vm_compute. Qed.

Example verdict_fail :
  verify_bad_char_elimination verify_disk "orig.bin" (Some "dirty.bin") None
  = Returned false.
Proof. by vm_compute. Qed.

(** Audit-only use: without a processed path the verdict is on the original. *)
Lemma verify_audit_only (fs : FileSystem) (input_file : string)
    (bad_chars : option (gset Z)) (original : list Z) :
  fs input_file = RegularFile true original ->
  verify_bad_char_elimination fs input_file None bad_chars
  = Returned
      (bad_char_count (analyze_shellcode_for_bad_chars original bad_chars) =? 0).
Proof.
  intros Hin. unfold verify_bad_char_elimination, path_exists, read_file.
  by rewrite Hin.
Qed.

(** The engine raises only when a file exists and cannot be read. *)
Lemma verify_raises_on_unreadable_output (fs : FileSystem)
    (input_file output_file : string) (bad_chars : option (gset Z))
    (original : list Z) e :
  fs input_file = RegularFile true original ->
  path_exists fs output_file = true ->
  read_file fs output_file = Raised e ->
  verify_bad_char_elimination fs input_file (Some output_file) bad_chars
  = Raised e.
Proof.
  intros Hin Hex Hrd. unfold verify_bad_char_elimination.
  unfold path_exists at 1. unfold read_file at 1. rewrite Hin. cbn [negb].
  by rewrite Hex, Hrd.
Qed.

(** A missing original, and a missing processed file next to a readable
    original, both end in [return False]. *)
Lemma verify_missing_input (fs : FileSystem) (input_file : string)
    (output_file : option string) (bad_chars : option (gset Z)) :
  path_exists fs input_file = false ->
  verify_bad_char_elimination fs input_file output_file bad_chars
  = Returned false.
Proof. intros Hmiss. unfold verify_bad_char_elimination. by rewrite Hmiss. Qed.

Lemma verify_missing_output (fs : FileSystem) (input_file output_file : string)
    (bad_chars : option (gset Z)) (original : list Z) :
  read_file fs input_file = Returned original ->
  path_exists fs output_file = false ->
  verify_bad_char_elimination fs input_file (Some output_file) bad_chars
  = Returned false.
Proof.
  intros Hrd Hmiss. unfold verify_bad_char_elimination.
  destruct (path_exists fs input_file) eqn:Hex; [|done]. cbn [negb].
  by rewrite Hrd, Hmiss.
Qed.

(** C6, as stated, fails: with no file on disk at all, verifying
    ["missing.bin"] returns [False], the value of a fail verdict. *)
Lemma C6_counterexample : ~ missing_file_claim_as_stated.
Proof.
  intros H.
  apply (H (disk []) "missing.bin" None None); [by left|reflexivity].
Qed.

(** C6, amended.  When the original path does not exist, or when the
    original can be read and a processed path is supplied that does not
    exist, the engine raises nothing and returns [False], the same value as
    a fail verdict. *)
Theorem C6_missing_file_returns_false
    (fs : FileSystem) (input_file : string) (output_file : option string)
    (bad_chars : option (gset Z)) :
  (path_exists fs input_file = false \/
   exists original o,
     read_file fs input_file = Returned original /\
     output_file = Some o /\ path_exists fs o = false) ->
  verify_bad_char_elimination fs input_file output_file bad_chars
  = Returned false.
Proof.
  intros [Hmiss|(original & o & Hrd & -> & Hmiss)].
  - by apply verify_missing_input.
  - by eapply verify_missing_output.
Qed.

Lemma C6_witness :
  verify_bad_char_elimination verify_disk "orig.bin" (Some "nowhere.bin") None
  = Returned false.
Proof.
  apply (C6_missing_file_returns_false verify_disk "orig.bin"
           (Some "nowhere.bin") None).
  right. exists [0; 1]%Z, "nowhere.bin". by vm_compute.
Defined.

(** C5, as stated, fails: on [batch_disk], where the counterpart of the
    second of three files is missing, the batch run with
    [continue_on_error=false] ends with [errors = 0] and three results. *)
Lemma C5_counterexample : ~ batch_stop_claim_as_stated.
Proof.
  intros H.
  specialize (H batch_disk "in/a.bin" "in/b.bin" "in/c.bin" "out"
                batch_mirror None).
  assert (Hrun :
    batch_run batch_disk ["in/a.bin"; "in/b.bin"; "in/c.bin"] (Some "out")
      batch_mirror false None
    = (mkBatchStats 3 2 1 0,
       [mkFileResult "in/a.bin" (Some "out/a.bin") true "SUCCESS" None;
        mkFileResult "in/b.bin" (Some "out/b.bin") false "FAILED" None;
        mkFileResult "in/c.bin" (Some "out/c.bin") true "SUCCESS" None]))
    by by vm_compute.
  rewrite Hrun in H.
  destruct H as (Herr & _ & _); [done| |reflexivity|discriminate Herr].
  repeat (apply Forall_cons; split; [eexists; by vm_compute|]).
  apply Forall_nil_2.
Qed.

(** C5, amended.  When the loop reaches a readable file whose output
    counterpart is missing, the engine returns [False] for it without
    raising: the file is recorded with status FAILED, [failed] goes up by
    one, [errors] is unchanged, and the loop goes on with the remaining
    files, whatever [continue_on_error] is. *)
Theorem C5_missing_output_is_recorded_failed_and_batch_continues
    (fs : FileSystem) (output_mapping : gmap string string)
    (continue_on_error : bool) (bad_chars : gset Z)
    (input_file output_file : string) (original : list Z)
    (rest : list string) (stats : BatchStats) (results : list FileResult) :
  fs input_file = RegularFile true original ->
  output_mapping !! input_file = Some output_file ->
  path_exists fs output_file = false ->
  batch_loop fs output_mapping continue_on_error bad_chars
    (input_file :: rest) (stats, results)
  = batch_loop fs output_mapping continue_on_error bad_chars rest
      (mkBatchStats (total stats) (successful stats) (S (failed stats))
         (errors stats),
       results ++
         [mkFileResult input_file (Some output_file) false "FAILED" None]).
Proof.
  intros Hin Hmap Hmiss. cbn [batch_loop]. rewrite Hmap.
  rewrite (verify_missing_output fs input_file output_file
             (Some bad_chars) original); [done| |done].
  unfold read_file. by rewrite Hin.
Qed.

Lemma C5_witness :
  batch_loop batch_disk
    (build_output_mapping (Some "out") batch_mirror
       ["in/a.bin"; "in/b.bin"; "in/c.bin"])
    false {[ 0%Z ]} ("in/b.bin" :: ["in/c.bin"])
    (mkBatchStats 3 1 0 0,
     [mkFileResult "in/a.bin" (Some "out/a.bin") true "SUCCESS" None])
  = batch_loop batch_disk
      (build_output_mapping (Some "out") batch_mirror
         ["in/a.bin"; "in/b.bin"; "in/c.bin"])
      false {[ 0%Z ]} ["in/c.bin"]
      (mkBatchStats 3 1 1 0,
       [mkFileResult "in/a.bin" (Some "out/a.bin") true "SUCCESS" None] ++
         [mkFileResult "in/b.bin" (Some "out/b.bin") false "FAILED" None]).
Proof.
  apply (C5_missing_output_is_recorded_failed_and_batch_continues
           batch_disk _ false {[ 0%Z ]} "in/b.bin" "out/b.bin" [0; 1]%Z);
    by vm_compute.
Defined.

(** The whole batch on [batch_disk]: nothing is counted as an error and the
    third file is verified. *)
Example batch_with_missing_counterpart :
  batch_run batch_disk ["in/a.bin"; "in/b.bin"; "in/c.bin"] (Some "out")
    batch_mirror false None
  = (mkBatchStats 3 2 1 0,
     [mkFileResult "in/a.bin" (Some "out/a.bin") true "SUCCESS" None;
      mkFileResult "in/b.bin" (Some "out/b.bin") false "FAILED" None;
      mkFileResult "in/c.bin" (Some "out/c.bin") true "SUCCESS" None]).
Proof. by vm_compute. Qed.

(** The [except] branch: an exception of the engine is recorded as ERROR
    and counted in [errors]; the loop then stops unless [continue_on_error]
    is set. *)
Lemma batch_loop_stops_on_exception
    (fs : FileSystem) (output_mapping : gmap string string)
    (bad_chars : gset Z) (input_file : string) (rest : list string)
    (stats : BatchStats) (results : list FileResult) (e : OSError) :
  verify_bad_char_elimination fs input_file (output_mapping !! input_file)
    (Some bad_chars) = Raised e ->
  batch_loop fs output_mapping false bad_chars (input_file :: rest)
    (stats, results)
  = (mkBatchStats (total stats) (successful stats) (failed stats)
       (S (errors stats)),
     results ++
       [mkFileResult input_file (output_mapping !! input_file) false "ERROR"
          (Some e)]).
Proof. intros Hraise. cbn [batch_loop]. by rewrite Hraise. Qed.

Lemma batch_loop_continues_after_exception
    (fs : FileSystem) (output_mapping : gmap string string)
    (bad_chars : gset Z) (input_file : string) (rest : list string)
    (stats : BatchStats) (results : list FileResult) (e : OSError) :
  verify_bad_char_elimination fs input_file (output_mapping !! input_file)
    (Some bad_chars) = Raised e ->
  batch_loop fs output_mapping true bad_chars (input_file :: rest)
    (stats, results)
  = batch_loop fs output_mapping true bad_chars rest
      (mkBatchStats (total stats) (successful stats) (failed stats)
         (S (errors stats)),
       results ++
         [mkFileResult input_file (output_mapping !! input_file) false "ERROR"
            (Some e)]).
Proof. intros Hraise. cbn [batch_loop]. by rewrite Hraise. Qed.

(** On [batch_disk_unreadable] the counterpart of the second file exists but
    cannot be read: that is an error, and it stops the batch. *)
Example batch_with_unreadable_counterpart :
  batch_run batch_disk_unreadable ["in/a.bin"; "in/b.bin"; "in/c.bin"]
    (Some "out") batch_mirror false None
  = (mkBatchStats 3 1 0 1,
     [mkFileResult "in/a.bin" (Some "out/a.bin") true "SUCCESS" None;
      mkFileResult "in/b.bin" (Some "out/b.bin") false "ERROR"
        (Some (IsADirectoryError "out/b.bin"))]).
Proof. by vm_compute. Qed.

Example batch_with_unreadable_counterpart_continue :
  batch_verify_bad_char_elimination batch_disk_unreadable
    ["in/a.bin"; "in/b.bin"; "in/c.bin"] (Some "out") batch_mirror true None
  = mkBatchStats 3 2 0 1.
Proof. by vm_compute. Qed.

End VerifyClaims.

(** ** Claims on the process runner and the orchestrator *)

Section RunnerClaims.

Import OutputParser Runner RunnerSpec Examples.

(** C4, as stated, fails: the transformer exits 0 and leaves a clean
    output, but the original can no longer be read; the runner's exception
    handler leaves [success] false and the status is FAILED, where the
    claim says SUCCESS. *)
Lemma C4_counterexample : ~ classification_claim_as_stated.
Proof.
  intros H.
  specialize (H runner_disk_no_original (Completed 0 "" "") "payload.bin"
                "tmp_out.bin" 120%Z).
  vm_compute in H. discriminate H.
Qed.

(** The same four observations, two statuses. *)
Example classification_depends_on_the_original :
  let r1 := run_byvalver runner_disk (Completed 0 "" "") "payload.bin"
              "tmp_out.bin" 120 in
  let r2 := run_byvalver runner_disk_no_original (Completed 0 "" "")
              "payload.bin" "tmp_out.bin" 120 in
  (timed_out r1, exit_code r1, path_exists runner_disk "tmp_out.bin",
   nulls_remaining r1)
  = (timed_out r2, exit_code r2,
     path_exists runner_disk_no_original "tmp_out.bin", nulls_remaining r2)
  /\ status_of r1 = "SUCCESS" /\ status_of r2 = "FAILED".
Proof. by vm_compute. Qed.

(** The status of a result whose flags and counts are known. *)
Lemma status_of_result (success timed_out : bool) (output : string)
    (error : ErrorText) (exit_code : option Z) (output_data : option (list Z))
    (nulls_remaining nulls_in_original : Z) :
  status_of (mkRunResult success output error exit_code timed_out output_data
               nulls_remaining nulls_in_original)
  = if timed_out then "TIMEOUT"
    else if success then "SUCCESS"
    else if exit_code_is_zero exit_code && (0 <? nulls_remaining)%Z
    then "NULLS_REMAINING"
    else if negb (exit_code_is_zero exit_code) then "ERROR"
    else "FAILED".
Proof.
  unfold status_of, determine_status. cbn.
  by destruct timed_out, success,
       (exit_code_is_zero exit_code && (0 <? nulls_remaining)%Z),
       (negb (exit_code_is_zero exit_code)).
Qed.

(** The status as a function of the process, the output file and, for a
    clean output only, the original. *)
Lemma status_from_process_and_disk
    (fs : FileSystem) (proc : Subprocess) (input_path output_path : string)
    (timeout : Z) :
  status_of (run_byvalver fs proc input_path output_path timeout)
  = if clean_output fs proc output_path
       && negb (original_readable fs input_path)
    then "FAILED"
    else classification_by_spec (observed_timed_out proc)
           (observed_exit_code proc) (path_exists fs output_path)
           (observed_residual fs output_path).
Proof.
  unfold run_byvalver, clean_output, original_readable, observed_residual,
    classification_by_spec.
  destruct proc as [returncode stdout stderr| |message];
    [|by rewrite status_of_result|by rewrite status_of_result].
  cbn [observed_timed_out observed_exit_code exit_code_is_zero].
  destruct (returncode =? 0)%Z eqn:Hrc;
    [|by rewrite status_of_result; cbn; rewrite Hrc].
  destruct (path_exists fs output_path);
    [|by rewrite status_of_result; cbn; rewrite Hrc].
  destruct (read_file fs output_path) as [data|e];
    [|by rewrite status_of_result; cbn; rewrite Hrc].
  rewrite <- (analyze_shellcode_for_nulls_spec data).
  destruct (read_file fs input_path) as [original|e];
    rewrite status_of_result; cbn; rewrite Hrc; cbn.
  - by destruct (analyze_shellcode_for_nulls data =? 0)%Z,
         (0 <? analyze_shellcode_for_nulls data)%Z.
  - destruct (Z.eqb_spec (analyze_shellcode_for_nulls data) 0) as [Hz|Hz];
      [by rewrite Hz|].
    by destruct (0 <? analyze_shellcode_for_nulls data)%Z.
Qed.

(** C4, amended.  For every invocation the status is decided by how the
    process ended and by the disk it left: a timeout gives TIMEOUT; exit
    code 0 with the output present and free of null bytes gives SUCCESS
    when the original can be read and FAILED when it cannot; exit code 0
    with the output present and null bytes left gives NULLS_REMAINING; a
    non-zero exit code gives ERROR, whatever is on disk; exit code 0 without
    an output file gives FAILED.  Apart from the unreadable original after a
    clean output, the status is the specification's function of the
    timed-out flag, the exit code, the presence of the output file and the
    residual count, which the runner records as observed. *)
Theorem C4_classification_from_process_and_disk
    (fs : FileSystem) (proc : Subprocess) (input_path output_path : string)
    (timeout : Z) :
  let r := run_byvalver fs proc input_path output_path timeout in
  let residual := observed_residual fs output_path in
  (timed_out r = observed_timed_out proc /\
   exit_code r = observed_exit_code proc) /\
  status_of r
  = (if clean_output fs proc output_path
        && negb (original_readable fs input_path)
     then "FAILED"
     else classification_by_spec (observed_timed_out proc)
            (observed_exit_code proc) (path_exists fs output_path) residual) /\
  (proc = TimeoutExpired -> status_of r = "TIMEOUT") /\
  (forall stdout stderr,
     proc = Completed 0 stdout stderr -> path_exists fs output_path = true ->
     residual = 0%Z ->
     status_of r
     = if original_readable fs input_path then "SUCCESS" else "FAILED") /\
  (forall stdout stderr,
     proc = Completed 0 stdout stderr -> path_exists fs output_path = true ->
     (0 < residual)%Z ->
     status_of r = "NULLS_REMAINING" /\ nulls_remaining r = residual) /\
  (forall returncode stdout stderr,
     proc = Completed returncode stdout stderr -> returncode ≠ 0%Z ->
     status_of r = "ERROR") /\
  (forall stdout stderr,
     proc = Completed 0 stdout stderr -> path_exists fs output_path = false ->
     status_of r = "FAILED").
Proof.
  cbv zeta.
  pose proof (status_from_process_and_disk fs proc input_path output_path
                timeout) as Hstatus.
  split; [|split; [exact Hstatus|]].
  { unfold run_byvalver.
    destruct proc as [returncode stdout stderr| |message]; [|done|done].
    destruct (returncode =? 0)%Z; [|done].
    destruct (path_exists fs output_path); [|done].
    destruct (read_file fs output_path) as [data|e]; [|done].
    by destruct (read_file fs input_path). }
  rewrite Hstatus. clear Hstatus.
  unfold clean_output, classification_by_spec.
  split; [|split; [|split; [|split]]].
  - by intros ->.
  - intros stdout stderr -> -> ->. cbn.
    by destruct (original_readable fs input_path).
  - intros stdout stderr -> Hex Hpos. split.
    + rewrite Hex. cbn.
      destruct (Z.eqb_spec (observed_residual fs output_path) 0) as [Hz|Hz];
        [lia|].
      apply Z.ltb_lt in Hpos. by rewrite Hpos.
    + unfold run_byvalver. cbn. rewrite Hex.
      unfold observed_residual in *.
      destruct (read_file fs output_path) as [data|e]; [|lia].
      rewrite <- analyze_shellcode_for_nulls_spec.
      by destruct (read_file fs input_path).
  - intros returncode stdout stderr -> Hne. cbn.
    apply Z.eqb_neq in Hne. by rewrite Hne.
  - by intros stdout stderr -> ->.
Qed.

Lemma C4_witness :
  status_of (run_byvalver runner_disk (Completed 0 "" "") "payload.bin"
               "tmp_out.bin" 120)
  = (if original_readable runner_disk "payload.bin"
     then "SUCCESS" else "FAILED") /\
  status_of (run_byvalver runner_disk_nulls_left (Completed 0 "" "")
               "payload.bin" "tmp_out.bin" 120) = "NULLS_REMAINING" /\
  status_of (run_byvalver runner_disk (Completed 2 "" "") "payload.bin"
               "tmp_out.bin" 120) = "ERROR" /\
  status_of (run_byvalver runner_disk TimeoutExpired "payload.bin"
               "tmp_out.bin" 120) = "TIMEOUT" /\
  status_of (run_byvalver runner_disk (Completed 0 "" "") "payload.bin"
               "not_written.bin" 120) = "FAILED".
Proof.
  split; [|split; [|split; [|split]]].
  - destruct (C4_classification_from_process_and_disk runner_disk
                (Completed 0 "" "") "payload.bin" "tmp_out.bin" 120)
      as (_ & _ & _ & H & _).
    apply (H "" ""); reflexivity.
  - destruct (C4_classification_from_process_and_disk runner_disk_nulls_left
                (Completed 0 "" "") "payload.bin" "tmp_out.bin" 120)
      as (_ & _ & _ & _ & H & _).
    apply (H "" ""); reflexivity.
  - destruct (C4_classification_from_process_and_disk runner_disk
                (Completed 2 "" "") "payload.bin" "tmp_out.bin" 120)
      as (_ & _ & _ & _ & _ & H & _).
    apply (H 2%Z "" ""); [reflexivity|discriminate].
  - destruct (C4_classification_from_process_and_disk runner_disk
                TimeoutExpired "payload.bin" "tmp_out.bin" 120)
      as (_ & _ & H & _).
    apply H; reflexivity.
  - destruct (C4_classification_from_process_and_disk runner_disk
                (Completed 0 "" "") "payload.bin" "not_written.bin" 120)
      as (_ & _ & _ & _ & _ & _ & H).
    apply (H "" ""); reflexivity.
Defined.

(** The five cases of the specification, on runs whose original is there. *)
Example status_timeout :
  status_of (run_byvalver runner_disk TimeoutExpired "payload.bin"
               "tmp_out.bin" 120) = "TIMEOUT".
Proof. by vm_compute. Qed.

Example status_success :
  status_of (run_byvalver runner_disk (Completed 0 "" "") "payload.bin"
               "tmp_out.bin" 120) = "SUCCESS".
Proof. by vm_compute. Qed.

Example status_nulls_remaining :
  status_of (run_byvalver runner_disk_nulls_left (Completed 0 "" "")
               "payload.bin" "tmp_out.bin" 120) = "NULLS_REMAINING".
Proof. by vm_compute. Qed.

Example status_error :
  status_of (run_byvalver runner_disk (Completed 2 "" "") "payload.bin"
               "tmp_out.bin" 120) = "ERROR".
Proof. by vm_compute. Qed.

Example status_failed :
  status_of (run_byvalver runner_disk (Completed 0 "" "") "payload.bin"
               "not_written.bin" 120) = "FAILED".
Proof. by vm_compute. Qed.

(** An output that is there but cannot be read, and a transformer that could
    not be started. *)
Example status_unreadable_output :
  status_of (run_byvalver batch_disk_unreadable (Completed 0 "" "")
               "in/b.bin" "out/b.bin" 120) = "FAILED".
Proof. by vm_compute. Qed.

Example status_not_started :
  status_of (run_byvalver runner_disk (RunFailed "No such file: byvalver")
               "payload.bin" "tmp_out.bin" 120) = "ERROR".
Proof. by vm_compute. Qed.

(** A non-zero exit is an ERROR whether or not an output file exists. *)
Lemma nonzero_exit_is_error
    (fs : FileSystem) (returncode : Z) (stdout stderr : string)
    (input_path output_path : string) (timeout : Z) :
  returncode ≠ 0%Z ->
  status_of (run_byvalver fs (Completed returncode stdout stderr) input_path
               output_path timeout) = "ERROR".
Proof.
  intros Hne. unfold run_byvalver. apply Z.eqb_neq in Hne. rewrite Hne.
  unfold status_of, determine_status. cbn. by rewrite Hne.
Qed.

(** After a timeout or a non-zero exit both counts keep their initial -1. *)
Lemma sentinels_kept
    (fs : FileSystem) (proc : Subprocess) (input_path output_path : string)
    (timeout : Z) :
  timed_out_or_failed proc ->
  nulls_remaining (run_byvalver fs proc input_path output_path timeout) = (-1)%Z
  /\ nulls_in_original (run_byvalver fs proc input_path output_path timeout)
     = (-1)%Z.
Proof.
  destruct proc as [returncode stdout stderr| |message]; simpl; [|done|done].
  intros Hne. apply Z.eqb_neq in Hne. by rewrite Hne.
Qed.

(** The total of null bytes grows by [nulls_remaining], whatever it is. *)
Lemma mode_step_total (r : RunResult) (parsed : OutputStats) (st : ModeStats) :
  total_null_bytes_found (snd (mode_step r parsed st))
  = (total_null_bytes_found st + nulls_remaining r)%Z.
Proof.
  unfold mode_step, determine_status.
  by destruct (timed_out r), (success r),
       (exit_code_is_zero (exit_code r) && (0 <? nulls_remaining r)%Z),
       (negb (exit_code_is_zero (exit_code r))).
Qed.

(** A corpus of one file that times out in one mode and exits with code 2
    in the other ends with both totals at -1. *)
Example totals_after_timeout_and_error :
  exists stats tests,
    main_loop
      [(mkBinFile "only.bin" "payload.bin" 2, trial_timeout, trial_exit_2)]
      (initial_stats 1, []) = Ok (stats, tests) /\
    total_null_bytes_found (stats_biphasic stats) = (-1)%Z /\
    total_null_bytes_found (stats_non_biphasic stats) = (-1)%Z /\
    timed_out_count (stats_biphasic stats) = 1%Z /\
    errors (stats_non_biphasic stats) = 1%Z.
Proof. eexists _, _. split; [by vm_compute|]. by vm_compute. Qed.

(** The comparison loop started from any three counters. *)
Lemma mode_comparison_from (tests : list FileTest) (a b c : nat) :
  foldl (fun '(better_biphasic, better_non_biphasic, same_result) test =>
           let biphasic_success := is_success (status (biphasic_test test)) in
           let non_biphasic_success :=
             is_success (status (non_biphasic_test test)) in
           if biphasic_success && negb non_biphasic_success
           then (S better_biphasic, better_non_biphasic, same_result)
           else if non_biphasic_success && negb biphasic_success
           then (better_biphasic, S better_non_biphasic, same_result)
           else (better_biphasic, better_non_biphasic, S same_result))
        (a, b, c) tests
  = (a + count_where (fun t => biphasic_success t && negb (non_biphasic_success t))
           tests,
     b + count_where (fun t => non_biphasic_success t && negb (biphasic_success t))
           tests,
     c + count_where (fun t => bool_decide (biphasic_success t = non_biphasic_success t))
           tests).
Proof.
  revert a b c. induction tests as [|t tests IH]; intros a b c.
  - simpl. unfold count_where. simpl. by rewrite !Nat.add_0_r.
  - cbn [foldl]. unfold count_where, biphasic_success, non_biphasic_success in *.
    destruct (is_success (status (biphasic_test t))) eqn:Hb,
             (is_success (status (non_biphasic_test t))) eqn:Hn;
      cbn [andb negb]; rewrite IH.
    all: repeat (first
        [ rewrite filter_cons_True by (by rewrite ?Hb, ?Hn)
        | rewrite filter_cons_False by (by rewrite ?Hb, ?Hn) ]).
    all: simpl length.
    all: by rewrite ?Nat.add_succ_r.
Qed.

(** C9.  The comparison puts each file in exactly one bucket, by the two
    modes' SUCCESS or non-SUCCESS status: biphasic better when only the
    biphasic run succeeded, non-biphasic better when only the other did,
    same otherwise; the three counts add up to the number of files.  On
    [corpus_two_files] (first file: biphasic SUCCESS, non-biphasic
    NULLS_REMAINING; second file: both SUCCESS) the counts are 1, 0 and 1. *)
Theorem C9_mode_comparison_buckets (tests : list FileTest) :
  mode_comparison tests
  = (count_where (fun t => biphasic_success t && negb (non_biphasic_success t))
       tests,
     count_where (fun t => non_biphasic_success t && negb (biphasic_success t))
       tests,
     count_where (fun t => bool_decide (biphasic_success t = non_biphasic_success t))
       tests)
  /\ (let '(better_biphasic, better_non_biphasic, same_result) :=
        mode_comparison tests in
      better_biphasic + better_non_biphasic + same_result = length tests)
  /\ (exists stats results,
        main_loop corpus_two_files (initial_stats 2, []) = Ok (stats, results)
        /\ status <$> (biphasic_test <$> results) = ["SUCCESS"; "SUCCESS"]
        /\ status <$> (non_biphasic_test <$> results)
           = ["NULLS_REMAINING"; "SUCCESS"]
        /\ mode_comparison results = (1, 0, 1)).
Proof.
  assert (Hcounts :
    mode_comparison tests
    = (count_where (fun t => biphasic_success t && negb (non_biphasic_success t))
         tests,
       count_where (fun t => non_biphasic_success t && negb (biphasic_success t))
         tests,
       count_where
         (fun t => bool_decide (biphasic_success t = non_biphasic_success t))
         tests))
    by apply (mode_comparison_from tests 0 0 0).
  split; [done|].
  split; [|eexists _, _; split; [by vm_compute|by vm_compute]].
  rewrite Hcounts. clear Hcounts.
  unfold count_where, biphasic_success, non_biphasic_success.
  induction tests as [|t tests IH]; [done|].
  destruct (is_success (status (biphasic_test t))) eqn:Hb,
           (is_success (status (non_biphasic_test t))) eqn:Hn;
    repeat (first
      [ rewrite filter_cons_True by (by rewrite ?Hb, ?Hn)
      | rewrite filter_cons_False by (by rewrite ?Hb, ?Hn) ]);
    simpl length; lia.
Qed.

End RunnerClaims.

(** ** Claims on the parser of the bad-character option *)

Section ParseClaims.

Import ParseSpec.

Lemma part_value_range (part : string) (v : Z) :
  part_value part = Some v -> (0 <= v <= 255)%Z.
Proof.
  unfold part_value. destruct (strip part); [done|].
  destruct (int16 _) as [w|]; [|done].
  destruct (0 <=? w)%Z eqn:H0, (w <=? 255)%Z eqn:H1; simpl; try done.
  intros [= <-]. lia.
Qed.

(** One iteration of the loop adds the part's value, if it has one, and
    prints the part's warning, if it has one. *)
Lemma parse_part_spec (bad_chars : gset Z) (printed : list string)
    (part : string) :
  parse_part (bad_chars, printed) part
  = (bad_chars ∪ from_option singleton ∅ (part_value part),
     printed ++ from_option (fun w => [w]) [] (part_warning part)).
Proof.
  unfold parse_part, part_value, part_warning.
  destruct (strip part) as [|c r].
  - simpl. by rewrite union_empty_r_L, app_nil_r.
  - destruct (int16 (String c r)) as [v|]; simpl.
    + destruct ((0 <=? v)%Z && (v <=? 255)%Z); simpl.
      * by rewrite app_nil_r.
      * by rewrite union_empty_r_L.
    + by rewrite union_empty_r_L.
Qed.

Lemma parse_loop_spec (parts : list string) (bad_chars : gset Z)
    (printed : list string) :
  foldl parse_part (bad_chars, printed) parts
  = (bad_chars ∪ list_to_set (omap part_value parts),
     printed ++ omap part_warning parts).
Proof.
  revert bad_chars printed.
  induction parts as [|part parts IH]; intros bad_chars printed.
  - simpl. by rewrite union_empty_r_L, app_nil_r.
  - cbn [foldl]. rewrite parse_part_spec, IH. cbn [omap list_omap].
    destruct (part_value part) as [v|], (part_warning part) as [w|]; simpl;
      by rewrite ?union_empty_r_L, ?app_nil_r, <- ?app_assoc,
                 <- ?(assoc_L (∪)).
Qed.

(** The parser returns the values of the valid parts, or [{0x00}] when
    there is none, and prints one warning per invalid part. *)
Lemma parse_bad_chars_spec (s : string) :
  parse_bad_chars s
  = (if decide (valid_values s = ∅) then {[ 0%Z ]} else valid_values s,
     warnings_of s).
Proof.
  destruct s as [|c r]; [done|].
  unfold parse_bad_chars.
  rewrite parse_loop_spec, union_empty_l_L. done.
Qed.

Lemma elem_of_valid_values (s : string) (v : Z) :
  v ∈ valid_values s
  <-> exists part, part ∈ split_comma s /\ part_value part = Some v.
Proof.
  unfold valid_values. rewrite elem_of_list_to_set, list_elem_of_omap.
  naive_solver.
Qed.

(** C8.  The parser keeps the byte value of every valid part and drops the
    other parts, printing a warning for each part that is invalid or out of
    range: ["00,0a,ZZ"] gives [{0x00, 0x0a}] and one warning for [ZZ]; the
    empty string, and any string without a valid part, give [{0x00}]; every
    member of a returned set is in [0,255]. *)
Theorem C8_parse_bad_chars (s : string) :
  parse_bad_chars "00,0a,ZZ"
  = ({[ 0%Z; 10%Z ]}, ["[WARNING] Invalid hex value: ZZ"])
  /\ parse_bad_chars "" = ({[ 0%Z ]}, [])
  /\ snd (parse_bad_chars s) = warnings_of s
  /\ (forall part v, part ∈ split_comma s -> part_value part = Some v ->
        v ∈ fst (parse_bad_chars s))
  /\ (forall v, v ∈ fst (parse_bad_chars s) ->
        v = 0%Z \/ exists part, part ∈ split_comma s /\ part_value part = Some v)
  /\ ((forall part, part ∈ split_comma s -> part_value part = None) ->
      fst (parse_bad_chars s) = {[ 0%Z ]})
  /\ (forall v, v ∈ fst (parse_bad_chars s) -> (0 <= v <= 255)%Z).
Proof.
  split; [by vm_compute|]. split; [done|].
  rewrite parse_bad_chars_spec. cbn [fst snd].
  split; [done|]. split; [|split; [|split]].
  - intros part v Hin Hv.
    assert (Hmem : v ∈ valid_values s) by (apply elem_of_valid_values; eauto).
    case_decide as Hempty; [|done]. rewrite Hempty in Hmem. set_solver.
  - intros v Hv. case_decide.
    + left. set_solver.
    + right. by apply elem_of_valid_values.
  - intros Hnone. case_decide as Hempty; [done|]. exfalso. apply Hempty.
    apply set_eq. intros v. rewrite elem_of_valid_values.
    split; [|set_solver]. intros (part & Hin & Hv).
    rewrite (Hnone part Hin) in Hv. done.
  - intros v Hv. case_decide.
    + apply elem_of_singleton in Hv as ->. lia.
    + apply elem_of_valid_values in Hv as (part & _ & Hv).
      by eapply part_value_range.
Qed.

Lemma C8_witness : fst (parse_bad_chars "zz, ,100") = {[ 0%Z ]}.
Proof.
  apply (C8_parse_bad_chars "zz, ,100").
  intros part Hin.
  change (split_comma "zz, ,100") with ["zz"; " "; "100"] in Hin.
  repeat (apply elem_of_cons in Hin as [->|Hin]; [by vm_compute|]).
  by apply elem_of_nil in Hin.
Defined.

(** Blank parts are skipped without a warning; a value above 255 and a
    negative value are reported as out of range. *)
Example parse_mixed :
  parse_bad_chars "00, 0a ,ZZ,,100,-1"
  = ({[ 0%Z; 10%Z ]},
     ["[WARNING] Invalid hex value: ZZ";
      "[WARNING] Byte value out of range (0-255): 100";
      "[WARNING] Byte value out of range (0-255): -1"]).
Proof. by vm_compute. Qed.

End ParseClaims.

(** ** Strings: substring test and splitting *)

Section StringFacts.

Import OutputParser.

Lemma append_cons (a : ascii) (s1 s2 : string) :
  String a s1 +:+ s2 = String a (s1 +:+ s2).
Proof. done. Qed.

Lemma append_nil_l (s : string) : "" +:+ s = s.
Proof. done. Qed.

Lemma append_assoc (s1 s2 s3 : string) :
  (s1 +:+ s2) +:+ s3 = s1 +:+ (s2 +:+ s3).
Proof.
  induction s1 as [|a s1 IH]; [done|].
  by rewrite !append_cons, IH.
Qed.

Lemma prefix_spec (s1 s2 : string) :
  String.prefix s1 s2 = true <-> exists suf, s2 = s1 +:+ suf.
Proof.
  revert s1. induction s2 as [|b s2 IH]; intros [|a s1]; simpl.
  - split; [by exists ""|done].
  - split; [done|]. by intros [suf Hsuf].
  - split; [|done]. intros _. by exists (String b s2).
  - destruct (ascii_dec a b) as [->|Hne].
    + rewrite IH. split; intros [suf Hsuf]; exists suf.
      * by rewrite append_cons, <- Hsuf.
      * rewrite append_cons in Hsuf. by injection Hsuf.
    + split; [done|]. intros [suf Hsuf].
      rewrite append_cons in Hsuf. by injection Hsuf.
Qed.

Lemma contains_unfold (needle s : string) :
  contains needle s
  = if String.prefix needle s then true
    else match s with
         | EmptyString => false
         | String _ rest => contains needle rest
         end.
Proof. by destruct s. Qed.

(** [needle in s] holds exactly when [s] is some text, [needle], some text. *)
Lemma contains_spec (needle s : string) :
  contains needle s = true <-> exists pre suf, s = pre +:+ (needle +:+ suf).
Proof.
  split.
  - induction s as [|a s IH]; rewrite contains_unfold;
      destruct (String.prefix needle _) eqn:Hp.
    + apply prefix_spec in Hp as [suf ->]. by exists "", suf.
    + done.
    + apply prefix_spec in Hp as [suf ->]. by exists "", suf.
    + intros H. destruct (IH H) as (pre & suf & ->).
      by exists (String a pre), suf.
  - intros (pre & suf & ->). induction pre as [|a pre IH].
    + rewrite contains_unfold, append_nil_l.
      by rewrite (proj2 (prefix_spec needle (needle +:+ suf))) by by exists suf.
    + rewrite contains_unfold, append_cons.
      by destruct (String.prefix needle _).
Qed.

Lemma contains_trans (a b s : string) :
  contains a b = true -> contains b s = true -> contains a s = true.
Proof.
  rewrite !contains_spec.
  intros (p1 & s1 & ->) (p2 & s2 & ->).
  exists (p2 +:+ p1), (s1 +:+ s2). by rewrite !append_assoc.
Qed.

Lemma split_char_not_nil (sep : ascii) (s : string) : split_char sep s ≠ [].
Proof.
  destruct s as [|c s]; simpl; [done|].
  destruct (Ascii.eqb c sep); [done|]. by destruct (split_char sep s).
Qed.

(** A string in which the separator occurs splits into at least two parts. *)
Lemma split_char_two_parts (sep : ascii) (s : string) :
  contains (String sep "") s = true -> 2 <= length (split_char sep s).
Proof.
  induction s as [|c s IH]; rewrite contains_unfold; simpl; [done|].
  destruct (ascii_dec sep c) as [->|Hne].
  - intros _. rewrite Ascii.eqb_refl. simpl.
    pose proof (split_char_not_nil c s). destruct (split_char c s); [done|].
    simpl. lia.
  - assert (Ascii.eqb c sep = false) as -> by (apply Ascii.eqb_neq; congruence).
    intros H. specialize (IH H).
    destruct (split_char sep s); simpl in *; lia.
Qed.

Lemma split_str_from_not_nil (sep s : string) (skip : nat) :
  split_str_from sep s skip ≠ [].
Proof.
  revert skip. induction s as [|c s IH]; intros skip; cbn [split_str_from];
    [done|].
  destruct skip; [|apply IH].
  destruct (String.prefix sep (String c s)); [done|].
  by destruct (split_str_from sep s 0).
Qed.

Lemma split_str_two_parts (sep s : string) :
  sep ≠ "" -> contains sep s = true -> 2 <= length (split_str sep s).
Proof.
  intros Hsep. unfold split_str.
  induction s as [|c s IH]; rewrite contains_unfold.
  - destruct sep; [done|]. done.
  - cbn [split_str_from].
    destruct (String.prefix sep (String c s)).
    + intros _. simpl.
      pose proof (split_str_from_not_nil sep s (String.length sep - 1)).
      destruct (split_str_from sep s (String.length sep - 1)); [congruence|].
      simpl. lia.
    + intros H. specialize (IH H).
      destruct (split_str_from sep s 0); simpl in *; lia.
Qed.

Lemma truncate_length (n : nat) (s : string) :
  String.length (truncate n s) <= n.
Proof.
  revert s. induction n as [|n IH]; intros [|c s]; simpl; try lia.
  specialize (IH s). lia.
Qed.

End StringFacts.

(** ** The parser of the transformer's output *)

Section OutputParserFacts.

Import OutputParser OutputSpec.

Lemma for_each_not_index_error {A B : Type} (body : A -> B -> Outcome A)
    (l : list B) (a : A) :
  (forall a x, body a x ≠ Raise IndexError) ->
  for_each body l a ≠ Raise IndexError.
Proof.
  intros Hbody. revert a. induction l as [|x l IH]; intros a; simpl; [done|].
  destruct (body a x) as [a'|e] eqn:Hstep; simpl; [apply IH|].
  intros [= ->]. by apply (Hbody a x).
Qed.

Lemma for_each_invariant {A B : Type} (body : A -> B -> Outcome A)
    (I : A -> Prop) (l : list B) (a a' : A) :
  (forall a x a', I a -> body a x = Ok a' -> I a') ->
  I a -> for_each body l a = Ok a' -> I a'.
Proof.
  intros Hbody. revert a. induction l as [|x l IH]; intros a Ha; simpl.
  - by intros [= <-].
  - destruct (body a x) as [a1|e] eqn:Hstep; simpl; [|done].
    apply IH. by eapply Hbody.
Qed.

Lemma for_each_progress {A B : Type} (body : A -> B -> Outcome A)
    (I : A -> Prop) (l : list B) (a : A) :
  (forall a x, I a -> x ∈ l -> exists a', body a x = Ok a' /\ I a') ->
  I a -> exists a', for_each body l a = Ok a' /\ I a'.
Proof.
  revert a. induction l as [|x l IH]; intros a Hbody Ha; simpl; [by eauto|].
  destruct (Hbody a x Ha) as (a1 & -> & Ha1); [by apply elem_of_cons; left|].
  simpl. apply IH; [|done].
  intros a2 y Ha2 Hy. apply Hbody; [done|]. apply elem_of_cons. by right.
Qed.

Lemma item_in_range {A : Type} (l : list A) (i : nat) :
  i < length l -> exists a, item l i = Ok a.
Proof.
  intros Hi. unfold item.
  destruct (lookup_lt_is_Some_2 l i Hi) as [a ->]. by exists a.
Qed.

Lemma int10_not_index_error (s : string) : int10 s ≠ Raise IndexError.
Proof. unfold int10. by repeat case_match. Qed.

Lemma parse_output_line_not_index_error (stats : OutputStats) (line : string) :
  parse_output_line stats line ≠ Raise IndexError.
Proof.
  unfold parse_output_line.
  destruct (contains "Original shellcode size:" line) eqn:H1;
    [|destruct (contains "Modified shellcode size:" line) eqn:H2; [|done]].
  - destruct (item_in_range (split_char ":" line) 1) as [field ->].
    { apply split_char_two_parts.
      by eapply contains_trans; [|exact H1]. }
    simpl. pose proof (int10_not_index_error (strip field)).
    destruct (int10 (strip field)); simpl; congruence.
  - destruct (item_in_range (split_char ":" line) 1) as [field ->].
    { apply split_char_two_parts.
      by eapply contains_trans; [|exact H2]. }
    simpl. pose proof (int10_not_index_error (strip field)).
    destruct (int10 (strip field)); simpl; congruence.
Qed.

Lemma step_disasm_not_index_error (line : string) (stats : OutputStats) :
  step_disasm line stats ≠ Raise IndexError.
Proof.
  unfold step_disasm.
  destruct (contains _ line); [|done].
  destruct (Nat.leb_spec 3 (length (split_whitespace line))) as [Hlen|]; [|done].
  destruct (item_in_range (split_whitespace line) 2) as [part ->]; [lia|].
  simpl. pose proof (int10_not_index_error part).
  destruct (int10 part); simpl; congruence.
Qed.

Lemma step_strategy_ok (line : string) (stats : OutputStats) :
  exists stats', step_strategy line stats = Ok stats'.
Proof.
  unfold step_strategy.
  destruct (contains "[TRACE] Using strategy" line); [|by eauto].
  destruct (contains "'" line) eqn:Hq; [|by eauto].
  destruct (item_in_range (split_char "'" line) 1) as [name ->].
  { by apply split_char_two_parts. }
  simpl. case_bool_decide; eauto.
Qed.

Lemma step_warning_ok (line : string) (stats : OutputStats) :
  exists stats', step_warning line stats = Ok stats'.
Proof.
  unfold step_warning.
  destruct (contains "[WARNING]" line) eqn:Hw; [|by eauto].
  destruct (item_in_range (split_str "[WARNING]" line) 1) as [text ->].
  { by apply split_str_two_parts. }
  simpl. case_bool_decide; eauto.
Qed.

Lemma parse_error_line_not_index_error (stats : OutputStats) (line : string) :
  parse_error_line stats line ≠ Raise IndexError.
Proof.
  unfold parse_error_line.
  pose proof (step_disasm_not_index_error line stats) as Hd.
  destruct (step_disasm line stats) as [s1|e]; simpl; [|done].
  destruct (step_strategy_ok line s1) as [s2 ->]. simpl.
  destruct (step_warning_ok line s2) as [s3 ->]. done.
Qed.

(** X1.  [parse_byvalver_output] never fails on an index: each [split(...)[1]]
    and [parts[2]] it evaluates is guarded by a test that makes the index
    valid, so the only exception it can raise is the ValueError of [int]. *)
Theorem X1_parse_output_never_raises_index_error (output error : string) :
  parse_byvalver_output output error ≠ Raise IndexError.
Proof.
  unfold parse_byvalver_output.
  pose proof (for_each_not_index_error parse_output_line
                (split_char newline output) initial_output_stats
                parse_output_line_not_index_error) as Hout.
  destruct (for_each parse_output_line _ _) as [stats|e]; simpl; [|done].
  apply for_each_not_index_error, parse_error_line_not_index_error.
Qed.

(** Case analysis on a step of the parser that returned. *)
Ltac step_cases H :=
  unfold parse_output_line, step_disasm, step_strategy, step_warning,
    bind, item in H;
  repeat case_match; simplify_eq;
  cbn [original_size modified_size instructions_disassembled null_bytes_found
       strategies_applied warnings has_nulls_eliminated].

(** What each step leaves alone. *)
Lemma parse_output_line_keeps (stats stats' : OutputStats) (line : string) :
  parse_output_line stats line = Ok stats' ->
  instructions_disassembled stats' = instructions_disassembled stats /\
  null_bytes_found stats' = null_bytes_found stats /\
  strategies_applied stats' = strategies_applied stats /\
  warnings stats' = warnings stats /\
  has_nulls_eliminated stats' = has_nulls_eliminated stats.
Proof. intros H. by step_cases H. Qed.

Lemma step_disasm_keeps (stats stats' : OutputStats) (line : string) :
  step_disasm line stats = Ok stats' ->
  original_size stats' = original_size stats /\
  modified_size stats' = modified_size stats /\
  null_bytes_found stats' = null_bytes_found stats /\
  strategies_applied stats' = strategies_applied stats /\
  warnings stats' = warnings stats /\
  has_nulls_eliminated stats' = has_nulls_eliminated stats.
Proof. intros H. by step_cases H. Qed.

Lemma step_strategy_keeps (stats stats' : OutputStats) (line : string) :
  step_strategy line stats = Ok stats' ->
  original_size stats' = original_size stats /\
  modified_size stats' = modified_size stats /\
  instructions_disassembled stats' = instructions_disassembled stats /\
  null_bytes_found stats' = null_bytes_found stats /\
  warnings stats' = warnings stats /\
  has_nulls_eliminated stats' = has_nulls_eliminated stats /\
  (NoDup (strategies_applied stats) -> NoDup (strategies_applied stats')).
Proof.
  intros H. step_cases H; repeat split; try done.
  intros Hnd. apply NoDup_app. repeat split; [done| |apply NoDup_singleton].
  intros x Hx Hx'. apply list_elem_of_singleton in Hx' as ->.
  by case_bool_decide.
Qed.

Lemma step_warning_keeps (stats stats' : OutputStats) (line : string) :
  step_warning line stats = Ok stats' ->
  original_size stats' = original_size stats /\
  modified_size stats' = modified_size stats /\
  instructions_disassembled stats' = instructions_disassembled stats /\
  null_bytes_found stats' = null_bytes_found stats /\
  strategies_applied stats' = strategies_applied stats /\
  has_nulls_eliminated stats' = has_nulls_eliminated stats /\
  (NoDup (warnings stats) -> NoDup (warnings stats')) /\
  (Forall (fun w => String.length w <= 100) (warnings stats) ->
   Forall (fun w => String.length w <= 100) (warnings stats')).
Proof.
  intros H. step_cases H; repeat split; try done.
  - intros Hnd. apply NoDup_app. repeat split; [done| |apply NoDup_singleton].
    intros x Hx Hx'. apply list_elem_of_singleton in Hx' as ->.
    by case_bool_decide.
  - intros Hall. apply Forall_app. split; [done|].
    constructor; [apply truncate_length|constructor].
Qed.

(** A line of stderr that is parsed goes through the five steps in order. *)
Lemma parse_error_line_steps (stats stats' : OutputStats) (line : string) :
  parse_error_line stats line = Ok stats' ->
  exists s1 s2 s3,
    step_disasm line stats = Ok s1 /\
    step_strategy line s1 = Ok s2 /\
    step_warning line s2 = Ok s3 /\
    stats' = step_eliminated line (step_has_null line s3).
Proof.
  unfold parse_error_line. intros H.
  destruct (step_disasm line stats) as [s1|] eqn:H1; simpl in H; [|done].
  destruct (step_strategy line s1) as [s2|] eqn:H2; simpl in H; [|done].
  destruct (step_warning line s2) as [s3|] eqn:H3; simpl in H; [|done].
  injection H as <-. by exists s1, s2, s3.
Qed.

Lemma step_tail_keeps (stats : OutputStats) (line : string) :
  let stats' := step_eliminated line (step_has_null line stats) in
  original_size stats' = original_size stats /\
  modified_size stats' = modified_size stats /\
  instructions_disassembled stats' = instructions_disassembled stats /\
  strategies_applied stats' = strategies_applied stats /\
  warnings stats' = warnings stats /\
  null_bytes_found stats'
  = (null_bytes_found stats
     + if contains "has_null=1" line then 1 else 0)%Z /\
  has_nulls_eliminated stats'
  = has_nulls_eliminated stats || mentions_elimination line.
Proof.
  unfold step_eliminated, step_has_null, mentions_elimination.
  destruct (contains "has_null=1" line),
    (contains "eliminated" (lower line) || contains "transformed" (lower line));
    simpl; rewrite ?orb_true_r, ?orb_false_r; repeat split; lia.
Qed.

Lemma parse_error_line_well_formed (stats stats' : OutputStats) (line : string) :
  lists_well_formed stats -> parse_error_line stats line = Ok stats' ->
  lists_well_formed stats'.
Proof.
  intros (Hs & Hw & Hlen) H.
  destruct (parse_error_line_steps _ _ _ H) as (s1 & s2 & s3 & H1 & H2 & H3 & ->).
  destruct (step_disasm_keeps _ _ _ H1) as (_ & _ & _ & Es1 & Ew1 & _).
  destruct (step_strategy_keeps _ _ _ H2) as (_ & _ & _ & _ & Ew2 & _ & Hnd2).
  destruct (step_warning_keeps _ _ _ H3)
    as (_ & _ & _ & _ & Es3 & _ & Hnd3 & Hlen3).
  destruct (step_tail_keeps s3 line) as (_ & _ & _ & Es4 & Ew4 & _).
  unfold lists_well_formed. rewrite Es4, Ew4, Es3.
  rewrite Es1 in Hnd2. rewrite Ew2, Ew1 in Hnd3, Hlen3. auto.
Qed.

Lemma parse_output_line_well_formed (stats stats' : OutputStats) (line : string) :
  lists_well_formed stats -> parse_output_line stats line = Ok stats' ->
  lists_well_formed stats'.
Proof.
  intros Hwf H.
  destruct (parse_output_line_keeps _ _ _ H) as (_ & _ & Es & Ew & _).
  unfold lists_well_formed. by rewrite Es, Ew.
Qed.

(** X2.  Whenever [parse_byvalver_output] returns, no strategy name and no
    warning is listed twice, and no warning is longer than 100 characters. *)
Theorem X2_parsed_lists_are_deduplicated_and_bounded
    (output error : string) (stats : OutputStats) :
  parse_byvalver_output output error = Ok stats ->
  NoDup (strategies_applied stats) /\
  NoDup (warnings stats) /\
  Forall (fun w => String.length w <= 100) (warnings stats).
Proof.
  unfold parse_byvalver_output. intros H.
  destruct (for_each parse_output_line _ _) as [s0|] eqn:Hout; [|done].
  simpl in H.
  assert (Hwf0 : lists_well_formed s0).
  { eapply (for_each_invariant parse_output_line lists_well_formed);
      [intros a x a'; apply parse_output_line_well_formed| |exact Hout].
    repeat split; constructor. }
  eapply (for_each_invariant parse_error_line lists_well_formed);
    [intros a x a'; apply parse_error_line_well_formed|exact Hwf0|exact H].
Qed.

Lemma X2_witness :
  NoDup (strategies_applied sample_stats) /\
  NoDup (warnings sample_stats) /\
  Forall (fun w => String.length w <= 100) (warnings sample_stats).
Proof.
  apply (X2_parsed_lists_are_deduplicated_and_bounded sample_output
           sample_error sample_stats).
  by vm_compute.
Defined.

(** The lists of a returned result are well formed. *)
Lemma parse_byvalver_output_well_formed (output error : string)
    (stats : OutputStats) :
  parse_byvalver_output output error = Ok stats -> lists_well_formed stats.
Proof.
  unfold parse_byvalver_output. intros H.
  destruct (for_each parse_output_line _ _) as [s0|] eqn:Hout; [|done].
  simpl in H.
  assert (Hwf0 : lists_well_formed s0).
  { eapply (for_each_invariant parse_output_line lists_well_formed);
      [intros a x a'; apply parse_output_line_well_formed| |exact Hout].
    repeat split; constructor. }
  eapply (for_each_invariant parse_error_line lists_well_formed);
    [intros a x a'; apply parse_error_line_well_formed|exact Hwf0|exact H].
Qed.

(** What the stderr loop adds to the count of null bytes and to the flag. *)
Lemma error_loop_summary (lines : list string) (stats stats' : OutputStats) :
  for_each parse_error_line lines stats = Ok stats' ->
  null_bytes_found stats'
  = (null_bytes_found stats
     + Z.of_nat (length (filter (fun line => contains "has_null=1" line = true)
                           lines)))%Z /\
  has_nulls_eliminated stats'
  = has_nulls_eliminated stats || existsb mentions_elimination lines.
Proof.
  revert stats. induction lines as [|line lines IH]; intros stats; simpl.
  - intros [= <-]. rewrite orb_false_r. split; [lia|done].
  - destruct (parse_error_line stats line) as [s|] eqn:Hline; [|done].
    simpl. intros H. destruct (IH _ H) as [IHn IHf].
    destruct (parse_error_line_steps _ _ _ Hline)
      as (s1 & s2 & s3 & H1 & H2 & H3 & ->).
    destruct (step_disasm_keeps _ _ _ H1) as (_ & _ & En1 & _ & _ & Ef1).
    destruct (step_strategy_keeps _ _ _ H2) as (_ & _ & _ & En2 & _ & Ef2 & _).
    destruct (step_warning_keeps _ _ _ H3) as (_ & _ & _ & En3 & _ & Ef3 & _).
    destruct (step_tail_keeps s3 line) as (_ & _ & _ & _ & _ & En4 & Ef4).
    rewrite IHn, IHf, En4, Ef4, En3, Ef3, En2, Ef2, En1, Ef1.
    split; [|by rewrite orb_assoc].
    destruct (contains "has_null=1" line) eqn:Hc.
    + rewrite filter_cons_True by done. simpl length. lia.
    + rewrite filter_cons_False by (by rewrite Hc). lia.
Qed.

Lemma output_loop_keeps (lines : list string) (stats stats' : OutputStats) :
  for_each parse_output_line lines stats = Ok stats' ->
  instructions_disassembled stats' = instructions_disassembled stats /\
  null_bytes_found stats' = null_bytes_found stats /\
  has_nulls_eliminated stats' = has_nulls_eliminated stats.
Proof.
  apply (for_each_invariant parse_output_line
           (fun s => instructions_disassembled s = instructions_disassembled stats
                     /\ null_bytes_found s = null_bytes_found stats
                     /\ has_nulls_eliminated s = has_nulls_eliminated stats));
    [|done].
  intros a x a' (E1 & E2 & E3) H.
  destruct (parse_output_line_keeps _ _ _ H) as (K1 & K2 & _ & _ & K3).
  by rewrite K1, K2, K3.
Qed.

(** X3.  Whenever [parse_byvalver_output] returns, [null_bytes_found] is the
    number of stderr lines that contain [has_null=1]; stdout plays no part. *)
Theorem X3_null_bytes_found_counts_marked_lines
    (output error : string) (stats : OutputStats) :
  parse_byvalver_output output error = Ok stats ->
  null_bytes_found stats = Z.of_nat (count_lines "has_null=1" error).
Proof.
  unfold parse_byvalver_output. intros H.
  destruct (for_each parse_output_line _ _) as [s0|] eqn:Hout; [|done].
  simpl in H.
  destruct (output_loop_keeps _ _ _ Hout) as (_ & En & _).
  destruct (error_loop_summary _ _ _ H) as [Hn _].
  rewrite Hn, En. unfold count_lines. simpl. lia.
Qed.

Lemma X3_witness :
  null_bytes_found sample_stats
  = Z.of_nat (count_lines "has_null=1" sample_error).
Proof.
  apply (X3_null_bytes_found_counts_marked_lines sample_output sample_error
           sample_stats).
  by vm_compute.
Defined.

(** X4.  Whenever [parse_byvalver_output] returns, [has_nulls_eliminated] is
    set exactly when some stderr line, put in lower case, contains
    [eliminated] or [transformed]. *)
Theorem X4_elimination_flag_is_case_insensitive_search
    (output error : string) (stats : OutputStats) :
  parse_byvalver_output output error = Ok stats ->
  has_nulls_eliminated stats
  = existsb mentions_elimination (split_char newline error).
Proof.
  unfold parse_byvalver_output. intros H.
  destruct (for_each parse_output_line _ _) as [s0|] eqn:Hout; [|done].
  simpl in H.
  destruct (output_loop_keeps _ _ _ Hout) as (_ & _ & Ef).
  destruct (error_loop_summary _ _ _ H) as [_ Hf].
  by rewrite Hf, Ef.
Qed.

Lemma X4_witness :
  has_nulls_eliminated sample_stats
  = existsb mentions_elimination (split_char newline sample_error).
Proof.
  apply (X4_elimination_flag_is_case_insensitive_search sample_output
           sample_error sample_stats).
  by vm_compute.
Defined.

(** X5.  Text without a size line on stdout and without a disassembly line
    on stderr never makes [parse_byvalver_output] raise: it returns, with
    both sizes and the instruction count left at 0. *)
Theorem X5_text_without_numeric_markers_is_parsed
    (output error : string) :
  Forall (fun line => has_size_marker line = false)
    (split_char newline output) ->
  Forall (fun line => has_disasm_marker line = false)
    (split_char newline error) ->
  exists stats,
    parse_byvalver_output output error = Ok stats /\
    original_size stats = 0%Z /\ modified_size stats = 0%Z /\
    instructions_disassembled stats = 0%Z.
Proof.
  intros Hout Herr. unfold parse_byvalver_output.
  assert (Hfirst :
    for_each parse_output_line (split_char newline output) initial_output_stats
    = Ok initial_output_stats).
  { destruct (for_each_progress parse_output_line
                (fun s => s = initial_output_stats)
                (split_char newline output) initial_output_stats)
      as (s & Hs & ->); [|done|done].
    intros a line -> Hline. exists initial_output_stats. split; [|done].
    rewrite Forall_forall in Hout. specialize (Hout line Hline).
    unfold has_size_marker in Hout. apply orb_false_iff in Hout as [H1 H2].
    unfold parse_output_line. by rewrite H1, H2. }
  rewrite Hfirst. simpl.
  apply (for_each_progress parse_error_line
           (fun s => original_size s = 0%Z /\ modified_size s = 0%Z /\
                     instructions_disassembled s = 0%Z)); [|done].
  intros a line (E1 & E2 & E3) Hline.
  rewrite Forall_forall in Herr. specialize (Herr line Hline).
  unfold has_disasm_marker in Herr.
  unfold parse_error_line, step_disasm. rewrite Herr. simpl.
  destruct (step_strategy_ok line a) as [s2 H2]. rewrite H2. simpl.
  destruct (step_warning_ok line s2) as [s3 H3]. rewrite H3. simpl.
  eexists. split; [done|].
  destruct (step_strategy_keeps _ _ _ H2) as (K1 & K2 & K3 & _).
  destruct (step_warning_keeps _ _ _ H3) as (L1 & L2 & L3 & _).
  destruct (step_tail_keeps s3 line) as (M1 & M2 & M3 & _).
  rewrite M1, M2, M3, L1, L2, L3, K1, K2, K3. done.
Qed.

Lemma X5_witness :
  exists stats,
    parse_byvalver_output plain_output plain_error = Ok stats /\
    original_size stats = 0%Z /\ modified_size stats = 0%Z /\
    instructions_disassembled stats = 0%Z.
Proof.
  apply (X5_text_without_numeric_markers_is_parsed plain_output plain_error).
  - change (split_char newline plain_output) with ["byvalver 3.0"; "done"].
    repeat (constructor; [by vm_compute|]). constructor.
  - change (split_char newline plain_error)
      with ["[TRACE] Using strategy 'push_pop'"; "[WARNING] nothing to do"].
    repeat (constructor; [by vm_compute|]). constructor.
Defined.

End OutputParserFacts.

(** ** More on the analyzer's result *)

Section AnalyzerExtras.

Implicit Types (data : list Z) (bad_chars : option (gset Z)).

(** X6.  Each reported run is a non-empty slice of the data, starting at the
    run's offset, made of bad bytes only, and it cannot be extended: the
    byte before it and the byte after it, when they exist, are not bad. *)
Theorem X6_reported_runs_are_maximal data bad_chars q :
  q ∈ bad_char_sequences (analyze_shellcode_for_bad_chars data bad_chars) ->
  0 < seq_length q /\
  seq_start q + seq_length q <= length data /\
  seq_bytes q = take (seq_length q) (drop (seq_start q) data) /\
  Forall (fun x => x ∈ bad_chars_or_default bad_chars) (seq_bytes q) /\
  (forall x, data !! (seq_start q + seq_length q) = Some x ->
     x ∉ bad_chars_or_default bad_chars) /\
  (forall p x, seq_start q = S p -> data !! p = Some x ->
     x ∉ bad_chars_or_default bad_chars).
Proof.
  intros Hq.
  destruct (RunsOf_maximal _ _ _ _ (analyze_runs data bad_chars) q Hq)
    as (_ & Hpos & Hlen & Hall & Htake & Hright & Hleft).
  rewrite Nat.sub_0_r in *.
  repeat split; try done.
  assert (Hl : length (take (seq_length q) (drop (seq_start q) data))
               = seq_length q) by (by rewrite Htake).
  rewrite length_take, length_drop in Hl. lia.
Qed.

Lemma X6_witness :
  0 < seq_length (mkSequence 3 2 [10; 0]%Z) /\
  seq_start (mkSequence 3 2 [10; 0]%Z) + seq_length (mkSequence 3 2 [10; 0]%Z)
  <= length [0; 0; 1; 10; 0; 5; 10]%Z /\
  seq_bytes (mkSequence 3 2 [10; 0]%Z)
  = take (seq_length (mkSequence 3 2 [10; 0]%Z))
      (drop (seq_start (mkSequence 3 2 [10; 0]%Z)) [0; 0; 1; 10; 0; 5; 10]%Z) /\
  Forall (fun x => x ∈ bad_chars_or_default (Some {[ 0%Z; 10%Z ]}))
    (seq_bytes (mkSequence 3 2 [10; 0]%Z)) /\
  (forall x,
     [0; 0; 1; 10; 0; 5; 10]%Z
       !! (seq_start (mkSequence 3 2 [10; 0]%Z)
           + seq_length (mkSequence 3 2 [10; 0]%Z)) = Some x ->
     x ∉ bad_chars_or_default (Some {[ 0%Z; 10%Z ]})) /\
  (forall p x, seq_start (mkSequence 3 2 [10; 0]%Z) = S p ->
     [0; 0; 1; 10; 0; 5; 10]%Z !! p = Some x ->
     x ∉ bad_chars_or_default (Some {[ 0%Z; 10%Z ]})).
Proof.
  apply (X6_reported_runs_are_maximal [0; 0; 1; 10; 0; 5; 10]%Z
           (Some {[ 0%Z; 10%Z ]}) (mkSequence 3 2 [10; 0]%Z)).
  vm_compute. apply elem_of_cons. right. apply elem_of_cons. by left.
Defined.

(** X7.  Each bad byte of the data lies inside a reported run. *)
Theorem X7_every_bad_byte_is_in_a_run data bad_chars i x :
  data !! i = Some x -> x ∈ bad_chars_or_default bad_chars ->
  exists q,
    q ∈ bad_char_sequences (analyze_shellcode_for_bad_chars data bad_chars) /\
    seq_start q <= i < seq_start q + seq_length q.
Proof.
  intros Hi Hx.
  destruct (RunsOf_covers _ _ _ _ (analyze_runs data bad_chars) i x Hi Hx)
    as (q & Hq & Hr).
  by exists q.
Qed.

Lemma X7_witness :
  exists q,
    q ∈ bad_char_sequences
          (analyze_shellcode_for_bad_chars [0; 0; 1; 10; 0; 5; 10]%Z
             (Some {[ 0%Z; 10%Z ]})) /\
    seq_start q <= 4 < seq_start q + seq_length q.
Proof.
  apply (X7_every_bad_byte_is_in_a_run [0; 0; 1; 10; 0; 5; 10]%Z
           (Some {[ 0%Z; 10%Z ]}) 4 0%Z); [reflexivity|].
  apply elem_of_union. left. by apply elem_of_singleton.
Defined.

Lemma RunsOf_pairwise_apart (bad : gset Z) off l seqs :
  RunsOf bad off l seqs ->
  forall k1 k2 q1 q2, k1 < k2 ->
    seqs !! k1 = Some q1 -> seqs !! k2 = Some q2 ->
    seq_start q1 + seq_length q1 < seq_start q2.
Proof.
  induction 1 as [off gap Hgap|off gap run rest seqs Hgap Hne Hrun Hhd Hrest IH];
    intros k1 k2 q1 q2 Hlt H1 H2; [done|].
  destruct k2 as [|k2]; [lia|]. simpl in H2.
  destruct k1 as [|k1]; simpl in H1.
  - injection H1 as <-. simpl.
    apply (RunsOf_start_gt _ _ _ _ Hrest Hhd).
    by eapply list_elem_of_lookup_2.
  - apply (IH k1 k2); [lia|done..].
Qed.

(** X8.  The runs are reported in ascending order and never touch: a later
    run starts at least one byte after an earlier run ends. *)
Theorem X8_runs_are_ordered_and_apart data bad_chars k1 k2 q1 q2 :
  k1 < k2 ->
  bad_char_sequences (analyze_shellcode_for_bad_chars data bad_chars) !! k1
  = Some q1 ->
  bad_char_sequences (analyze_shellcode_for_bad_chars data bad_chars) !! k2
  = Some q2 ->
  seq_start q1 + seq_length q1 < seq_start q2.
Proof. apply (RunsOf_pairwise_apart _ _ _ _ (analyze_runs data bad_chars)). Qed.

Lemma X8_witness :
  seq_start (mkSequence 0 2 [0; 0]%Z) + seq_length (mkSequence 0 2 [0; 0]%Z)
  < seq_start (mkSequence 6 1 [10]%Z).
Proof.
  apply (X8_runs_are_ordered_and_apart [0; 0; 1; 10; 0; 5; 10]%Z
           (Some {[ 0%Z; 10%Z ]}) 0 2); [lia|reflexivity..].
Defined.

(** X9.  The lengths of the reported runs add up to the number of bad bytes
    of the data, which is at most [total_bytes]. *)
Theorem X9_run_lengths_add_up_to_bad_bytes data bad_chars :
  let a := analyze_shellcode_for_bad_chars data bad_chars in
  sum_list (seq_length <$> bad_char_sequences a)
  = count_bad (bad_chars_or_default bad_chars) data /\
  count_bad (bad_chars_or_default bad_chars) data <= total_bytes a.
Proof.
  cbv zeta. split; [apply analyze_sum_of_run_lengths|].
  destruct (analyze_spec data bad_chars) as (seqs & _ & ->). simpl.
  unfold count_bad. apply length_filter.
Qed.

(** X10.  [max_consecutive_bad_chars] is the length of a longest reported
    run: no run is longer, some run has that length when there is one, and
    it is 0 exactly when the data has no bad byte. *)
Theorem X10_max_consecutive_is_longest_run data bad_chars :
  let a := analyze_shellcode_for_bad_chars data bad_chars in
  (forall q, q ∈ bad_char_sequences a ->
     seq_length q <= max_consecutive_bad_chars a) /\
  (bad_char_sequences a ≠ [] ->
     exists q, q ∈ bad_char_sequences a /\
       seq_length q = max_consecutive_bad_chars a) /\
  (max_consecutive_bad_chars a = 0
   <-> count_bad (bad_chars_or_default bad_chars) data = 0).
Proof.
  cbv zeta.
  destruct (analyze_max_consecutive data bad_chars) as (Hle & Hnil & Hmax).
  split; [done|]. split; [done|].
  rewrite count_bad_zero,
    <- (RunsOf_nil_iff _ _ _ _ (analyze_runs data bad_chars)).
  split.
  - intros Hzero.
    destruct (bad_char_sequences (analyze_shellcode_for_bad_chars data bad_chars))
      as [|q seqs] eqn:Hseqs; [done|].
    exfalso.
    assert (Hqle := Hle q ltac:(apply elem_of_cons; by left)).
    destruct (analyze_runs_maximal data bad_chars q) as [Hpos _];
      [rewrite Hseqs; apply elem_of_cons; by left|].
    lia.
  - apply Hnil.
Qed.

(** X11.  [bad_char_count] is the number of reported runs, not the number of
    bad bytes: it is at most the number of bad bytes and it is 0 exactly
    when the data has no bad byte. *)
Theorem X11_bad_char_count_is_the_number_of_runs data bad_chars :
  let a := analyze_shellcode_for_bad_chars data bad_chars in
  bad_char_count a = length (bad_char_sequences a) /\
  bad_char_count a <= count_bad (bad_chars_or_default bad_chars) data /\
  (bad_char_count a = 0
   <-> count_bad (bad_chars_or_default bad_chars) data = 0).
Proof.
  cbv zeta. split; [apply analyze_count_is_number_of_runs|].
  split; [apply analyze_count_le|apply analyze_count_zero_iff].
Qed.

Lemma record_starts_lookup_None (seqs : list Sequence)
    (m : gmap Z (list nat)) b :
  m !! b = None -> record_starts seqs m !! b = None.
Proof.
  revert m. induction seqs as [|q seqs IH]; intros m Hm; [done|].
  rewrite record_starts_cons. apply IH.
  destruct (seq_bytes q) as [|x bs]; [done|].
  unfold append_position. rewrite lookup_alter. case_decide; [|done].
  subst. by rewrite Hm.
Qed.

(** X12.  The keys of [bad_char_positions] are exactly the members of the
    bad-character set, also those that never occur, and every offset stored
    under a byte value is an offset at which the data holds that value. *)
Theorem X12_positions_are_keyed_by_the_set_and_sound data bad_chars :
  let a := analyze_shellcode_for_bad_chars data bad_chars in
  dom (bad_char_positions a) = bad_chars_or_default bad_chars /\
  (forall b offsets i,
     bad_char_positions a !! b = Some offsets -> i ∈ offsets ->
     data !! i = Some b).
Proof.
  cbv zeta. split.
  - apply set_eq. intros b. rewrite elem_of_dom.
    destruct (decide (b ∈ bad_chars_or_default bad_chars)) as [Hb|Hb].
    + by rewrite (analyze_positions data bad_chars b Hb).
    + split; [|done]. intros [ps Hps]. exfalso.
      destruct (analyze_spec data bad_chars) as (seqs & _ & Heq).
      rewrite Heq in Hps. simpl in Hps.
      rewrite record_starts_lookup_None in Hps; [done|].
      by rewrite init_positions_lookup, decide_False.
  - intros b offsets i Hlook Hi.
    assert (Hb : b ∈ bad_chars_or_default bad_chars).
    { destruct (decide (b ∈ bad_chars_or_default bad_chars)); [done|].
      exfalso.
      destruct (analyze_spec data bad_chars) as (seqs & _ & Heq).
      rewrite Heq in Hlook. simpl in Hlook.
      rewrite record_starts_lookup_None in Hlook; [done|].
      by rewrite init_positions_lookup, decide_False. }
    rewrite (analyze_positions data bad_chars b Hb) in Hlook.
    injection Hlook as <-.
    apply list_elem_of_fmap in Hi as (q & -> & Hq).
    apply list_elem_of_filter in Hq as [Hhead Hq].
    destruct (analyze_runs_maximal data bad_chars q Hq)
      as (_ & Hbytes & _).
    rewrite Hbytes in Hhead.
    rewrite head_lookup, lookup_take_Some in Hhead.
    destruct Hhead as [Hhead _]. by rewrite lookup_drop, Nat.add_0_r in Hhead.
Qed.

End AnalyzerExtras.

(** ** The printed bad-character list and the parser *)

Section DisplayRoundTrip.

Import Cli CliSpec ParseSpec.

Lemma split_comma_comma_free (s : string) :
  comma_free s = true -> split_comma s = [s].
Proof.
  induction s as [|c s IH]; simpl; [done|].
  destruct (Ascii.eqb c ","); [done|]. simpl. intros H. by rewrite IH.
Qed.

Lemma split_comma_append (s rest : string) :
  comma_free s = true ->
  split_comma (s +:+ String "," rest) = s :: split_comma rest.
Proof.
  induction s as [|c s IH]; [done|].
  rewrite append_cons. simpl.
  destruct (Ascii.eqb c ","); [done|]. simpl. intros H. by rewrite IH.
Qed.

(** Joining comma-free items with commas and splitting again is the
    identity. *)
Lemma split_comma_concat (items : list string) :
  items ≠ [] -> Forall (fun s => comma_free s = true) items ->
  split_comma (String.concat "," items) = items.
Proof.
  induction items as [|x items IH]; [done|]. intros _ Hall.
  apply Forall_cons in Hall as [Hx Hall].
  destruct items as [|y items]; [by apply split_comma_comma_free|].
  change (String.concat "," (x :: y :: items))
    with (x +:+ String "," (String.concat "," (y :: items))).
  rewrite split_comma_append by done. f_equal. by apply IH.
Qed.

Lemma all_bytes_print_and_parse_back :
  forallb prints_and_parses_back (Z.of_nat <$> seq 0 256) = true.
Proof. by vm_compute. Qed.

Lemma byte_prints_and_parses_back (v : Z) :
  (0 <= v <= 255)%Z -> prints_and_parses_back v = true.
Proof.
  intros Hv.
  pose proof all_bytes_print_and_parse_back as Hall.
  rewrite forallb_forall in Hall. apply Hall.
  apply list_elem_of_In, list_elem_of_fmap. exists (Z.to_nat v).
  split; [lia|]. apply elem_of_seq. lia.
Qed.

(** X13.  The bad-character list the verifier prints can be given back on
    the command line: for a non-empty set of byte values in [0,255],
    [parse_bad_chars] of the printed list is the set itself, without any
    warning. *)
Theorem X13_printed_bad_chars_parse_back (bad_chars : gset Z) :
  bad_chars ≠ ∅ ->
  (forall v, v ∈ bad_chars -> (0 <= v <= 255)%Z) ->
  parse_bad_chars (bad_chars_str bad_chars) = (bad_chars, []).
Proof.
  intros Hne Hrange.
  set (sorted := merge_sort Z.le (elements bad_chars)).
  assert (Hperm : sorted ≡ₚ elements bad_chars) by apply merge_sort_Permutation.
  assert (Hin : forall v, v ∈ sorted -> prints_and_parses_back v = true).
  { intros v Hv. apply byte_prints_and_parses_back, Hrange.
    rewrite Hperm in Hv. by apply elem_of_elements in Hv. }
  assert (Hsplit : split_comma (bad_chars_str bad_chars)
                   = (fun b => "0x" +:+ format_02x b) <$> sorted).
  { unfold bad_chars_str. fold sorted. apply split_comma_concat.
    - intros Hnil. apply fmap_nil_inv in Hnil.
      rewrite Hnil in Hperm. symmetry in Hperm.
      apply Permutation_nil_r, elements_empty_iff in Hperm.
      apply Hne. by apply leibniz_equiv.
    - apply Forall_fmap, Forall_forall. intros v Hv. simpl.
      specialize (Hin v Hv). unfold prints_and_parses_back in Hin.
      by apply andb_true_iff in Hin as [[H1 _]%andb_true_iff _]. }
  assert (Hvalues : omap part_value (split_comma (bad_chars_str bad_chars))
                    = sorted).
  { rewrite Hsplit. clear Hsplit Hperm.
    induction sorted as [|v l IH]; [done|].
    rewrite fmap_cons. cbn [omap list_omap].
    assert (Hv := Hin v ltac:(apply elem_of_cons; by left)).
    unfold prints_and_parses_back in Hv.
    apply andb_true_iff in Hv as [[_ Hv]%andb_true_iff _].
    apply bool_decide_eq_true in Hv. rewrite Hv.
    f_equal. apply IH. intros w Hw. apply Hin, elem_of_cons. by right. }
  assert (Hwarn : omap part_warning (split_comma (bad_chars_str bad_chars))
                  = []).
  { rewrite Hsplit. clear Hsplit Hperm Hvalues.
    induction sorted as [|v l IH]; [done|].
    rewrite fmap_cons. cbn [omap list_omap].
    assert (Hv := Hin v ltac:(apply elem_of_cons; by left)).
    unfold prints_and_parses_back in Hv.
    apply andb_true_iff in Hv as [_ Hv].
    apply bool_decide_eq_true in Hv. rewrite Hv.
    apply IH. intros w Hw. apply Hin, elem_of_cons. by right. }
  assert (Hset : list_to_set sorted = bad_chars).
  { transitivity (list_to_set (C:=gset Z) (elements bad_chars));
      [apply list_to_set_perm_L, Hperm|apply list_to_set_elements_L]. }
  rewrite parse_bad_chars_spec. unfold valid_values, warnings_of.
  rewrite Hvalues, Hwarn, Hset.
  by rewrite decide_False.
Qed.

Lemma X13_witness :
  parse_bad_chars (bad_chars_str {[ 0%Z; 10%Z; 13%Z; 255%Z ]})
  = ({[ 0%Z; 10%Z; 13%Z; 255%Z ]}, []).
Proof.
  apply (X13_printed_bad_chars_parse_back {[ 0%Z; 10%Z; 13%Z; 255%Z ]}).
  - intros H. assert (Hin : 0%Z ∈ ({[ 0%Z; 10%Z; 13%Z; 255%Z ]} : gset Z)).
    { apply elem_of_union. left. apply elem_of_union. left.
      apply elem_of_union. left. by apply elem_of_singleton. }
    rewrite H in Hin. by apply not_elem_of_empty in Hin.
  - intros v Hv.
    repeat (apply elem_of_union in Hv as [Hv|Hv]);
      apply elem_of_singleton in Hv; subst; lia.
Defined.

(** X14.  [parse_bad_chars] never returns the empty set, whatever the
    string: the analyzer is never run with nothing to look for. *)
Theorem X14_parsed_set_is_never_empty (s : string) :
  fst (parse_bad_chars s) ≠ ∅.
Proof.
  rewrite parse_bad_chars_spec. simpl. case_decide as Hempty; [|done].
  intros H. assert (Hin : 0%Z ∈ ({[ 0%Z ]} : gset Z)) by by apply elem_of_singleton.
  rewrite H in Hin. by apply not_elem_of_empty in Hin.
Qed.

End DisplayRoundTrip.

(** ** More on the verification engine *)

Section VerifyExtras.

Import Verify BatchSpec Examples.

Lemma count_bad_zero_mono (small large : gset Z) (l : list Z) :
  small ⊆ large -> count_bad large l = 0 -> count_bad small l = 0.
Proof.
  rewrite !count_bad_zero. intros Hsub Hall.
  eapply Forall_impl; [exact Hall|]. intros x Hx Hx'. apply Hx. set_solver.
Qed.

(** X15.  Without a processed path the engine audits the original alone:
    for a readable original the verdict is pass exactly when the original
    holds no bad byte. *)
Theorem X15_audit_only_verdict
    (fs : FileSystem) (input_file : string) (bad_chars : option (gset Z))
    (original : list Z) :
  read_file fs input_file = Returned original ->
  verify_bad_char_elimination fs input_file None bad_chars
  = Returned
      (bool_decide (count_bad (bad_chars_or_default bad_chars) original = 0)).
Proof.
  intros Hrd. unfold verify_bad_char_elimination.
  destruct (path_exists fs input_file) eqn:Hex.
  - cbn [negb]. rewrite Hrd, analyze_with_resolved_set. f_equal.
    destruct (Nat.eqb_spec
                (bad_char_count
                   (analyze_shellcode_for_bad_chars original bad_chars)) 0)
      as [Heq|Hne].
    + by rewrite bool_decide_eq_true_2 by by apply analyze_count_zero_iff.
    + rewrite bool_decide_eq_false_2; [done|].
      by rewrite <- analyze_count_zero_iff.
  - exfalso. unfold path_exists, read_file in *.
    by destruct (fs input_file) as [| |[] ?].
Qed.

Lemma X15_witness :
  verify_bad_char_elimination verify_disk "dirty.bin" None None
  = Returned (bool_decide (count_bad (bad_chars_or_default None) [0; 2]%Z = 0)).
Proof.
  apply (X15_audit_only_verdict verify_disk "dirty.bin" None [0; 2]%Z).
  reflexivity.
Defined.

(** X16.  A pass verdict survives dropping bad characters from the set: if
    the engine passes a pair of files for a set, it passes it for every
    subset. *)
Theorem X16_pass_verdict_is_kept_for_a_smaller_set
    (fs : FileSystem) (input_file : string) (output_file : option string)
    (small large : gset Z) :
  small ⊆ large ->
  verify_bad_char_elimination fs input_file output_file (Some large)
  = Returned true ->
  verify_bad_char_elimination fs input_file output_file (Some small)
  = Returned true.
Proof.
  intros Hsub. unfold verify_bad_char_elimination.
  destruct (path_exists fs input_file); cbn [negb]; [|done].
  destruct (read_file fs input_file) as [original|e]; [|done].
  assert (Hzero : forall data,
    (bad_char_count (analyze_shellcode_for_bad_chars data (Some large)) =? 0)
    = true ->
    (bad_char_count (analyze_shellcode_for_bad_chars data (Some small)) =? 0)
    = true).
  { intros data H. apply Nat.eqb_eq in H. apply Nat.eqb_eq.
    apply analyze_count_zero_iff. apply analyze_count_zero_iff in H.
    by eapply count_bad_zero_mono. }
  destruct output_file as [output_file|].
  - destruct (path_exists fs output_file); cbn [negb]; [|done].
    destruct (read_file fs output_file) as [processed|e]; [|done].
    cbn [bad_chars_or_default].
    destruct (bad_char_count
                (analyze_shellcode_for_bad_chars processed (Some large)) =? 0)
      eqn:Hl; [|done].
    by rewrite (Hzero processed Hl).
  - cbn [bad_chars_or_default]. intros [= H]. by rewrite (Hzero original H).
Qed.

Lemma X16_witness :
  verify_bad_char_elimination verify_disk "orig.bin" (Some "clean.bin")
    (Some {[ 0%Z ]})
  = Returned true.
Proof.
  apply (X16_pass_verdict_is_kept_for_a_smaller_set verify_disk "orig.bin"
           (Some "clean.bin") {[ 0%Z ]} {[ 0%Z; 10%Z ]}).
  - apply union_subseteq_l.
  - by vm_compute.
Defined.

(** An exception of the engine is the exception of reading a file that
    exists. *)
Lemma verify_raised_inv
    (fs : FileSystem) (input_file : string) (output_file : option string)
    (bad_chars : option (gset Z)) (e : OSError) :
  verify_bad_char_elimination fs input_file output_file bad_chars = Raised e ->
  exists path,
    (path = input_file \/ output_file = Some path) /\
    path_exists fs path = true /\ read_file fs path = Raised e.
Proof.
  intros H. unfold verify_bad_char_elimination in H.
  destruct (path_exists fs input_file) eqn:Hex; cbn [negb] in H; [|done].
  destruct (read_file fs input_file) as [original|e1] eqn:Hrd.
  - destruct output_file as [o|]; [|done].
    destruct (path_exists fs o) eqn:Hexo; cbn [negb] in H; [|done].
    destruct (read_file fs o) as [processed|e2] eqn:Hrdo.
    + by destruct (_ =? 0).
    + injection H as ->. exists o. auto.
  - injection H as ->. exists input_file. auto.
Qed.

(** X17.  The engine raises only while reading a file that exists: the
    exception is the one of reading the original, or of reading the supplied
    processed file; a missing file never makes it raise, so it never raises
    FileNotFoundError. *)
Theorem X17_engine_raises_only_on_unreadable_files
    (fs : FileSystem) (input_file : string) (output_file : option string)
    (bad_chars : option (gset Z)) (e : OSError) :
  verify_bad_char_elimination fs input_file output_file bad_chars = Raised e ->
  (exists path,
     (path = input_file \/ output_file = Some path) /\
     path_exists fs path = true /\ read_file fs path = Raised e) /\
  (forall path, e ≠ FileNotFoundError path).
Proof.
  intros H. pose proof (verify_raised_inv _ _ _ _ _ H) as Hpath.
  split; [done|].
  destruct Hpath as (path & _ & Hex & Hrd). intros p ->.
  unfold path_exists, read_file in *.
  by destruct (fs path) as [| |[] ?].
Qed.

Lemma X17_witness :
  (exists path,
     (path = "in/b.bin" \/ Some "out/b.bin" = Some path) /\
     path_exists batch_disk_unreadable path = true /\
     read_file batch_disk_unreadable path
     = Raised (IsADirectoryError "out/b.bin")) /\
  (forall path, IsADirectoryError "out/b.bin" ≠ FileNotFoundError path).
Proof.
  apply (X17_engine_raises_only_on_unreadable_files batch_disk_unreadable
           "in/b.bin" (Some "out/b.bin") None).
  by vm_compute.
Defined.

End VerifyExtras.

(** ** The batch verifier's loop and summary *)

Section BatchExtras.

Import Verify BatchSpec Examples.

Lemma count_status_app (status : string) (l1 l2 : list FileResult) :
  count_status status (l1 ++ l2)
  = count_status status l1 + count_status status l2.
Proof. unfold count_status. by rewrite filter_app, length_app. Qed.

Lemma add_counts_cons (stats : BatchStats) (r : FileResult)
    (new : list FileResult) :
  add_counts stats (r :: new) = add_counts (add_counts stats [r]) new.
Proof.
  unfold add_counts. simpl.
  change (r :: new) with ([r] ++ new). rewrite !count_status_app.
  f_equal; lia.
Qed.

(** The loop records [record_of] for each file it gets to, in order, and
    counts each record once. *)
Lemma batch_loop_spec
    (fs : FileSystem) (output_mapping : gmap string string)
    (continue_on_error : bool) (bad_chars : gset Z)
    (input_files : list string) (stats : BatchStats)
    (results : list FileResult) :
  batch_loop fs output_mapping continue_on_error bad_chars input_files
    (stats, results)
  = (add_counts stats
       (record_of fs output_mapping bad_chars <$>
          processed fs output_mapping continue_on_error bad_chars input_files),
     results ++
       (record_of fs output_mapping bad_chars <$>
          processed fs output_mapping continue_on_error bad_chars input_files)).
Proof.
  revert stats results.
  induction input_files as [|f rest IH]; intros stats results.
  - simpl. rewrite app_nil_r. unfold add_counts, count_status. simpl.
    destruct stats. simpl. f_equal. f_equal; lia.
  - cbn [batch_loop processed].
    destruct (verify_bad_char_elimination fs f (output_mapping !! f)
                (Some bad_chars)) as [[|]|e] eqn:Hv.
    + rewrite IH, fmap_cons, add_counts_cons, <- app_assoc.
      unfold record_of at 3 5. rewrite Hv.
      f_equal. f_equal. unfold add_counts, count_status. simpl.
      f_equal; lia.
    + rewrite IH, fmap_cons, add_counts_cons, <- app_assoc.
      unfold record_of at 3 5. rewrite Hv.
      f_equal. f_equal. unfold add_counts, count_status. simpl.
      f_equal; lia.
    + destruct continue_on_error; cbn [negb].
      * rewrite IH, fmap_cons, add_counts_cons, <- app_assoc.
        unfold record_of at 3 5. rewrite Hv.
        f_equal. f_equal. unfold add_counts, count_status. simpl.
        f_equal; lia.
      * simpl. unfold record_of. rewrite Hv.
        f_equal. unfold add_counts, count_status. simpl. f_equal; lia.
Qed.

Lemma batch_run_spec
    (fs : FileSystem) (matched : list string) (output_dir : option string)
    (mirror : string -> string) (continue_on_error : bool)
    (bad_chars : option (gset Z)) :
  batch_run fs matched output_dir mirror continue_on_error bad_chars
  = (add_counts (mkBatchStats (length (discovered fs matched)) 0 0 0)
       (record_of fs
          (build_output_mapping output_dir mirror (discovered fs matched))
          (bad_chars_or_default bad_chars) <$>
        processed fs
          (build_output_mapping output_dir mirror (discovered fs matched))
          continue_on_error (bad_chars_or_default bad_chars)
          (discovered fs matched)),
     record_of fs
       (build_output_mapping output_dir mirror (discovered fs matched))
       (bad_chars_or_default bad_chars) <$>
     processed fs
       (build_output_mapping output_dir mirror (discovered fs matched))
       continue_on_error (bad_chars_or_default bad_chars)
       (discovered fs matched)).
Proof.
  unfold batch_run. fold (discovered fs matched).
  destruct (discovered fs matched) as [|f files] eqn:Hd; [done|].
  by rewrite batch_loop_spec.
Qed.

Lemma processed_prefix
    (fs : FileSystem) (m : gmap string string) (continue_on_error : bool)
    (bad : gset Z) (files : list string) :
  processed fs m continue_on_error bad files `prefix_of` files.
Proof.
  induction files as [|f rest IH]; simpl; [done|].
  destruct (verify_bad_char_elimination fs f (m !! f) (Some bad)) as [b|e].
  - by apply prefix_cons.
  - destruct continue_on_error; [by apply prefix_cons|].
    by exists rest.
Qed.

Lemma processed_continue
    (fs : FileSystem) (m : gmap string string) (bad : gset Z)
    (files : list string) :
  processed fs m true bad files = files.
Proof.
  induction files as [|f rest IH]; simpl; [done|].
  destruct (verify_bad_char_elimination fs f (m !! f) (Some bad));
    by rewrite IH.
Qed.

Lemma record_of_file
    (fs : FileSystem) (m : gmap string string) (bad : gset Z)
    (files : list string) :
  fr_file <$> (record_of fs m bad <$> files) = files.
Proof.
  rewrite <- list_fmap_compose.
  induction files as [|f rest IH]; [done|].
  rewrite fmap_cons, IH. f_equal. unfold record_of. simpl.
  by destruct (verify_bad_char_elimination fs f (m !! f) (Some bad)) as [[]|].
Qed.

(** Each record has one of the three statuses, and its flag and its error
    message go with the status. *)
Lemma record_of_shape
    (fs : FileSystem) (m : gmap string string) (bad : gset Z) (f : string) :
  let r := record_of fs m bad f in
  fr_file r = f /\ fr_output_file r = m !! f /\
  ((fr_status r = "SUCCESS" /\ fr_success r = true /\ fr_error r = None) \/
   (fr_status r = "FAILED" /\ fr_success r = false /\ fr_error r = None) \/
   (fr_status r = "ERROR" /\ fr_success r = false /\ is_Some (fr_error r))).
Proof.
  unfold record_of.
  destruct (verify_bad_char_elimination fs f (m !! f) (Some bad)) as [[]|];
    simpl; repeat split; eauto 10.
Qed.

Lemma count_status_total (fs : FileSystem) (m : gmap string string)
    (bad : gset Z) (files : list string) :
  count_status "SUCCESS" (record_of fs m bad <$> files)
  + count_status "FAILED" (record_of fs m bad <$> files)
  + count_status "ERROR" (record_of fs m bad <$> files)
  = length files.
Proof.
  unfold count_status. induction files as [|f rest IH]; [done|].
  rewrite fmap_cons.
  destruct (record_of_shape fs m bad f)
    as (_ & _ & [(Hs & _)|[(Hs & _)|(Hs & _)]]);
    repeat (first
      [ rewrite filter_cons_True by (by rewrite Hs)
      | rewrite filter_cons_False by (by rewrite Hs) ]);
    simpl length; lia.
Qed.

(** With [continue_on_error] off, the loop has met at most one exception,
    and an exception it met is the last thing it recorded. *)
Lemma processed_stop_errors
    (fs : FileSystem) (m : gmap string string) (bad : gset Z)
    (files : list string) :
  let new := record_of fs m bad <$> processed fs m false bad files in
  count_status "ERROR" new <= 1 /\
  (count_status "ERROR" new = 0 -> processed fs m false bad files = files) /\
  (count_status "ERROR" new = 1 ->
   exists r, last new = Some r /\ fr_status r = "ERROR").
Proof.
  cbv zeta. unfold count_status.
  induction files as [|f rest IH]; [simpl; split; [lia|split; [done|lia]]|].
  cbn [processed].
  destruct (verify_bad_char_elimination fs f (m !! f) (Some bad))
    as [b|e] eqn:Hv.
  - rewrite fmap_cons.
    assert (Hst : fr_status (record_of fs m bad f) ≠ "ERROR").
    { unfold record_of. rewrite Hv. by destruct b. }
    rewrite filter_cons_False by done.
    destruct IH as (IH1 & IH2 & IH3).
    split; [done|]. split.
    + intros H0. by rewrite IH2.
    + intros H1. destruct (IH3 H1) as (r & Hlast & Hr).
      exists r. split; [|done].
      destruct (record_of fs m bad <$> processed fs m false bad rest)
        as [|r0 l] eqn:Hl; [done|].
      by rewrite last_cons, Hlast.
  - assert (Hst : fr_status (record_of fs m bad f) = "ERROR").
    { unfold record_of. by rewrite Hv. }
    simpl. rewrite filter_cons_True by done. simpl.
    split; [lia|]. split; [lia|]. intros _. by exists (record_of fs m bad f).
Qed.

Lemma build_output_mapping_lookup
    (output_dir : option string) (mirror : string -> string)
    (files : list string) (f : string) :
  f ∈ files ->
  build_output_mapping output_dir mirror files !! f
  = counterpart output_dir mirror f.
Proof.
  unfold build_output_mapping, counterpart.
  destruct output_dir as [[|c d]|]; [done| |done].
  intros Hf.
  assert (Hgen : forall (m0 : gmap string string),
    foldl (fun m input_file => <[input_file := mirror input_file]> m) m0 files
      !! f = Some (mirror f)); [|apply Hgen].
  induction files as [|g rest IH]; [by apply elem_of_nil in Hf|].
  intros m0. simpl.
  destruct (decide (f ∈ rest)) as [Hin|Hnotin]; [by apply IH|].
  apply elem_of_cons in Hf as [->|Hf]; [|done].
  clear IH. revert m0. induction rest as [|h rest IH]; intros m0; simpl.
  - apply lookup_insert_eq.
  - apply not_elem_of_cons in Hnotin as [Hne Hnotin].
    rewrite insert_insert_ne by done. by apply IH.
Qed.

(** X18.  In the batch verifier's summary the three counters are the numbers
    of results recorded as SUCCESS, FAILED and ERROR; they add up to the
    number of results, which is at most [total], the number of regular files
    among the matches. *)
Theorem X18_batch_counters_agree_with_results
    (fs : FileSystem) (matched : list string) (output_dir : option string)
    (mirror : string -> string) (continue_on_error : bool)
    (bad_chars : option (gset Z)) :
  let stats :=
    fst (batch_run fs matched output_dir mirror continue_on_error bad_chars) in
  let results :=
    snd (batch_run fs matched output_dir mirror continue_on_error bad_chars) in
  successful stats = count_status "SUCCESS" results /\
  failed stats = count_status "FAILED" results /\
  errors stats = count_status "ERROR" results /\
  successful stats + failed stats + errors stats = length results /\
  length results <= total stats /\
  total stats = length (filter (fun p => is_file fs p = true) matched).
Proof.
  cbv zeta. rewrite batch_run_spec. cbn [fst snd add_counts total successful
    failed errors].
  repeat split; try done.
  - rewrite !Nat.add_0_l, count_status_total. by rewrite length_fmap.
  - rewrite length_fmap. apply prefix_length, processed_prefix.
Qed.

(** X19.  With [continue_on_error] on, every regular file among the matches
    is verified, in order, whatever happens on the way: the counters add up
    to [total]. *)
Theorem X19_batch_with_continue_processes_every_file
    (fs : FileSystem) (matched : list string) (output_dir : option string)
    (mirror : string -> string) (bad_chars : option (gset Z)) :
  let stats := fst (batch_run fs matched output_dir mirror true bad_chars) in
  let results := snd (batch_run fs matched output_dir mirror true bad_chars) in
  fr_file <$> results = filter (fun p => is_file fs p = true) matched /\
  successful stats + failed stats + errors stats = total stats.
Proof.
  cbv zeta. rewrite batch_run_spec. cbn [fst snd add_counts total successful
    failed errors].
  rewrite processed_continue, record_of_file. split; [done|].
  by rewrite !Nat.add_0_l, count_status_total.
Qed.

(** X20.  With [continue_on_error] off, the files verified are a prefix of
    the regular files among the matches; at most one error is counted; with
    no error every file was verified, and with one the error is the last
    result. *)
Theorem X20_batch_without_continue_stops_at_first_error
    (fs : FileSystem) (matched : list string) (output_dir : option string)
    (mirror : string -> string) (bad_chars : option (gset Z)) :
  let stats := fst (batch_run fs matched output_dir mirror false bad_chars) in
  let results := snd (batch_run fs matched output_dir mirror false bad_chars) in
  fr_file <$> results `prefix_of` filter (fun p => is_file fs p = true) matched /\
  errors stats <= 1 /\
  (errors stats = 0 ->
   fr_file <$> results = filter (fun p => is_file fs p = true) matched) /\
  (errors stats = 1 ->
   exists r, last results = Some r /\ fr_status r = "ERROR").
Proof.
  cbv zeta. rewrite batch_run_spec. cbn [fst snd add_counts total successful
    failed errors].
  rewrite record_of_file, !Nat.add_0_l.
  split; [apply processed_prefix|].
  destruct (processed_stop_errors fs
              (build_output_mapping output_dir mirror (discovered fs matched))
              (bad_chars_or_default bad_chars) (discovered fs matched))
    as (H1 & H2 & H3).
  split; [done|]. split; [|done]. intros H0. by rewrite H2.
Qed.

(** X21.  Each result of the batch verifier is about a regular file among
    the matches and is paired with the mirrored path under the output
    directory, or with no output file when no output directory was given;
    its [success] flag is set exactly for status SUCCESS and it carries an
    error message exactly for status ERROR. *)
Theorem X21_batch_results_are_well_formed
    (fs : FileSystem) (matched : list string) (output_dir : option string)
    (mirror : string -> string) (continue_on_error : bool)
    (bad_chars : option (gset Z)) (r : FileResult) :
  r ∈ snd (batch_run fs matched output_dir mirror continue_on_error bad_chars) ->
  fr_file r ∈ filter (fun p => is_file fs p = true) matched /\
  fr_output_file r = counterpart output_dir mirror (fr_file r) /\
  (fr_success r = true <-> fr_status r = "SUCCESS") /\
  (is_Some (fr_error r) <-> fr_status r = "ERROR").
Proof.
  rewrite batch_run_spec. cbn [snd]. intros Hr.
  apply list_elem_of_fmap in Hr as (f & -> & Hf).
  assert (Hin : f ∈ discovered fs matched).
  { destruct (processed_prefix fs
                (build_output_mapping output_dir mirror (discovered fs matched))
                continue_on_error (bad_chars_or_default bad_chars)
                (discovered fs matched)) as [k Hk].
    rewrite Hk. apply elem_of_app. by left. }
  destruct (record_of_shape fs
              (build_output_mapping output_dir mirror (discovered fs matched))
              (bad_chars_or_default bad_chars) f) as (Hfile & Hout & Hshape).
  cbv zeta in *. rewrite Hfile, Hout.
  split; [done|]. split; [by apply build_output_mapping_lookup|].
  destruct Hshape as [(Hs & Hb & He)|[(Hs & Hb & He)|(Hs & Hb & He)]];
    rewrite Hs, Hb; rewrite ?He; split; split; try done;
    try (by intros [? ?]).
Qed.

Lemma X21_witness :
  fr_file (mkFileResult "in/b.bin" (Some "out/b.bin") false "FAILED" None)
    ∈ filter (fun p => is_file batch_disk p = true)
        ["in/a.bin"; "in/b.bin"; "in/c.bin"] /\
  fr_output_file
    (mkFileResult "in/b.bin" (Some "out/b.bin") false "FAILED" None)
  = counterpart (Some "out") batch_mirror
      (fr_file (mkFileResult "in/b.bin" (Some "out/b.bin") false "FAILED" None))
  /\
  (fr_success (mkFileResult "in/b.bin" (Some "out/b.bin") false "FAILED" None)
   = true
   <-> fr_status (mkFileResult "in/b.bin" (Some "out/b.bin") false "FAILED" None)
       = "SUCCESS") /\
  (is_Some
     (fr_error (mkFileResult "in/b.bin" (Some "out/b.bin") false "FAILED" None))
   <-> fr_status (mkFileResult "in/b.bin" (Some "out/b.bin") false "FAILED" None)
       = "ERROR").
Proof.
  apply (X21_batch_results_are_well_formed batch_disk
           ["in/a.bin"; "in/b.bin"; "in/c.bin"] (Some "out") batch_mirror false
           None).
  vm_compute. apply elem_of_cons. right. apply elem_of_cons. by left.
Defined.

End BatchExtras.

(** ** The command line of the verifier *)

Section CliExtras.

Import Verify BatchSpec Cli CliExamples Examples.





(** X23.  In file mode with a readable original and a readable processed
    file, [main] exits with status 0 exactly when the processed file holds
    none of the byte values parsed from [--bad-chars], and with status 1
    otherwise. *)
Theorem X23_file_mode_exit_status
    (fs : FileSystem) (glob : bool -> string -> list string)
    (mirror : string -> string) (args : Args) (output_file : string)
    (original processed : list Z) :
  read_file fs (arg_input_path args) = Returned original ->
  or_else (arg_output_path args) (arg_output_path_alt args) = Some output_file ->
  read_file fs output_file = Returned processed ->
  main fs glob mirror args
  = Returned
      (if bool_decide
            (count_bad (fst (parse_bad_chars (arg_bad_chars args))) processed
             = 0)
       then 0%Z else 1%Z).
Proof.
  intros Hin Hout Hrd. unfold main. rewrite Hout.
  assert (Hfile : exists r, fs (arg_input_path args) = RegularFile true r).
  { unfold read_file in Hin.
    destruct (fs (arg_input_path args)) as [| |[] r]; try done. by exists r. }
  destruct Hfile as [r Hfile]. rewrite Hfile.
  assert (Hex : path_exists fs (arg_input_path args) = true)
    by (unfold path_exists; by rewrite Hfile).
  assert (Hexo : path_exists fs output_file = true).
  { unfold path_exists, read_file in *. by destruct (fs output_file). }
  unfold verify_bad_char_elimination.
  rewrite Hex, Hin, Hexo, Hrd. cbn [negb bad_chars_or_default].
  set (bad := fst (parse_bad_chars (arg_bad_chars args))).
  pose proof (analyze_count_zero_iff processed (Some bad)) as Hz.
  cbn [bad_chars_or_default] in Hz.
  destruct (Nat.eqb_spec
              (bad_char_count
                 (analyze_shellcode_for_bad_chars processed (Some bad))) 0)
    as [Heq|Hne].
  - by rewrite bool_decide_eq_true_2 by by apply Hz.
  - rewrite bool_decide_eq_false_2; [done|]. by rewrite <- Hz.
Qed.

Lemma X23_witness :
  main verify_disk cli_glob batch_mirror cli_file_args
  = Returned
      (if bool_decide
            (count_bad (fst (parse_bad_chars (arg_bad_chars cli_file_args)))
               [0; 2]%Z = 0)
       then 0%Z else 1%Z).
Proof.
  apply (X23_file_mode_exit_status verify_disk cli_glob batch_mirror
           cli_file_args "dirty.bin" [0; 1]%Z [0; 2]%Z); reflexivity.
Defined.

End CliExtras.

(** ** More on the process runner *)

Section RunnerExtras.

Import Runner RunnerSpec OrchestratorSpec Examples.

(** X24.  A run is classified SUCCESS only if the transformer exited with
    code 0, the output file and the original were both read, and the output
    bytes hold no null byte; the result then carries those bytes, a residual
    count of 0 and the null count of the original. *)
Theorem X24_success_means_a_clean_output_was_read
    (fs : FileSystem) (proc : Subprocess) (input_path output_path : string)
    (timeout : Z) :
  status_of (run_byvalver fs proc input_path output_path timeout) = "SUCCESS" ->
  exists stdout stderr data original,
    proc = Completed 0 stdout stderr /\
    read_file fs output_path = Returned data /\
    read_file fs input_path = Returned original /\
    output_data (run_byvalver fs proc input_path output_path timeout)
    = Some data /\
    Forall (fun byte => byte ≠ 0%Z) data /\
    nulls_remaining (run_byvalver fs proc input_path output_path timeout)
    = 0%Z /\
    nulls_in_original (run_byvalver fs proc input_path output_path timeout)
    = Z.of_nat (count_bad {[ 0%Z ]} original).
Proof.
  unfold run_byvalver.
  destruct proc as [returncode stdout stderr| |message]; [|done|done].
  destruct (Z.eqb_spec returncode 0) as [->|Hne].
  - destruct (path_exists fs output_path); [|done].
    destruct (read_file fs output_path) as [data|e]; [|done].
    destruct (read_file fs input_path) as [original|e].
    + unfold status_of, determine_status. cbn.
      destruct (analyze_shellcode_for_nulls data =? 0)%Z eqn:Hz.
      * intros _. exists stdout, stderr, data, original.
        apply Z.eqb_eq in Hz. repeat split; try done.
        -- rewrite analyze_shellcode_for_nulls_spec in Hz.
           assert (Hc : count_bad {[ 0%Z ]} data = 0) by lia.
           apply count_bad_zero in Hc.
           eapply Forall_impl; [exact Hc|]. intros b Hb ->.
           apply Hb. by apply elem_of_singleton.
        -- apply analyze_shellcode_for_nulls_spec.
      * by destruct (0 <? analyze_shellcode_for_nulls data)%Z.
    + unfold status_of, determine_status. cbn.
      by destruct (0 <? analyze_shellcode_for_nulls data)%Z.
  - unfold status_of, determine_status. cbn.
    apply Z.eqb_neq in Hne. by rewrite Hne.
Qed.

Lemma X24_witness :
  exists stdout stderr data original,
    Completed 0 "" "" = Completed 0 stdout stderr /\
    read_file runner_disk "tmp_out.bin" = Returned data /\
    read_file runner_disk "payload.bin" = Returned original /\
    output_data (run_byvalver runner_disk (Completed 0 "" "") "payload.bin"
                   "tmp_out.bin" 120)
    = Some data /\
    Forall (fun byte => byte ≠ 0%Z) data /\
    nulls_remaining (run_byvalver runner_disk (Completed 0 "" "") "payload.bin"
                       "tmp_out.bin" 120)
    = 0%Z /\
    nulls_in_original (run_byvalver runner_disk (Completed 0 "" "")
                         "payload.bin" "tmp_out.bin" 120)
    = Z.of_nat (count_bad {[ 0%Z ]} original).
Proof.
  apply (X24_success_means_a_clean_output_was_read runner_disk
           (Completed 0 "" "") "payload.bin" "tmp_out.bin" 120).
  by vm_compute.
Defined.

(** X25.  Unless the transformer exits with code 0 the runner looks at no
    file: after a timeout, a non-zero exit or a failure to start it, the
    result is the same on every file system. *)
Theorem X25_files_are_read_only_after_exit_zero
    (fs fs' : FileSystem) (proc : Subprocess) (input_path output_path : string)
    (timeout : Z) :
  (forall stdout stderr, proc ≠ Completed 0 stdout stderr) ->
  run_byvalver fs proc input_path output_path timeout
  = run_byvalver fs' proc input_path output_path timeout.
Proof.
  intros Hproc. unfold run_byvalver.
  destruct proc as [returncode stdout stderr| |message]; [|done|done].
  destruct (Z.eqb_spec returncode 0) as [->|Hne]; [|done].
  by destruct (Hproc stdout stderr).
Qed.

Lemma X25_witness :
  run_byvalver runner_disk (Completed 2 "" "bad input") "payload.bin"
    "tmp_out.bin" 120
  = run_byvalver runner_disk_nulls_left (Completed 2 "" "bad input")
      "payload.bin" "tmp_out.bin" 120.
Proof.
  apply (X25_files_are_read_only_after_exit_zero runner_disk
           runner_disk_nulls_left (Completed 2 "" "bad input") "payload.bin"
           "tmp_out.bin" 120).
  intros stdout stderr. discriminate.
Defined.

(** X26.  In every result of the runner the residual count is the sentinel
    -1 exactly when no output bytes were kept; otherwise it is the number of
    null bytes among the kept bytes, so it is never below -1.  The count of
    the original is set only after the residual count was. *)
Theorem X26_null_counts_go_with_the_output_bytes
    (fs : FileSystem) (proc : Subprocess) (input_path output_path : string)
    (timeout : Z) :
  let r := run_byvalver fs proc input_path output_path timeout in
  (nulls_remaining r = (-1)%Z <-> output_data r = None) /\
  (forall data, output_data r = Some data ->
     nulls_remaining r = Z.of_nat (count_bad {[ 0%Z ]} data)) /\
  (-1 <= nulls_remaining r)%Z /\
  (-1 <= nulls_in_original r)%Z /\
  (nulls_in_original r ≠ (-1)%Z ->
   nulls_remaining r ≠ (-1)%Z /\ exit_code r = Some 0%Z).
Proof.
  cbv zeta. unfold run_byvalver.
  destruct proc as [returncode stdout stderr| |message];
    [|by cbn; repeat split; try done; lia
     |by cbn; repeat split; try done; lia].
  destruct (Z.eqb_spec returncode 0) as [->|Hne];
    [|by cbn; repeat split; try done; lia].
  destruct (path_exists fs output_path);
    [|by cbn; repeat split; try done; lia].
  destruct (read_file fs output_path) as [data|e];
    [|by cbn; repeat split; try done; lia].
  pose proof (analyze_shellcode_for_nulls_spec data) as Hd.
  destruct (read_file fs input_path) as [original|e]; cbn.
  - pose proof (analyze_shellcode_for_nulls_spec original) as Ho.
    repeat split; try done; try lia.
    by intros d [= <-].
  - repeat split; try done; try lia.
    by intros d [= <-].
Qed.

End RunnerExtras.

(** ** The orchestrator's loop and its statistics *)

Section OrchestratorLoop.

Import OutputParser OutputSpec Runner RunnerSpec OrchestratorSpec Examples.

(** A positive residual count is only found after exit code 0, and never
    with [success]. *)
Lemma nulls_positive_shape
    (fs : FileSystem) (proc : Subprocess) (input_path output_path : string)
    (timeout : Z) :
  let r := run_byvalver fs proc input_path output_path timeout in
  (0 <? nulls_remaining r)%Z = true ->
  timed_out r = false /\ success r = false /\
  exit_code_is_zero (exit_code r) = true.
Proof.
  cbv zeta. unfold run_byvalver.
  destruct proc as [returncode stdout stderr| |message]; [|done|done].
  destruct (Z.eqb_spec returncode 0) as [->|Hne]; [|done].
  destruct (path_exists fs output_path); [|done].
  destruct (read_file fs output_path) as [data|e]; [|done].
  destruct (read_file fs input_path) as [original|e]; cbn; [|done].
  intros Hpos. repeat split.
  destruct (Z.eqb_spec (analyze_shellcode_for_nulls data) 0) as [Hz|]; [|done].
  rewrite Hz in Hpos. done.
Qed.

(** A timed-out result has [success] off. *)
Lemma timed_out_not_success
    (fs : FileSystem) (proc : Subprocess) (input_path output_path : string)
    (timeout : Z) :
  let r := run_byvalver fs proc input_path output_path timeout in
  timed_out r = true -> success r = false.
Proof.
  cbv zeta. unfold run_byvalver.
  destruct proc as [returncode stdout stderr| |message]; [|done|done].
  destruct (returncode =? 0)%Z; [|done].
  destruct (path_exists fs output_path); [|done].
  destruct (read_file fs output_path) as [data|e]; [|done].
  by destruct (read_file fs input_path).
Qed.

(** Settle the comparisons of two status strings in the goal. *)
Ltac decide_statuses :=
  repeat match goal with
         | |- context [bool_decide (?x = ?y)] =>
             let b := eval vm_compute in (bool_decide (x = y)) in
             change (bool_decide (x = y)) with b
         end.

(** The status does not depend on the counters. *)
Lemma determine_status_fst (r : RunResult) (st : ModeStats) :
  fst (determine_status r st) = status_of r.
Proof.
  unfold status_of, determine_status.
  by destruct (timed_out r), (success r),
       (exit_code_is_zero (exit_code r) && (0 <? nulls_remaining r)%Z),
       (negb (exit_code_is_zero (exit_code r))).
Qed.

(** What one run adds to the statistics of its mode. *)
Lemma mode_step_counters (path : string) (t : Trial) (parsed : OutputStats)
    (st : ModeStats) :
  let r := trial_result path t in
  let st' := snd (mode_step r parsed st) in
  known_status (status_of r) /\
  successful st' = (successful st + hit "SUCCESS" (status_of r))%Z /\
  failed st'
  = (failed st + hit "NULLS_REMAINING" (status_of r)
     + hit "FAILED" (status_of r))%Z /\
  timed_out_count st' = (timed_out_count st + hit "TIMEOUT" (status_of r))%Z /\
  errors st' = (errors st + hit "ERROR" (status_of r))%Z /\
  files_with_nulls st'
  = (files_with_nulls st + hit "NULLS_REMAINING" (status_of r))%Z /\
  total_null_bytes_found st'
  = (total_null_bytes_found st + nulls_remaining r)%Z /\
  total_instructions st'
  = (total_instructions st + instructions_disassembled parsed)%Z /\
  strategies_used st'
  = count_strategies (strategies_applied parsed) (strategies_used st).
Proof.
  cbv zeta. unfold trial_result, mode_step, status_of, determine_status,
    update_stats.
  set (r := run_byvalver (trial_fs t) (trial_proc t) path
              (trial_output_path t) 120).
  pose proof (nulls_positive_shape (trial_fs t) (trial_proc t) path
                (trial_output_path t) 120) as Hpos.
  pose proof (timed_out_not_success (trial_fs t) (trial_proc t) path
                (trial_output_path t) 120) as Hto.
  cbv zeta in Hpos, Hto. fold r in Hpos, Hto.
  unfold known_status, hit.
  destruct (timed_out r) eqn:Ht.
  - destruct (0 <? nulls_remaining r)%Z eqn:Hn;
      [by destruct (Hpos eq_refl)|].
    cbn. decide_statuses. repeat split; try lia; auto.
  - destruct (success r) eqn:Hs.
    + destruct (0 <? nulls_remaining r)%Z eqn:Hn;
        [by destruct (Hpos eq_refl) as (_ & ? & _)|].
      cbn. decide_statuses. repeat split; try lia; auto.
    + destruct (exit_code_is_zero (exit_code r)) eqn:He,
        (0 <? nulls_remaining r)%Z eqn:Hn; cbn;
        try (by destruct (Hpos eq_refl) as (_ & _ & ?));
        decide_statuses; repeat split; try lia; auto 10.
Qed.

(** A run whose captured text is parsed is recorded; one whose text makes
    the parser raise ends the orchestrator with that exception. *)
Lemma run_mode_ok (path : string) (t : Trial) (st : ModeStats)
    (parsed : OutputStats) :
  trial_parse path t = Ok parsed ->
  run_mode path t st
  = Ok (mode_test_of path t, snd (mode_step (trial_result path t) parsed st)).
Proof.
  unfold trial_parse, run_mode, mode_test_of, trial_result. intros ->.
  cbn [bind].
  pose proof (determine_status_fst
                (run_byvalver (trial_fs t) (trial_proc t) path
                   (trial_output_path t) 120) st) as Hstatus.
  unfold mode_step in *.
  destruct (determine_status _ st) as [status st']. cbn in Hstatus.
  by rewrite Hstatus.
Qed.

Lemma run_mode_raise (path : string) (t : Trial) (st : ModeStats) (e : Exn) :
  trial_parse path t = Raise e -> run_mode path t st = Raise e.
Proof. unfold trial_parse, run_mode, trial_result. by intros ->. Qed.

Lemma run_mode_returns (path : string) (t : Trial) (st : ModeStats)
    (res : ModeTest * ModeStats) :
  run_mode path t st = Ok res -> trial_parses path t = true.
Proof.
  unfold trial_parses. destruct (trial_parse path t) as [parsed|e] eqn:Hp.
  - done.
  - by rewrite (run_mode_raise _ _ _ _ Hp).
Qed.

(** The text captured from a timed-out run is always parsed. *)
Lemma timeout_text_parses (path : string) (t : Trial) :
  trial_proc t = TimeoutExpired -> trial_parses path t = true.
Proof.
  unfold trial_parses, trial_parse, trial_result. intros ->. by vm_compute.
Qed.

(** The loop body on a file whose two runs are parsed. *)
Lemma test_file_ok (acc : Stats * list FileTest)
    (entry : BinFile * Trial * Trial) (pb pn : OutputStats) :
  trial_parse (entry_path entry) (biphasic_trial entry) = Ok pb ->
  trial_parse (entry_path entry) (non_biphasic_trial entry) = Ok pn ->
  test_file acc entry
  = Ok (mkStats (stats_total (fst acc))
          (snd (mode_step
                  (trial_result (entry_path entry) (biphasic_trial entry)) pb
                  (stats_biphasic (fst acc))))
          (snd (mode_step
                  (trial_result (entry_path entry) (non_biphasic_trial entry))
                  pn (stats_non_biphasic (fst acc)))),
        snd acc ++ [file_test_of entry]).
Proof.
  destruct acc as [stats tests], entry as [[bin_file biphasic] non_biphasic].
  unfold test_file, file_test_of, entry_path, biphasic_trial,
    non_biphasic_trial.
  cbn [fst snd]. intros Hb Hn.
  rewrite (run_mode_ok _ _ _ _ Hb). cbn [bind].
  by rewrite (run_mode_ok _ _ _ _ Hn).
Qed.

Lemma test_file_returns (acc : Stats * list FileTest)
    (entry : BinFile * Trial * Trial) (res : Stats * list FileTest) :
  test_file acc entry = Ok res ->
  trial_parses (entry_path entry) (biphasic_trial entry)
  && trial_parses (entry_path entry) (non_biphasic_trial entry) = true.
Proof.
  destruct acc as [stats tests], entry as [[bin_file biphasic] non_biphasic].
  unfold test_file, entry_path, biphasic_trial, non_biphasic_trial.
  cbn [fst snd].
  destruct (run_mode (bf_path bin_file) biphasic (stats_biphasic stats))
    as [[b_test b_stats]|e] eqn:Hb; [|done].
  cbn [bind].
  destruct (run_mode (bf_path bin_file) non_biphasic (stats_non_biphasic stats))
    as [[n_test n_stats]|e] eqn:Hn; [|done].
  intros _.
  by rewrite (run_mode_returns _ _ _ _ Hb), (run_mode_returns _ _ _ _ Hn).
Qed.

Lemma for_each_app {A B : Type} (body : A -> B -> Outcome A) (l1 l2 : list B)
    (a : A) :
  for_each body (l1 ++ l2) a = bind (for_each body l1 a) (for_each body l2).
Proof.
  revert a. induction l1 as [|x l1 IH]; intros a; [done|].
  cbn [app for_each]. destruct (body a x) as [a'|e]; [|done].
  cbn [bind]. apply IH.
Qed.

Lemma corpus_parses_app (l1 l2 : list (BinFile * Trial * Trial)) :
  corpus_parses (l1 ++ l2) = corpus_parses l1 && corpus_parses l2.
Proof. apply forallb_app. Qed.

(** The loop runs to its end exactly when the parser raises on none of the
    captured texts. *)
Lemma main_loop_completes_iff (files : list (BinFile * Trial * Trial))
    (acc : Stats * list FileTest) :
  (exists res, main_loop files acc = Ok res) <-> corpus_parses files = true.
Proof.
  unfold main_loop. revert acc.
  induction files as [|entry files IH]; intros acc.
  - split; [done|]. intros _. by exists acc.
  - cbn [for_each corpus_parses forallb]. split.
    + intros [res Hres].
      destruct (test_file acc entry) as [acc'|e] eqn:Hentry; [|done].
      cbn [bind] in Hres.
      rewrite (test_file_returns _ _ _ Hentry).
      apply (IH acc'). by exists res.
    + intros Hall. apply andb_true_iff in Hall as [Hentry Hall].
      apply andb_true_iff in Hentry as [Hb Hn].
      unfold trial_parses in Hb, Hn.
      destruct (trial_parse (entry_path entry) (biphasic_trial entry))
        as [pb|] eqn:Epb; [|done].
      destruct (trial_parse (entry_path entry) (non_biphasic_trial entry))
        as [pn|] eqn:Epn; [|done].
      rewrite (test_file_ok acc entry pb pn Epb Epn). cbn [bind].
      by apply IH.
Qed.

Lemma count_mode_status_snoc (mode : FileTest -> ModeTest) (s : string)
    (tests : list FileTest) (t : FileTest) :
  count_mode_status mode s (tests ++ [t])
  = (count_mode_status mode s tests + hit s (status (mode t)))%Z.
Proof.
  unfold count_mode_status, hit. rewrite filter_app, length_app.
  case_bool_decide.
  - rewrite filter_cons_True by done. simpl. lia.
  - rewrite filter_cons_False by done. simpl. lia.
Qed.

Lemma foldr_add_from (l : list Z) (a : Z) :
  foldr Z.add a l = (foldr Z.add 0 l + a)%Z.
Proof. induction l as [|x l IH]; simpl; [done|]. rewrite IH. lia. Qed.

Lemma sum_nulls_remaining_app (mode : FileTest -> ModeTest)
    (tests1 tests2 : list FileTest) :
  sum_nulls_remaining mode (tests1 ++ tests2)
  = (sum_nulls_remaining mode tests1 + sum_nulls_remaining mode tests2)%Z.
Proof.
  unfold sum_nulls_remaining. rewrite fmap_app, foldr_app.
  rewrite foldr_add_from. lia.
Qed.

Lemma sum_nulls_remaining_one (mode : FileTest -> ModeTest) (t : FileTest) :
  sum_nulls_remaining mode [t] = test_nulls_remaining (mode t).
Proof. unfold sum_nulls_remaining. simpl. lia. Qed.

Lemma sum_nulls_remaining_snoc (mode : FileTest -> ModeTest)
    (tests : list FileTest) (t : FileTest) :
  sum_nulls_remaining mode (tests ++ [t])
  = (sum_nulls_remaining mode tests + test_nulls_remaining (mode t))%Z.
Proof.
  by rewrite sum_nulls_remaining_app, sum_nulls_remaining_one.
Qed.

Lemma count_strategies_cons (x : string) (l : list string) (m : gmap string Z) :
  count_strategies (x :: l) m
  = count_strategies l (<[x := (default 0 (m !! x) + 1)%Z]> m).
Proof. done. Qed.

(** A list without repetition raises the entry of each of its members by
    one and leaves the others alone. *)
Lemma count_strategies_lookup (l : list string) (m : gmap string Z)
    (s : string) :
  NoDup l ->
  default 0%Z (count_strategies l m !! s)
  = (default 0 (m !! s) + if bool_decide (s ∈ l) then 1 else 0)%Z.
Proof.
  intros Hnd. revert m. induction Hnd as [|x l Hx Hnd IH]; intros m.
  - rewrite bool_decide_eq_false_2 by apply not_elem_of_nil.
    unfold count_strategies. simpl. lia.
  - rewrite count_strategies_cons, IH.
    destruct (decide (s = x)) as [->|Hne].
    + rewrite bool_decide_eq_false_2 by done.
      rewrite bool_decide_eq_true_2 by (apply elem_of_cons; by left).
      rewrite lookup_insert_eq. simpl. lia.
    + rewrite lookup_insert_ne by done.
      destruct (decide (s ∈ l)) as [Hin|Hnotin].
      * rewrite !bool_decide_eq_true_2;
          [done|apply elem_of_cons; by right|done].
      * rewrite !bool_decide_eq_false_2; [done| |done].
        intros [?|?]%elem_of_cons; done.
Qed.

Lemma files_applying_snoc (pick : BinFile * Trial * Trial -> Trial)
    (s : string) (files : list (BinFile * Trial * Trial))
    (entry : BinFile * Trial * Trial) :
  files_applying pick s (files ++ [entry])
  = (files_applying pick s files
     + if applies s (entry_path entry) (pick entry) then 1 else 0)%Z.
Proof.
  unfold files_applying. rewrite filter_app, length_app.
  destruct (applies s (entry_path entry) (pick entry)) eqn:Happ.
  - rewrite filter_cons_True by done. simpl. lia.
  - rewrite filter_cons_False by (by rewrite Happ). simpl. lia.
Qed.

(** The strategy histogram after one more parsed run. *)
Lemma histogram_step (path : string) (t : Trial) (parsed : OutputStats)
    (m : gmap string Z) (s : string) :
  trial_parse path t = Ok parsed ->
  default 0%Z (count_strategies (strategies_applied parsed) m !! s)
  = (default 0 (m !! s) + if applies s path t then 1 else 0)%Z.
Proof.
  intros Hp. unfold applies. rewrite Hp.
  apply count_strategies_lookup.
  by destruct (parse_byvalver_output_well_formed _ _ _ Hp).
Qed.

(** When the parser raises on none of the captured texts the loop returns,
    with one record per file, and keeps both modes' counters in step with
    the records. *)
Lemma main_loop_counters (files : list (BinFile * Trial * Trial)) (n : nat) :
  corpus_parses files = true ->
  exists stats,
    main_loop files (initial_stats n, []) = Ok (stats, file_test_of <$> files)
    /\ mode_counters_match biphasic_test (stats_biphasic stats)
         (file_test_of <$> files)
    /\ mode_counters_match non_biphasic_test (stats_non_biphasic stats)
         (file_test_of <$> files)
    /\ stats_total stats = n
    /\ (forall s,
          default 0%Z (strategies_used (stats_biphasic stats) !! s)
          = files_applying biphasic_trial s files)
    /\ (forall s,
          default 0%Z (strategies_used (stats_non_biphasic stats) !! s)
          = files_applying non_biphasic_trial s files).
Proof.
  induction files as [|entry files IH] using rev_ind; intros Hall.
  - exists (initial_stats n).
    unfold mode_counters_match, count_mode_status, sum_nulls_remaining.
    cbn. repeat split; constructor.
  - rewrite corpus_parses_app in Hall.
    apply andb_true_iff in Hall as [Hfiles Hentry].
    cbn [corpus_parses forallb] in Hentry. rewrite andb_true_r in Hentry.
    apply andb_true_iff in Hentry as [Hpb Hpn].
    unfold trial_parses in Hpb, Hpn.
    destruct (trial_parse (entry_path entry) (biphasic_trial entry))
      as [pb|] eqn:Epb; [|done].
    destruct (trial_parse (entry_path entry) (non_biphasic_trial entry))
      as [pn|] eqn:Epn; [|done].
    destruct (IH Hfiles) as (stats & Hloop & Hb & Hn & Htotal & Hsb & Hsn).
    unfold main_loop in *. rewrite for_each_app, Hloop. cbn [bind for_each].
    rewrite (test_file_ok _ entry pb pn Epb Epn). cbn [bind fst snd].
    eexists. split; [by rewrite fmap_app|].
    cbn [stats_biphasic stats_non_biphasic stats_total].
    rewrite fmap_app. cbn [fmap list_fmap].
    destruct (mode_step_counters (entry_path entry) (biphasic_trial entry) pb
                (stats_biphasic stats))
      as (K0 & K1 & K2 & K3 & K4 & K5 & K6 & _ & K8).
    destruct (mode_step_counters (entry_path entry) (non_biphasic_trial entry)
                pn (stats_non_biphasic stats))
      as (L0 & L1 & L2 & L3 & L4 & L5 & L6 & _ & L8).
    split; [|split; [|split; [done|split]]].
    + destruct Hb as (H1 & H2 & H3 & H4 & H5 & H6 & H7).
      unfold mode_counters_match.
      rewrite !count_mode_status_snoc, sum_nulls_remaining_snoc.
      cbn [biphasic_test file_test_of mode_test_of status test_nulls_remaining].
      rewrite K1, K2, K3, K4, K5, K6, H1, H2, H3, H4, H5, H6.
      repeat split; try lia.
      apply Forall_app. split; [done|]. by constructor.
    + destruct Hn as (H1 & H2 & H3 & H4 & H5 & H6 & H7).
      unfold mode_counters_match.
      rewrite !count_mode_status_snoc, sum_nulls_remaining_snoc.
      cbn [non_biphasic_test file_test_of mode_test_of status
           test_nulls_remaining].
      rewrite L1, L2, L3, L4, L5, L6, H1, H2, H3, H4, H5, H6.
      repeat split; try lia.
      apply Forall_app. split; [done|]. by constructor.
    + intros s. rewrite K8, files_applying_snoc, <- Hsb.
      by apply histogram_step.
    + intros s. rewrite L8, files_applying_snoc, <- Hsn.
      by apply histogram_step.
Qed.

(** Five statuses, each test has one: the counts add up to the number of
    tests. *)
Lemma count_mode_status_total (mode : FileTest -> ModeTest)
    (tests : list FileTest) :
  Forall (fun t => known_status (status (mode t))) tests ->
  (count_mode_status mode "SUCCESS" tests
   + count_mode_status mode "NULLS_REMAINING" tests
   + count_mode_status mode "FAILED" tests
   + count_mode_status mode "TIMEOUT" tests
   + count_mode_status mode "ERROR" tests)%Z
  = Z.of_nat (length tests).
Proof.
  induction tests as [|t tests IH] using rev_ind; [done|].
  intros Hall. apply Forall_app in Hall as [Hall Ht].
  apply (proj1 (Forall_singleton _ _)) in Ht. specialize (IH Hall).
  rewrite !count_mode_status_snoc, length_app. simpl.
  unfold hit.
  unfold known_status in Ht.
  destruct Ht as [Ht|[Ht|[Ht|[Ht|Ht]]]]; rewrite Ht; decide_statuses; lia.
Qed.

(** C10, as stated, fails: a run that exits with code 2 after printing
    [Original shellcode size: 10 bytes] makes [parse_byvalver_output] raise
    [ValueError], which nothing catches, so the orchestrator ends before it
    adds anything to the total. *)
Lemma C10_counterexample : ~ sentinel_claim_as_stated.
Proof.
  intros H.
  destruct (H "payload.bin" trial_exit_2_with_units empty_mode_stats)
    as (test & st' & Hrun & _).
  { simpl. discriminate. }
  vm_compute in Hrun. discriminate Hrun.
Qed.

(** The orchestrator on a corpus of that one file. *)
Example loop_ends_with_value_error :
  timed_out_or_failed (trial_proc trial_exit_2_with_units) /\
  nulls_remaining (trial_result "payload.bin" trial_exit_2_with_units)
  = (-1)%Z /\
  main_loop
    [(mkBinFile "only.bin" "payload.bin" 2, trial_exit_2_with_units,
      trial_exit_2)]
    (initial_stats 1, []) = Raise ValueError.
Proof. split; [simpl; discriminate|]. by vm_compute. Qed.

(** C10, amended.  After a timeout or a non-zero exit the runner's result
    keeps [nulls_remaining = -1] and [nulls_in_original = -1].  The
    orchestrator's loop runs to its end exactly when the parser raises on
    none of the captured texts, which it never does on the text of a
    timed-out run.  When it does run to its end, a file whose run in a mode
    timed out or exited with a non-zero code is recorded with the two -1,
    and that mode's [total_null_bytes_found] is exactly one below the total
    of the same corpus without the file. *)
Theorem C10_sentinel_lowers_total_of_a_completed_loop :
  (forall (fs : FileSystem) (proc : Subprocess) (input_path output_path : string)
          (timeout : Z),
     timed_out_or_failed proc ->
     nulls_remaining (run_byvalver fs proc input_path output_path timeout)
     = (-1)%Z /\
     nulls_in_original (run_byvalver fs proc input_path output_path timeout)
     = (-1)%Z) /\
  (forall (files : list (BinFile * Trial * Trial)) (acc : Stats * list FileTest),
     (exists res, main_loop files acc = Ok res) <-> corpus_parses files = true)
  /\
  (forall (path : string) (t : Trial),
     trial_proc t = TimeoutExpired -> trial_parses path t = true) /\
  (forall (pre post : list (BinFile * Trial * Trial))
          (entry : BinFile * Trial * Trial) (n : nat),
     corpus_parses (pre ++ entry :: post) = true ->
     exists stats tests stats0 tests0 test,
       main_loop (pre ++ entry :: post) (initial_stats n, [])
       = Ok (stats, tests) /\
       main_loop (pre ++ post) (initial_stats n, []) = Ok (stats0, tests0) /\
       tests !! length pre = Some test /\
       filename test = bf_name (fst (fst entry)) /\
       (timed_out_or_failed (trial_proc (biphasic_trial entry)) ->
          test_nulls_remaining (biphasic_test test) = (-1)%Z /\
          test_nulls_in_original (biphasic_test test) = (-1)%Z /\
          total_null_bytes_found (stats_biphasic stats)
          = (total_null_bytes_found (stats_biphasic stats0) - 1)%Z) /\
       (timed_out_or_failed (trial_proc (non_biphasic_trial entry)) ->
          test_nulls_remaining (non_biphasic_test test) = (-1)%Z /\
          test_nulls_in_original (non_biphasic_test test) = (-1)%Z /\
          total_null_bytes_found (stats_non_biphasic stats)
          = (total_null_bytes_found (stats_non_biphasic stats0) - 1)%Z)).
Proof.
  split; [exact sentinels_kept|].
  split; [exact main_loop_completes_iff|].
  split; [exact timeout_text_parses|].
  intros pre post entry n Hall.
  assert (Hrest : corpus_parses (pre ++ post) = true).
  { rewrite corpus_parses_app in *.
    apply andb_true_iff in Hall as [Hpre Hpost].
    cbn [corpus_parses forallb] in Hpost.
    apply andb_true_iff in Hpost as [_ Hpost].
    by rewrite Hpre. }
  destruct (main_loop_counters _ n Hall)
    as (stats & Hloop & (_ & _ & _ & _ & _ & Hb & _)
        & (_ & _ & _ & _ & _ & Hn & _) & _).
  destruct (main_loop_counters _ n Hrest)
    as (stats0 & Hloop0 & (_ & _ & _ & _ & _ & Hb0 & _)
        & (_ & _ & _ & _ & _ & Hn0 & _) & _).
  exists stats, (file_test_of <$> (pre ++ entry :: post)), stats0,
    (file_test_of <$> (pre ++ post)), (file_test_of entry).
  split; [done|]. split; [done|].
  split.
  { rewrite fmap_app, fmap_cons.
    apply list_lookup_middle. by rewrite length_fmap. }
  split; [done|].
  rewrite Hb, Hn, Hb0, Hn0.
  rewrite !fmap_app, fmap_cons, !sum_nulls_remaining_app.
  change (file_test_of entry :: (file_test_of <$> post))
    with ([file_test_of entry] ++ (file_test_of <$> post)).
  rewrite !sum_nulls_remaining_app, !sum_nulls_remaining_one.
  cbn [biphasic_test non_biphasic_test file_test_of mode_test_of
       test_nulls_remaining test_nulls_in_original].
  split; intros Hproc.
  - destruct (sentinels_kept (trial_fs (biphasic_trial entry))
                (trial_proc (biphasic_trial entry)) (entry_path entry)
                (trial_output_path (biphasic_trial entry)) 120 Hproc)
      as [Hrem Horig].
    unfold trial_result. rewrite Hrem, Horig. repeat split; lia.
  - destruct (sentinels_kept (trial_fs (non_biphasic_trial entry))
                (trial_proc (non_biphasic_trial entry)) (entry_path entry)
                (trial_output_path (non_biphasic_trial entry)) 120 Hproc)
      as [Hrem Horig].
    unfold trial_result. rewrite Hrem, Horig. repeat split; lia.
Qed.

Lemma C10_witness :
  exists stats tests stats0 tests0 test,
    main_loop
      (corpus_two_files
       ++ (mkBinFile "third.bin" "payload.bin" 2, trial_timeout, trial_exit_2)
          :: corpus_two_files)
      (initial_stats 5, [])
    = Ok (stats, tests) /\
    main_loop (corpus_two_files ++ corpus_two_files) (initial_stats 5, [])
    = Ok (stats0, tests0) /\
    tests !! length corpus_two_files = Some test /\
    filename test = "third.bin" /\
    (timed_out_or_failed (trial_proc trial_timeout) ->
       test_nulls_remaining (biphasic_test test) = (-1)%Z /\
       test_nulls_in_original (biphasic_test test) = (-1)%Z /\
       total_null_bytes_found (stats_biphasic stats)
       = (total_null_bytes_found (stats_biphasic stats0) - 1)%Z) /\
    (timed_out_or_failed (trial_proc trial_exit_2) ->
       test_nulls_remaining (non_biphasic_test test) = (-1)%Z /\
       test_nulls_in_original (non_biphasic_test test) = (-1)%Z /\
       total_null_bytes_found (stats_non_biphasic stats)
       = (total_null_bytes_found (stats_non_biphasic stats0) - 1)%Z).
Proof.
  apply (proj2 (proj2 (proj2 C10_sentinel_lowers_total_of_a_completed_loop))
           corpus_two_files corpus_two_files
           (mkBinFile "third.bin" "payload.bin" 2, trial_timeout, trial_exit_2)
           5).
  vm_compute. reflexivity.
Defined.

(** X27.  When the orchestrator's loop runs to its end, in each mode every
    file was counted under exactly one outcome: [successful], [timed_out]
    and [errors] are the numbers of files with status SUCCESS, TIMEOUT and
    ERROR, [failed] is the number with status NULLS_REMAINING or FAILED, and
    the four add up to the number of files; the tests are recorded in corpus
    order. *)
Theorem X27_each_file_is_counted_once_per_mode
    (files : list (BinFile * Trial * Trial)) :
  corpus_parses files = true ->
  exists stats tests,
  main_loop files (initial_stats (length files), []) = Ok (stats, tests) /\
  filename <$> tests = (fun entry => bf_name (fst (fst entry))) <$> files /\
  (successful (stats_biphasic stats)
   = count_mode_status biphasic_test "SUCCESS" tests /\
   failed (stats_biphasic stats)
   = (count_mode_status biphasic_test "NULLS_REMAINING" tests
      + count_mode_status biphasic_test "FAILED" tests)%Z /\
   timed_out_count (stats_biphasic stats)
   = count_mode_status biphasic_test "TIMEOUT" tests /\
   errors (stats_biphasic stats)
   = count_mode_status biphasic_test "ERROR" tests /\
   (successful (stats_biphasic stats) + failed (stats_biphasic stats)
    + timed_out_count (stats_biphasic stats) + errors (stats_biphasic stats))%Z
   = Z.of_nat (length files)) /\
  (successful (stats_non_biphasic stats)
   = count_mode_status non_biphasic_test "SUCCESS" tests /\
   failed (stats_non_biphasic stats)
   = (count_mode_status non_biphasic_test "NULLS_REMAINING" tests
      + count_mode_status non_biphasic_test "FAILED" tests)%Z /\
   timed_out_count (stats_non_biphasic stats)
   = count_mode_status non_biphasic_test "TIMEOUT" tests /\
   errors (stats_non_biphasic stats)
   = count_mode_status non_biphasic_test "ERROR" tests /\
   (successful (stats_non_biphasic stats) + failed (stats_non_biphasic stats)
    + timed_out_count (stats_non_biphasic stats)
    + errors (stats_non_biphasic stats))%Z
   = Z.of_nat (length files)).
Proof.
  intros Hall.
  destruct (main_loop_counters files (length files) Hall)
    as (stats & Hloop & Hb & Hn & _).
  exists stats, (file_test_of <$> files). split; [done|].
  split.
  { rewrite <- list_fmap_compose. done. }
  destruct Hb as (B1 & B2 & B3 & B4 & _ & _ & B7).
  destruct Hn as (N1 & N2 & N3 & N4 & _ & _ & N7).
  pose proof (count_mode_status_total _ _ B7) as Bt.
  pose proof (count_mode_status_total _ _ N7) as Nt.
  rewrite length_fmap in Bt, Nt.
  repeat split; try done; lia.
Qed.

Lemma X27_witness :
  exists stats tests,
  main_loop corpus_two_files (initial_stats (length corpus_two_files), [])
  = Ok (stats, tests) /\
  filename <$> tests
  = (fun entry => bf_name (fst (fst entry))) <$> corpus_two_files /\
  (successful (stats_biphasic stats)
   = count_mode_status biphasic_test "SUCCESS" tests /\
   failed (stats_biphasic stats)
   = (count_mode_status biphasic_test "NULLS_REMAINING" tests
      + count_mode_status biphasic_test "FAILED" tests)%Z /\
   timed_out_count (stats_biphasic stats)
   = count_mode_status biphasic_test "TIMEOUT" tests /\
   errors (stats_biphasic stats)
   = count_mode_status biphasic_test "ERROR" tests /\
   (successful (stats_biphasic stats) + failed (stats_biphasic stats)
    + timed_out_count (stats_biphasic stats) + errors (stats_biphasic stats))%Z
   = Z.of_nat (length corpus_two_files)) /\
  (successful (stats_non_biphasic stats)
   = count_mode_status non_biphasic_test "SUCCESS" tests /\
   failed (stats_non_biphasic stats)
   = (count_mode_status non_biphasic_test "NULLS_REMAINING" tests
      + count_mode_status non_biphasic_test "FAILED" tests)%Z /\
   timed_out_count (stats_non_biphasic stats)
   = count_mode_status non_biphasic_test "TIMEOUT" tests /\
   errors (stats_non_biphasic stats)
   = count_mode_status non_biphasic_test "ERROR" tests /\
   (successful (stats_non_biphasic stats) + failed (stats_non_biphasic stats)
    + timed_out_count (stats_non_biphasic stats)
    + errors (stats_non_biphasic stats))%Z
   = Z.of_nat (length corpus_two_files)).
Proof.
  apply (X27_each_file_is_counted_once_per_mode corpus_two_files).
  vm_compute. reflexivity.
Defined.

(** X28.  When the loop runs to its end, in each mode [files_with_nulls] is
    the number of files classified NULLS_REMAINING, so it never exceeds
    [failed], and [total_null_bytes_found] is the sum of the
    [nulls_remaining] entries of the recorded tests, the -1 entries
    included. *)
Theorem X28_files_with_nulls_counts_nulls_remaining
    (files : list (BinFile * Trial * Trial)) :
  corpus_parses files = true ->
  exists stats tests,
  main_loop files (initial_stats (length files), []) = Ok (stats, tests) /\
  (files_with_nulls (stats_biphasic stats)
   = count_mode_status biphasic_test "NULLS_REMAINING" tests /\
   (files_with_nulls (stats_biphasic stats) <= failed (stats_biphasic stats))%Z
   /\
   total_null_bytes_found (stats_biphasic stats)
   = sum_nulls_remaining biphasic_test tests) /\
  (files_with_nulls (stats_non_biphasic stats)
   = count_mode_status non_biphasic_test "NULLS_REMAINING" tests /\
   (files_with_nulls (stats_non_biphasic stats)
    <= failed (stats_non_biphasic stats))%Z /\
   total_null_bytes_found (stats_non_biphasic stats)
   = sum_nulls_remaining non_biphasic_test tests).
Proof.
  intros Hall.
  destruct (main_loop_counters files (length files) Hall)
    as (stats & Hloop & Hb & Hn & _).
  exists stats, (file_test_of <$> files). split; [done|].
  destruct Hb as (_ & B2 & _ & _ & B5 & B6 & _).
  destruct Hn as (_ & N2 & _ & _ & N5 & N6 & _).
  unfold count_mode_status in *. repeat split; try done; lia.
Qed.

Lemma X28_witness :
  exists stats tests,
  main_loop corpus_two_files (initial_stats (length corpus_two_files), [])
  = Ok (stats, tests) /\
  (files_with_nulls (stats_biphasic stats)
   = count_mode_status biphasic_test "NULLS_REMAINING" tests /\
   (files_with_nulls (stats_biphasic stats) <= failed (stats_biphasic stats))%Z
   /\
   total_null_bytes_found (stats_biphasic stats)
   = sum_nulls_remaining biphasic_test tests) /\
  (files_with_nulls (stats_non_biphasic stats)
   = count_mode_status non_biphasic_test "NULLS_REMAINING" tests /\
   (files_with_nulls (stats_non_biphasic stats)
    <= failed (stats_non_biphasic stats))%Z /\
   total_null_bytes_found (stats_non_biphasic stats)
   = sum_nulls_remaining non_biphasic_test tests).
Proof.
  apply (X28_files_with_nulls_counts_nulls_remaining corpus_two_files).
  vm_compute. reflexivity.
Defined.

(** X29.  When the loop runs to its end, the strategy histogram of a mode
    maps each strategy to the number of files whose run in that mode applied
    it, however often the run's text names it: the parser lists no strategy
    twice. *)
Theorem X29_strategy_histogram_counts_files
    (files : list (BinFile * Trial * Trial)) (strategy : string) :
  corpus_parses files = true ->
  exists stats tests,
  main_loop files (initial_stats (length files), []) = Ok (stats, tests) /\
  default 0%Z (strategies_used (stats_biphasic stats) !! strategy)
  = files_applying biphasic_trial strategy files /\
  default 0%Z (strategies_used (stats_non_biphasic stats) !! strategy)
  = files_applying non_biphasic_trial strategy files.
Proof.
  intros Hall.
  destruct (main_loop_counters files (length files) Hall)
    as (stats & Hloop & _ & _ & _ & Hb & Hn).
  exists stats, (file_test_of <$> files). by repeat split.
Qed.

Lemma X29_witness :
  exists stats tests,
  main_loop corpus_with_strategies
    (initial_stats (length corpus_with_strategies), []) = Ok (stats, tests) /\
  default 0%Z (strategies_used (stats_biphasic stats) !! "mov_xor")
  = files_applying biphasic_trial "mov_xor" corpus_with_strategies /\
  default 0%Z (strategies_used (stats_non_biphasic stats) !! "mov_xor")
  = files_applying non_biphasic_trial "mov_xor" corpus_with_strategies.
Proof.
  apply (X29_strategy_histogram_counts_files corpus_with_strategies "mov_xor").
  vm_compute. reflexivity.
Defined.

(** The first run of [corpus_with_strategies] names [mov_xor] twice and is
    counted once. *)
Example histogram_of_corpus_with_strategies :
  exists stats tests,
    main_loop corpus_with_strategies (initial_stats 2, []) = Ok (stats, tests)
    /\ strategies_used (stats_biphasic stats) !! "mov_xor" = Some 2%Z
    /\ strategies_used (stats_biphasic stats) !! "push_pop" = Some 1%Z
    /\ strategies_used (stats_non_biphasic stats) !! "mov_xor" = Some 1%Z
    /\ strategies_used (stats_non_biphasic stats) !! "push_pop" = None.
Proof. eexists _, _. split; [by vm_compute|]. by vm_compute. Qed.

Lemma success_difference (tests : list FileTest) :
  (Z.of_nat (count_where
               (fun t => biphasic_success t && negb (non_biphasic_success t))
               tests)
   - Z.of_nat (count_where
                 (fun t => non_biphasic_success t && negb (biphasic_success t))
                 tests))%Z
  = (count_mode_status biphasic_test "SUCCESS" tests
     - count_mode_status non_biphasic_test "SUCCESS" tests)%Z.
Proof.
  unfold count_where, count_mode_status, biphasic_success,
    non_biphasic_success, is_success.
  induction tests as [|t tests IH]; [done|].
  destruct (decide (status (biphasic_test t) = "SUCCESS")) as [Hb|Hb],
    (decide (status (non_biphasic_test t) = "SUCCESS")) as [Hn|Hn];
    repeat (first
      [ rewrite filter_cons_True
          by (rewrite ?bool_decide_eq_true_2, ?bool_decide_eq_false_2 by done;
              done)
      | rewrite filter_cons_False
          by (rewrite ?bool_decide_eq_true_2, ?bool_decide_eq_false_2 by done;
              done) ]);
    simpl length; lia.
Qed.

(** X30.  When the loop runs to its end, the mode comparison is consistent
    with the success counters: the number of files on which only the
    biphasic run succeeded minus the number on which only the other run
    succeeded is the difference of the two [successful] counters. *)
Theorem X30_better_counts_differ_as_success_counters
    (files : list (BinFile * Trial * Trial)) :
  corpus_parses files = true ->
  exists stats tests,
  main_loop files (initial_stats (length files), []) = Ok (stats, tests) /\
  (Z.of_nat (fst (fst (mode_comparison tests)))
   - Z.of_nat (snd (fst (mode_comparison tests))))%Z
  = (successful (stats_biphasic stats)
     - successful (stats_non_biphasic stats))%Z.
Proof.
  intros Hall.
  destruct (main_loop_counters files (length files) Hall)
    as (stats & Hloop & (B1 & _) & (N1 & _) & _).
  exists stats, (file_test_of <$> files). split; [done|].
  rewrite B1, N1, <- success_difference.
  unfold mode_comparison. rewrite mode_comparison_from. done.
Qed.

Lemma X30_witness :
  exists stats tests,
  main_loop corpus_two_files (initial_stats (length corpus_two_files), [])
  = Ok (stats, tests) /\
  (Z.of_nat (fst (fst (mode_comparison tests)))
   - Z.of_nat (snd (fst (mode_comparison tests))))%Z
  = (successful (stats_biphasic stats)
     - successful (stats_non_biphasic stats))%Z.
Proof.
  apply (X30_better_counts_differ_as_success_counters corpus_two_files).
  vm_compute. reflexivity.
Defined.

End OrchestratorLoop.
